(** * conversation-insights: the Skill-first diagnosis pipeline

    A shallow embedding of the parts of
    [scripts/diagnose_helper.py], [scripts/incremental_dimensions.py],
    [scripts/skill_runtime.py] and [scripts/_sync_analysis_reports_core.py]
    that the specification talks about, with the properties proved about
    them.

    Python values are modelled as the code sees them:
    - a [str] is a sequence of Unicode code points ([pystr]);
    - a decoded JSON document is a value of [json]; a [dict] is an
      association list in insertion order with unique keys;
    - an exception is a value of [exn] carried by [result];
    - files are a finite map from names to text. *)

From Stdlib Require Import ZArith NArith List Ascii String Lia Bool.
From Stdlib Require Sorted.
From stdpp Require Import base option list gmap sets strings.

Set Default Proof Using "Type".
Set Warnings "-register-all,-clear-no-such-hyp".
Local Open Scope Z_scope.

(** ** Python strings *)

Module Py.

(** A Python [str]: the sequence of its code points. *)
Definition pystr := list N.

(** UTF-8 decoding of a literal of this file, so that Python string
    constants can be written as they appear in the source. *)
Fixpoint utf8_decode (bs : list N) : pystr :=
  match bs with
  | [] => []
  | b0 :: r0 =>
      if (b0 <? 128)%N then b0 :: utf8_decode r0
      else if (b0 <? 224)%N then
        match r0 with
        | b1 :: r1 => ((b0 - 192) * 64 + (b1 - 128))%N :: utf8_decode r1
        | [] => [b0]
        end
      else if (b0 <? 240)%N then
        match r0 with
        | b1 :: b2 :: r2 =>
            ((b0 - 224) * 4096 + (b1 - 128) * 64 + (b2 - 128))%N :: utf8_decode r2
        | _ => [b0]
        end
      else
        match r0 with
        | b1 :: b2 :: b3 :: r3 =>
            ((b0 - 240) * 262144 + (b1 - 128) * 4096 + (b2 - 128) * 64 + (b3 - 128))%N
              :: utf8_decode r3
        | _ => [b0]
        end
  end.

Definition u (s : string) : pystr :=
  utf8_decode (map N_of_ascii (list_ascii_of_string s)).

(** [str.isspace] for one code point: the characters [str.strip] removes. *)
Definition is_space (c : N) : bool :=
  ((9 <=? c) && (c <=? 13) || (28 <=? c) && (c <=? 32)
   || (c =? 133) || (c =? 160) || (c =? 5760)
   || (8192 <=? c) && (c <=? 8202)
   || (c =? 8232) || (c =? 8233) || (c =? 8239) || (c =? 8287) || (c =? 12288))%N.

Fixpoint lstrip (s : pystr) : pystr :=
  match s with
  | c :: r => if is_space c then lstrip r else s
  | [] => []
  end.

Definition rstrip (s : pystr) : pystr := rev (lstrip (rev s)).

(** [s.strip()] *)
Definition strip (s : pystr) : pystr := rstrip (lstrip s).

(** [s.lower()] on the ASCII letters; the code points outside ASCII are
    left as they are (the markers the code searches for are all ASCII). *)
Definition lower_char (c : N) : N :=
  if ((65 <=? c) && (c <=? 90))%N then (c + 32)%N else c.

Definition lower (s : pystr) : pystr := map lower_char s.

Fixpoint starts_with (p s : pystr) : bool :=
  match p, s with
  | [], _ => true
  | _ :: _, [] => false
  | a :: p', b :: s' => (a =? b)%N && starts_with p' s'
  end.

(** [t in s] for two strings: [t] occurs in [s] as a substring. *)
Fixpoint contains (t s : pystr) : bool :=
  starts_with t s ||
  match s with
  | [] => false
  | _ :: s' => contains t s'
  end.

(** [any(token in s for token in tokens)] *)
Definition contains_any (tokens : list pystr) (s : pystr) : bool :=
  existsb (fun t => contains t s) tokens.

(** [s == t] *)
Definition str_eqb (s t : pystr) : bool := bool_decide (s = t).

(** [s in tuple_or_set_of_strings] *)
Definition str_in (s : pystr) (l : list pystr) : bool := bool_decide (s ∈ l).

(** Decimal digits of a number, as [str(n)] and f-strings print them. *)
Fixpoint digits_of_uint (d : Decimal.uint) : pystr :=
  match d with
  | Decimal.Nil => []
  | Decimal.D0 d => 48%N :: digits_of_uint d
  | Decimal.D1 d => 49%N :: digits_of_uint d
  | Decimal.D2 d => 50%N :: digits_of_uint d
  | Decimal.D3 d => 51%N :: digits_of_uint d
  | Decimal.D4 d => 52%N :: digits_of_uint d
  | Decimal.D5 d => 53%N :: digits_of_uint d
  | Decimal.D6 d => 54%N :: digits_of_uint d
  | Decimal.D7 d => 55%N :: digits_of_uint d
  | Decimal.D8 d => 56%N :: digits_of_uint d
  | Decimal.D9 d => 57%N :: digits_of_uint d
  end.

Definition str_of_nat (n : nat) : pystr := digits_of_uint (Nat.to_uint n).

Definition str_of_Z (z : Z) : pystr :=
  match z with
  | Z0 => [48%N]
  | Zpos p => digits_of_uint (Pos.to_uint p)
  | Zneg p => 45%N :: digits_of_uint (Pos.to_uint p)
  end.

(** [f"{n:02d}"] for a non-negative number. *)
Definition str_of_nat_02 (n : nat) : pystr :=
  if (n <? 10)%nat then 48%N :: str_of_nat n else str_of_nat n.

(** [sep.join(parts)] *)
Fixpoint join (sep : pystr) (parts : list pystr) : pystr :=
  match parts with
  | [] => []
  | [p] => p
  | p :: rest => p ++ sep ++ join sep rest
  end.

(** Lexicographic order on code points: [s <= t] on Python strings. *)
Fixpoint str_leb (s t : pystr) : bool :=
  match s, t with
  | [], _ => true
  | _ :: _, [] => false
  | a :: s', b :: t' =>
      if (a <? b)%N then true else if (b <? a)%N then false else str_leb s' t'
  end.

End Py.

(** ** Exceptions and decoded JSON values *)

Module Json.
Import Py.

Inductive exn_class :=
  | AttributeError | TypeError | KeyError | ValueError
  | RuntimeError | OverflowError | TimeoutExpired.

(** An exception: its class and [str(exc)]. *)
Record exn := Exn { exn_class_of : exn_class; exn_text : pystr }.

Inductive result (A : Type) :=
  | Ok (a : A)
  | Raise (e : exn).
Arguments Ok {A} a.
Arguments Raise {A} e.

#[export] Instance result_ret : MRet result := fun A a => Ok a.
#[export] Instance result_bind : MBind result := fun A B f m =>
  match m with
  | Ok a => f a
  | Raise e => Raise e
  end.

Definition returns {A} (m : result A) : Prop := exists a, m = Ok a.

(** A Python [float] is observed by the modelled code only through its
    truth value and its printed form. *)
Record pyfloat := PyFloat { float_nonzero : bool; float_repr : pystr }.

Inductive json :=
  | JNull
  | JBool (b : bool)
  | JInt (z : Z)
  | JFloat (f : pyfloat)
  | JStr (s : pystr)
  | JList (l : list json)
  | JObj (kvs : list (pystr * json)).

Definition dict := list (pystr * json).

Fixpoint dict_get (d : dict) (k : pystr) : option json :=
  match d with
  | [] => None
  | (k', v) :: r => if bool_decide (k' = k) then Some v else dict_get r k
  end.

(** [d.get(k)] *)
Definition get (d : dict) (k : pystr) : json := default JNull (dict_get d k).

(** [d.get(k, dflt)] *)
Definition get_or (d : dict) (k : pystr) (dflt : json) : json :=
  default dflt (dict_get d k).

(** [k in d] *)
Definition has_key (d : dict) (k : pystr) : bool := bool_decide (is_Some (dict_get d k)).

(** [d[k] = v]: an existing key keeps its place. *)
Fixpoint dict_set (d : dict) (k : pystr) (v : json) : dict :=
  match d with
  | [] => [(k, v)]
  | (k', v') :: r =>
      if bool_decide (k' = k) then (k, v) :: r else (k', v') :: dict_set r k v
  end.

(** [d.setdefault(k, v)], for its effect on [d]. *)
Definition setdefault (d : dict) (k : pystr) (v : json) : dict :=
  if has_key d k then d else dict_set d k v.

(** [bool(x)] *)
Definition truthy (j : json) : bool :=
  match j with
  | JNull => false
  | JBool b => b
  | JInt z => negb (z =? 0)
  | JFloat f => float_nonzero f
  | JStr s => negb (bool_decide (s = []))
  | JList l => negb (bool_decide (l = []))
  | JObj d => negb (bool_decide (d = []))
  end.

(** [a or b] *)
Definition py_or (a b : json) : json := if truthy a then a else b.

(** [repr(x)]; a string is quoted with single quotes and not escaped. *)
Fixpoint py_repr (j : json) : pystr :=
  match j with
  | JNull => u "None"
  | JBool true => u "True"
  | JBool false => u "False"
  | JInt z => str_of_Z z
  | JFloat f => float_repr f
  | JStr s => u "'" ++ s ++ u "'"
  | JList l => u "[" ++ join (u ", ") (map py_repr l) ++ u "]"
  | JObj d =>
      u "{" ++
      join (u ", ")
        (map (fun kv => let '(k, v) := kv in u "'" ++ k ++ u "': " ++ py_repr v) d)
      ++ u "}"
  end.

(** [str(x)] *)
Definition py_str (j : json) : pystr :=
  match j with
  | JStr s => s
  | _ => py_repr j
  end.

(** [str(x or '').strip()], the way the code reads a text field. *)
Definition text_of (j : json) : pystr := strip (py_str (py_or j (JStr []))).

(** [isinstance(x, int)]: a [bool] is an [int] in Python. *)
Definition as_int (j : json) : option Z :=
  match j with
  | JInt z => Some z
  | JBool true => Some 1
  | JBool false => Some 0
  | _ => None
  end.

Definition is_str (j : json) : bool := match j with JStr _ => true | _ => false end.
Definition is_list (j : json) : bool := match j with JList _ => true | _ => false end.
Definition is_dict (j : json) : bool := match j with JObj _ => true | _ => false end.
Definition is_none (j : json) : bool := match j with JNull => true | _ => false end.
Definition is_number (j : json) : bool :=
  match j with JInt _ | JBool _ | JFloat _ => true | _ => false end.

(** [x == s] for a string constant [s]. *)
Definition eq_str (j : json) (s : pystr) : bool :=
  match j with
  | JStr t => bool_decide (t = s)
  | _ => false
  end.

(** [isinstance(x, str) and x.strip()] as a truth value. *)
Definition nonblank_str (j : json) : bool :=
  match j with
  | JStr s => negb (bool_decide (strip s = []))
  | _ => false
  end.

(** [isinstance(x, int) and x > 0] *)
Definition positive_int (j : json) : bool :=
  match as_int j with
  | Some z => 0 <? z
  | None => false
  end.

(** [isinstance(x, int) and x >= 0] *)
Definition nonneg_int (j : json) : bool :=
  match as_int j with
  | Some z => 0 <=? z
  | None => false
  end.

(** Stable sort by a key, as [sorted(l, key=...)] orders a list. *)
Section Sorted.
Context {A K : Type} (key : A -> K) (leb : K -> K -> bool).

Fixpoint insert_sorted (x : A) (l : list A) : list A :=
  match l with
  | [] => [x]
  | y :: r => if leb (key x) (key y) then x :: l else y :: insert_sorted x r
  end.

Definition py_sorted (l : list A) : list A := foldr insert_sorted [] l.

End Sorted.

End Json.

(** ** incremental_dimensions.py: the dimension registry *)

Module Dimensions.
Import Py Json.

Definition _DIMENSION_LAYER_PAIRS : list (pystr * pystr) :=
  [ (u "incremental-trigger-chains", u "L2");
    (u "incremental-first-pass-diagnostics", u "L2");
    (u "incremental-coverage-gap", u "L2");
    (u "incremental-task-stratification", u "L2");
    (u "incremental-root-causes", u "L3");
    (u "incremental-change-delta", u "L3");
    (u "incremental-interventions", u "L3");
    (u "incremental-intervention-impact", u "L3");
    (u "incremental-validation-loop", u "L3");
    (u "incremental-reuse-assets", u "L3");
    (u "incremental-compounding", u "L3") ].

(** [DIMENSION_LAYER_MAP.get(dimension)] *)
Fixpoint assoc {V} (l : list (pystr * V)) (k : pystr) : option V :=
  match l with
  | [] => None
  | (k', v) :: r => if bool_decide (k' = k) then Some v else assoc r k
  end.

Definition DIMENSION_LAYER_MAP_get (dimension : pystr) : option pystr :=
  assoc _DIMENSION_LAYER_PAIRS dimension.

Definition DIMENSION_LAYER_MAP_keys : list pystr := map fst _DIMENSION_LAYER_PAIRS.

Definition DIMENSION_ORDER_INDEX : list (pystr * nat) :=
  imap (fun index p => (fst p, index)) _DIMENSION_LAYER_PAIRS.

Definition expected_layer_for_dimension (dimension : json) : option pystr :=
  DIMENSION_LAYER_MAP_get (text_of dimension).

Definition is_supported_dimension (dimension : json) : bool :=
  bool_decide (is_Some (DIMENSION_LAYER_MAP_get (text_of dimension))).

(** The sort key [(rank, period, date, title)] of a report. *)
Definition report_sort_key (report : dict) : nat * pystr * pystr * pystr :=
  let dimension := text_of (get report (u "dimension")) in
  let date := text_of (get report (u "date")) in
  let period := text_of (get report (u "period")) in
  let title := text_of (get report (u "title")) in
  let rank := default (length DIMENSION_ORDER_INDEX) (assoc DIMENSION_ORDER_INDEX dimension) in
  (rank, period, date, title).

Definition str_ltb (s t : pystr) : bool := str_leb s t && negb (bool_decide (s = t)).

(** Tuple comparison [k1 <= k2], component by component. *)
Definition sort_key_leb (k1 k2 : nat * pystr * pystr * pystr) : bool :=
  let '(r1, p1, d1, t1) := k1 in
  let '(r2, p2, d2, t2) := k2 in
  if (r1 <? r2)%nat then true else if (r2 <? r1)%nat then false
  else if str_ltb p1 p2 then true else if str_ltb p2 p1 then false
  else if str_ltb d1 d2 then true else if str_ltb d2 d1 then false
  else str_leb t1 t2.

Definition sort_reports (reports : list dict) : list dict :=
  py_sorted report_sort_key sort_key_leb reports.

End Dimensions.

(** ** diagnose_helper.py: the contract validator *)

Module Validator.
Import Py Json Dimensions.

Definition _SESSION_SCHEMA : pystr := u "session-mechanism.v1".
Definition _INCREMENTAL_SCHEMA : pystr := u "incremental-mechanism.v1".

Definition _PLACEHOLDER_TOKENS : list pystr :=
  [ u "placeholder"; u "insufficient-evidence"; u "no validated";
    u "need more session mechanism outputs"; u "collect-more-session-insights";
    u "tbd"; u "trigger-missing"; u "action-missing"; u "root-cause-missing";
    u "gain-missing"; u "window-missing" ].

Definition _DISALLOWED_GENERATED_BY_ENGINES : list pystr :=
  [ u "manual"; u "mock"; u "template" ].

Definition _DISALLOWED_GENERATED_BY_PROVIDERS : list pystr :=
  [ u "skill-manual"; u "manual"; u "mock"; u "api-mock"; u "template" ].

Definition _DISALLOWED_RUN_ID_TOKENS : list pystr :=
  [ u "replace-mock-sidecars"; u "mock-sidecar"; u "mock-backfill" ].

Definition _MAX_DETAIL_LINES_PER_REPORT : nat := 80.

(** [_EVIDENCE_DUMP_PATTERN.search(line)] for the pattern
    [(#t\d+|session[_-]?id|主证据[:：]|辅助证据[:：])] with [re.IGNORECASE];
    [\d] is taken on the ASCII digits and letter case on the ASCII letters. *)
Definition _EVIDENCE_DUMP_PATTERN_search (line : pystr) : bool :=
  let s := lower line in
  existsb (fun d => contains (u "#t" ++ [d]) s)
          [48; 49; 50; 51; 52; 53; 54; 55; 56; 57]%N
  || contains_any [ u "sessionid"; u "session_id"; u "session-id";
                    u "主证据:"; u "主证据："; u "辅助证据:"; u "辅助证据：" ] s.

Definition _contains_placeholder (text : pystr) : bool :=
  let content := lower (strip text) in
  if bool_decide (content = []) then true
  else contains_any _PLACEHOLDER_TOKENS content.

Definition _generated_by_block_reason (generated_by : json) : option pystr :=
  match generated_by with
  | JObj gb =>
      let engine := lower (text_of (get gb (u "engine"))) in
      let provider := lower (text_of (get gb (u "provider"))) in
      let run_id := lower (text_of (get gb (u "run_id"))) in
      if str_in engine _DISALLOWED_GENERATED_BY_ENGINES then
        Some (u "generated_by.engine=" ++ engine ++ u " is not allowed")
      else if str_in provider _DISALLOWED_GENERATED_BY_PROVIDERS then
        Some (u "generated_by.provider=" ++ provider ++ u " is not allowed")
      else if contains_any _DISALLOWED_RUN_ID_TOKENS run_id then
        Some (u "generated_by.run_id contains blocked token: " ++ run_id)
      else None
  | _ => None
  end.

(** [errors.append(msg)] under a condition. *)
Definition err_if (c : bool) (msg : pystr) : list pystr := if c then [msg] else [].

(** [x not in {"primary", "supporting"}]: membership in a set hashes [x],
    which fails on a list or a dict. *)
Definition not_in_str_set (x : json) (s : list pystr) : result bool :=
  match x with
  | JList _ => Raise (Exn TypeError (u "unhashable type: 'list'"))
  | JObj _ => Raise (Exn TypeError (u "unhashable type: 'dict'"))
  | JStr t => Ok (negb (str_in t s))
  | _ => Ok true
  end.

Definition _validate_evidence (evidence : dict) (index : nat) : result (list pystr) :=
  let session_id := get evidence (u "session_id") in
  let turn_id := get evidence (u "turn_id") in
  let snippet := get evidence (u "snippet") in
  let pre := u "evidence[" ++ str_of_nat index ++ u "]" in
  let e1 := err_if (negb (nonblank_str session_id))
                   (pre ++ u ".session_id must be non-empty string") in
  let e2 := err_if (negb (positive_int turn_id))
                   (pre ++ u ".turn_id must be positive integer") in
  let e3 := err_if (negb (nonblank_str snippet))
                   (pre ++ u ".snippet must be non-empty string") in
  let tier := get evidence (u "tier") in
  e4 ← (if is_none tier then Ok []
        else
          bad ← not_in_str_set tier [u "primary"; u "supporting"];
          Ok (err_if bad (pre ++ u ".tier must be 'primary' or 'supporting' when present")));
  Ok (e1 ++ e2 ++ e3 ++ e4).

(** [for idx, x in enumerate(l): errors.extend(f(idx, x))] *)
Fixpoint for_enumerate {A} (f : nat -> A -> result (list pystr)) (idx : nat) (l : list A)
  : result (list pystr) :=
  match l with
  | [] => Ok []
  | x :: r =>
      e ← f idx x;
      es ← for_enumerate f (S idx) r;
      Ok (e ++ es)
  end.

Definition why_item_errors (idx : nat) (item : json) : result (list pystr) :=
  let pre := u "why[" ++ str_of_nat idx ++ u "]" in
  match item with
  | JObj w =>
      let e1 := err_if (negb (nonblank_str (get w (u "hypothesis"))))
                       (pre ++ u ".hypothesis must be non-empty string") in
      let confidence := get w (u "confidence") in
      let e2 := err_if (negb (is_none confidence) && negb (is_number confidence))
                       (pre ++ u ".confidence must be number when present") in
      e3 ← match get w (u "evidence") with
           | JList (ev0 :: evs) =>
               for_enumerate
                 (fun ev_idx ev =>
                    match ev with
                    | JObj e => _validate_evidence e ev_idx
                    | _ => Ok [pre ++ u ".evidence[" ++ str_of_nat ev_idx ++ u "] must be object"]
                    end) 0%nat (ev0 :: evs)
           | _ => Ok [pre ++ u ".evidence must be non-empty list"]
           end;
      Ok (e1 ++ e2 ++ e3)
  | _ => Ok [pre ++ u " must be object"]
  end.

Definition action_item_errors (idx : nat) (action : json) : result (list pystr) :=
  let pre := u "how_to_improve[" ++ str_of_nat idx ++ u "]" in
  match action with
  | JObj a =>
      Ok (concat (map (fun key =>
            err_if (negb (nonblank_str (get a key)))
                   (pre ++ u "." ++ key ++ u " must be non-empty string"))
            [u "trigger"; u "action"; u "expected_gain"; u "validation_window"]))
  | _ => Ok [pre ++ u " must be object"]
  end.

Definition generated_by_errors (generated_by : json) : list pystr :=
  match generated_by with
  | JObj gb =>
      concat (map (fun key =>
         err_if (negb (nonblank_str (get gb key)))
                (u "generated_by." ++ key ++ u " must be non-empty string"))
         [u "engine"; u "provider"; u "model"; u "run_id"; u "generated_at"])
      ++ match _generated_by_block_reason generated_by with
         | Some block_reason => [u "generated_by is blocked: " ++ block_reason]
         | None => []
         end
  | _ => [u "generated_by must be object"]
  end.

(** The checks of [validate_session_mechanism] that come before the
    [generated_by] block, in the order of the source. *)
Definition session_body_errors (payload : dict) : result (list pystr) :=
  let e_schema :=
    err_if (negb (eq_str (get payload (u "schema_version")) _SESSION_SCHEMA))
           (u "schema_version must be '" ++ _SESSION_SCHEMA ++ u "'") in
  let e_sid := err_if (negb (nonblank_str (get payload (u "session_id"))))
                      (u "session_id must be non-empty string") in
  let e_created := err_if (negb (nonblank_str (get payload (u "created_at"))))
                          (u "created_at must be non-empty string") in
  let week := get payload (u "week") in
  let period_id := get payload (u "period_id") in
  let e_week := err_if (negb (is_none week) && negb (nonblank_str week))
                       (u "week must be non-empty string when present") in
  let e_period := err_if (negb (is_none period_id) && negb (nonblank_str period_id))
                         (u "period_id must be non-empty string when present") in
  let what_happened := get payload (u "what_happened") in
  let e_what := err_if (negb (is_list what_happened && truthy what_happened))
                       (u "what_happened must be non-empty list") in
  e_why ← match get payload (u "why") with
          | JList (w0 :: ws) => for_enumerate why_item_errors 0%nat (w0 :: ws)
          | _ => Ok [u "why must be non-empty list"]
          end;
  e_actions ← match get payload (u "how_to_improve") with
              | JList (a0 :: acts) => for_enumerate action_item_errors 0%nat (a0 :: acts)
              | _ => Ok [u "how_to_improve must be non-empty list"]
              end;
  let labels := get payload (u "labels") in
  let e_labels := err_if (negb (is_none labels) && negb (is_list labels))
                         (u "labels must be list when present") in
  let e_summary := err_if (negb (nonblank_str (get payload (u "summary"))))
                          (u "summary must be non-empty string") in
  Ok (e_schema ++ e_sid ++ e_created ++ e_week ++ e_period ++ e_what
      ++ e_why ++ e_actions ++ e_labels ++ e_summary).

(** [payload.get] exists on a [dict] only. *)
Definition no_get_attribute {A} : result A :=
  Raise (Exn AttributeError (u "object has no attribute 'get'")).

Definition validate_session_mechanism (payload : json) : result (list pystr) :=
  match payload with
  | JObj p =>
      body ← session_body_errors p;
      Ok (body ++ generated_by_errors (get p (u "generated_by")))
  | _ => no_get_attribute
  end.

(** The text fields of a report, as [validate_incremental_mechanism] reads
    them: [str(item.get(key) or '').strip()]. *)
Definition report_dimension (item : dict) : pystr := text_of (get item (u "dimension")).
Definition report_layer (item : dict) : pystr := text_of (get item (u "layer")).

(** The error of a layer that is not the registry's. *)
Definition layer_error (idx : nat) (expected_layer dimension : pystr) : pystr :=
  u "reports[" ++ str_of_nat idx ++ u "].layer must be '" ++ expected_layer
    ++ u "' for dimension '" ++ dimension ++ u "'".

(** The stripped non-empty strings of [detail_lines]. *)
Definition normalized_lines (detail_lines : list json) : list pystr :=
  omap (fun line =>
          match line with
          | JStr s => if bool_decide (strip s = []) then None else Some (strip s)
          | _ => None
          end) detail_lines.

Definition detail_errors (idx : nat) (item : dict) : list pystr :=
  let pre := u "reports[" ++ str_of_nat idx ++ u "]" in
  let detail_lines := get item (u "detail_lines") in
  let detail_text := get item (u "detail_text") in
  let has_lines :=
    match detail_lines with
    | JList ls => existsb nonblank_str ls
    | _ => false
    end in
  let has_text := nonblank_str detail_text in
  err_if (negb has_lines && negb has_text) (pre ++ u " requires detail_lines or detail_text")
  ++ match detail_lines with
     | JList ls =>
         let lines := normalized_lines ls in
         let n := length lines in
         err_if (_MAX_DETAIL_LINES_PER_REPORT <? n)%nat
                (pre ++ u ".detail_lines has " ++ str_of_nat n ++ u " lines; "
                     ++ u "expected aggregated insights <= "
                     ++ str_of_nat _MAX_DETAIL_LINES_PER_REPORT)
         ++ (if (20 <=? n)%nat then
               let evidence_like := length (filter (fun l => _EVIDENCE_DUMP_PATTERN_search l = true) lines) in
               (* evidence_like / n >= 0.7 *)
               err_if (7 * n <=? 10 * evidence_like)%nat
                      (pre ++ u " looks like per-session evidence dump; "
                           ++ u "aggregate into mechanism-level insights")
             else [])
     | _ => []
     end.

(** The body of the loop over [reports]: the errors of one report and the
    set of report keys seen so far. *)
Definition report_errors (period_id week : json) (idx : nat) (item : json)
    (seen : gset (pystr * pystr)) : list pystr * gset (pystr * pystr) :=
  let pre := u "reports[" ++ str_of_nat idx ++ u "]" in
  match item with
  | JObj r =>
      let e_keys :=
        concat (map (fun key =>
          err_if (negb (nonblank_str (get r key)))
                 (pre ++ u "." ++ key ++ u " must be non-empty string"))
          [u "dimension"; u "layer"; u "title"; u "key_insights"]) in
      let dimension := report_dimension r in
      let layer := report_layer r in
      let e_dim :=
        err_if (negb (bool_decide (dimension = [])) && negb (is_supported_dimension (JStr dimension)))
               (pre ++ u ".dimension must be one of ["
                    ++ join (u ", ") (py_sorted id str_leb DIMENSION_LAYER_MAP_keys) ++ u "]") in
      let e_layer :=
        match DIMENSION_LAYER_MAP_get dimension with
        | Some expected_layer =>
            err_if (negb (bool_decide (dimension = []))
                    && negb (bool_decide (expected_layer = []))
                    && negb (bool_decide (layer = []))
                    && negb (bool_decide (layer = expected_layer)))
                   (layer_error idx expected_layer dimension)
        | None => []
        end in
      let e_opt :=
        concat (map (fun key =>
          let value := get r key in
          err_if (negb (is_none value) && negb (nonblank_str value))
                 (pre ++ u "." ++ key ++ u " must be non-empty string when present"))
          [u "period"; u "date"]) in
      let period_key :=
        text_of (py_or (get r (u "period")) (py_or period_id week)) in
      let dup :=
        negb (bool_decide (dimension = [])) && negb (bool_decide (period_key = [])) in
      let e_dup :=
        err_if (dup && bool_decide ((dimension, period_key) ∈ seen))
               (u "duplicate report key detected for dimension+period: "
                  ++ dimension ++ u "+" ++ period_key) in
      let seen' :=
        if dup && negb (bool_decide ((dimension, period_key) ∈ seen))
        then {[ (dimension, period_key) ]} ∪ seen else seen in
      let conversations_analyzed := get r (u "conversations_analyzed") in
      let e_conv :=
        err_if (negb (is_none conversations_analyzed) && negb (nonneg_int conversations_analyzed))
               (pre ++ u ".conversations_analyzed must be non-negative integer when present") in
      (e_keys ++ e_dim ++ e_layer ++ e_opt ++ e_dup ++ e_conv ++ detail_errors idx r, seen')
  | _ => ([pre ++ u " must be object"], seen)
  end.

Fixpoint reports_loop (period_id week : json) (idx : nat) (reports : list json)
    (seen : gset (pystr * pystr)) : list pystr :=
  match reports with
  | [] => []
  | item :: rest =>
      let '(e, seen') := report_errors period_id week idx item seen in
      e ++ reports_loop period_id week (S idx) rest seen'
  end.

Definition coverage_errors (coverage : json) : list pystr :=
  match coverage with
  | JObj c =>
      concat (map (fun key =>
        err_if (negb (nonneg_int (get c key)))
               (u "coverage." ++ key ++ u " must be non-negative integer"))
        [u "sessions_total"; u "sessions_with_mechanism"])
      ++ match as_int (get c (u "sessions_total")), as_int (get c (u "sessions_with_mechanism")) with
         | Some sessions_total, Some with_mechanism =>
             err_if (sessions_total <? with_mechanism)
                    (u "coverage.sessions_with_mechanism cannot exceed coverage.sessions_total")
         | _, _ => []
         end
  | _ => [u "coverage must be object"]
  end.

Definition period_errors (period : json) : list pystr :=
  match period with
  | JNull => []
  | JObj p =>
      concat (map (fun key =>
        err_if (has_key p key && negb (nonblank_str (get p key)))
               (u "period." ++ key ++ u " must be non-empty string when present"))
        [u "since"; u "until"])
  | _ => [u "period must be object when present"]
  end.

Definition incremental_errors (payload : dict) : list pystr :=
  let e_schema :=
    err_if (negb (eq_str (get payload (u "schema_version")) _INCREMENTAL_SCHEMA))
           (u "schema_version must be '" ++ _INCREMENTAL_SCHEMA ++ u "'") in
  let period_id := get payload (u "period_id") in
  let week := get payload (u "week") in
  let e_id := err_if (negb (nonblank_str period_id) && negb (nonblank_str week))
                     (u "period_id or week must be provided") in
  let e_period := period_errors (get payload (u "period")) in
  let e_reports :=
    match get payload (u "reports") with
    | JList (r0 :: rs) => reports_loop period_id week 0%nat (r0 :: rs) ∅
    | _ => [u "reports must be non-empty list"]
    end in
  let e_coverage := coverage_errors (get payload (u "coverage")) in
  let what_happened := get payload (u "what_happened") in
  let e_what := err_if (negb (is_none what_happened) && negb (is_list what_happened))
                       (u "what_happened must be list when present") in
  e_schema ++ e_id ++ e_period ++ e_reports ++ e_coverage ++ e_what.

Definition validate_incremental_mechanism (payload : json) : result (list pystr) :=
  match payload with
  | JObj p => Ok (incremental_errors p)
  | _ => no_get_attribute
  end.

End Validator.

(** ** diagnose_helper.py: which sidecars need backfill *)

Module Backfill.
Import Py Json Dimensions Validator.

(** What [_read_json] makes of an existing file: it raises on text that is
    not JSON, or returns the decoded document. *)
Inductive file_content :=
  | NotJson
  | JsonDoc (j : json).

(** The session-sidecar directory, by file name, as [path.is_file()] and
    [_read_json(path)] see it. *)
Abbreviation sidecar_dir := (gmap pystr file_content).

Definition sidecar_name (session_id : pystr) : pystr := session_id ++ u ".json".

Definition _has_valid_evidence_item (item : dict) : bool :=
  let session_id := text_of (get item (u "session_id")) in
  let snippet := text_of (get item (u "snippet")) in
  let turn_id := get item (u "turn_id") in
  if bool_decide (session_id = []) || str_in (lower session_id) [u "n/a"; u "unknown"] then false
  else if negb (positive_int turn_id) then false
  else if bool_decide (snippet = []) || _contains_placeholder snippet then false
  else true.

(** [for x in value]: a list gives its items, a string its characters, a
    dict its keys; the other values are not iterable. *)
Definition py_iter (value : json) : result (list json) :=
  match value with
  | JList l => Ok l
  | JStr s => Ok (map (fun c => JStr [c]) s)
  | JObj d => Ok (map (fun kv => JStr (fst kv)) d)
  | _ => Raise (Exn TypeError (u "object is not iterable"))
  end.

(** One pass of the loop over [why_items]: does this item carry a usable
    hypothesis with a concrete evidence item? *)
Definition why_has_signal (why : json) : bool :=
  match why with
  | JObj w =>
      let hypothesis := text_of (get w (u "hypothesis")) in
      if bool_decide (hypothesis = []) || _contains_placeholder hypothesis then false
      else
        match py_or (get w (u "evidence")) (JList []) with
        | JList evidence =>
            existsb (fun item =>
                       match item with
                       | JObj e => _has_valid_evidence_item e
                       | _ => false
                       end) evidence
        | _ => false
        end
  | _ => false
  end.

Definition _session_has_mechanism_signal (session : dict) : result bool :=
  match _generated_by_block_reason (get session (u "generated_by")) with
  | Some _ => Ok false
  | None =>
      let summary := py_str (py_or (get session (u "summary")) (JStr [])) in
      if _contains_placeholder summary then Ok false
      else
        why_items ← py_iter (py_or (get session (u "why")) (JList []));
        Ok (existsb why_has_signal why_items)
  end.

Definition _session_needs_backfill (sidecars : sidecar_dir) (session_id : pystr)
    (force_refresh : bool) : result bool :=
  if force_refresh then Ok true
  else
    match sidecars !! sidecar_name session_id with
    | None => Ok true
    | Some NotJson => Ok true
    | Some (JsonDoc payload) =>
        errors ← validate_session_mechanism payload;
        if negb (bool_decide (errors = [])) then Ok true
        else
          match payload with
          | JObj session =>
              signal ← _session_has_mechanism_signal session;
              Ok (negb signal)
          | _ => no_get_attribute
          end
    end.

(** The selection loop of [cmd_backfill] over the loaded conversations. *)
Fixpoint backfill_targets (sidecars : sidecar_dir) (force_refresh : bool)
    (conversations : list dict) : result (list dict) :=
  match conversations with
  | [] => Ok []
  | conv :: rest =>
      let session_id := text_of (get conv (u "session_id")) in
      if bool_decide (session_id = []) then backfill_targets sidecars force_refresh rest
      else
        need ← _session_needs_backfill sidecars session_id force_refresh;
        targets ← backfill_targets sidecars force_refresh rest;
        Ok (if (need : bool) then conv :: targets else targets)
  end.

(** The reading of the claim's words: a hypothesis that is no placeholder
    and has an evidence item with a concrete session id, a turn id of at
    least 1 and a snippet that is no placeholder. *)
Definition concrete_evidence (item : json) : bool :=
  match item with
  | JObj e =>
      let sid := text_of (get e (u "session_id")) in
      let snippet := text_of (get e (u "snippet")) in
      negb (bool_decide (sid = [])) && negb (str_in (lower sid) [u "n/a"; u "unknown"])
      && match as_int (get e (u "turn_id")) with Some z => 1 <=? z | None => false end
      && negb (_contains_placeholder snippet)
  | _ => false
  end.

Definition grounded_hypothesis (why : json) : bool :=
  match why with
  | JObj w =>
      negb (_contains_placeholder (text_of (get w (u "hypothesis"))))
      && match get w (u "evidence") with
         | JList evidence => existsb concrete_evidence evidence
         | _ => false
         end
  | _ => false
  end.

Definition has_grounded_hypothesis (payload : json) : bool :=
  match payload with
  | JObj p =>
      match get p (u "why") with
      | JList whys => existsb grounded_hypothesis whys
      | _ => false
      end
  | _ => false
  end.

Definition placeholder_summary (payload : json) : bool :=
  match payload with
  | JObj p => _contains_placeholder (py_str (py_or (get p (u "summary")) (JStr [])))
  | _ => false
  end.

Definition fails_validator (payload : json) : Prop :=
  exists errors, validate_session_mechanism payload = Ok errors /\ errors <> [].

Definition passes_validator (payload : json) : Prop :=
  validate_session_mechanism payload = Ok [].

(** The selection as the claim words it: forced, or the sidecar is
    missing, is no JSON, fails the validator, or is valid but lacks a
    grounded hypothesis. *)
Definition claimed_selection (sidecars : sidecar_dir) (session_id : pystr)
    (force_refresh : bool) : Prop :=
  force_refresh = true
  \/ match sidecars !! sidecar_name session_id with
     | None => True
     | Some NotJson => True
     | Some (JsonDoc payload) =>
         fails_validator payload
         \/ (passes_validator payload /\ has_grounded_hypothesis payload = false)
     end.

(** The selection of the code: a valid sidecar is also selected when its
    summary is a placeholder. *)
Definition selection_criterion (sidecars : sidecar_dir) (session_id : pystr)
    (force_refresh : bool) : Prop :=
  force_refresh = true
  \/ match sidecars !! sidecar_name session_id with
     | None => True
     | Some NotJson => True
     | Some (JsonDoc payload) =>
         fails_validator payload
         \/ (passes_validator payload
             /\ (placeholder_summary payload = true
                 \/ has_grounded_hypothesis payload = false))
     end.

(** The conversations that carry a session id. *)
Definition with_session_id (conversations : list dict) : list dict :=
  filter (fun conv => text_of (get conv (u "session_id")) <> []) conversations.

End Backfill.

(** ** Files *)

Module Store.
Import Py Json.

(** A path, by its components below the skill root. *)
Definition path := list pystr.

(** [dir / name] *)
Definition path_join (dir : path) (name : pystr) : path := dir ++ [name].

(** [p.parent] *)
Definition parent (p : path) : path := removelast p.

Definition _INSIGHTS_SESSION_DIR : path := [u "data"; u "insights"; u "session"].
Definition _INSIGHTS_INCREMENTAL_DIR : path := [u "data"; u "insights"; u "incremental"].
Definition _SKILL_JOBS_DIR : path := [u "output"; u "skill_jobs"].

(** The calls that change the file system. *)
Inductive fs_op :=
  | OpMkdir (dir : path)
  | OpWriteText (target : path) (text : pystr)
  | OpRename (src dst : path).

(** The text files, and the calls made so far, oldest first. *)
Record fs_state := FsState {
  files : gmap path pystr;
  trace : list fs_op;
}.

(** [p.is_file()] *)
Definition is_file (st : fs_state) (p : path) : bool := bool_decide (is_Some (files st !! p)).

(** [p.parent.mkdir(parents=True, exist_ok=True)] *)
Definition mkdir (dir : path) (st : fs_state) : fs_state :=
  {| files := files st; trace := trace st ++ [OpMkdir dir] |}.

(** [p.write_text(text, encoding="utf-8")]: the file is opened at [p] and
    rewritten in place. *)
Definition write_text (p : path) (text : pystr) (st : fs_state) : fs_state :=
  {| files := <[p := text]> (files st); trace := trace st ++ [OpWriteText p text] |}.

(** [_ensure_dirs()] *)
Definition _ensure_dirs (st : fs_state) : fs_state :=
  mkdir _SKILL_JOBS_DIR (mkdir _INSIGHTS_INCREMENTAL_DIR (mkdir _INSIGHTS_SESSION_DIR st)).

Section Dumps.
(** [json.dumps(payload, ensure_ascii=False, indent=2, sort_keys=True)] *)
Context (json_dumps : json -> pystr).

Definition _write_json (p : path) (payload : json) (st : fs_state) : fs_state :=
  write_text p (json_dumps payload) (mkdir (parent p) st).

End Dumps.

(** A rendering used to run the examples: [repr] of the document. *)
Definition dumps_repr (payload : json) : pystr := py_repr payload.

End Store.

(** ** diagnose_helper.py: applying the session results *)

Module Apply.
Import Py Json Validator Backfill Store.

Definition _normalize_session_payload (raw : json) : list dict :=
  let dicts := omap (fun item => match item with JObj d => Some d | _ => None end) in
  match raw with
  | JList l => dicts l
  | JObj d =>
      match get d (u "sessions") with
      | JList l => dicts l
      | _ =>
          omap (fun kv =>
                  match snd kv with
                  | JObj value => Some (setdefault value (u "session_id") (JStr (fst kv)))
                  | _ => None
                  end) d
      end
  | _ => []
  end.

(** The [generated_by] block of a record that came without one. *)
Definition defaulted_generated_by (run_id now : pystr) : dict :=
  [ (u "engine", JStr (u "api"));
    (u "provider", JStr (u "api"));
    (u "model", JStr (u "skill"));
    (u "run_id", JStr run_id);
    (u "generated_at", JStr now) ].

(** [f"{iso_year}-W{iso_week:02d}"] *)
Definition week_label (iso_year : Z) (iso_week : nat) : pystr :=
  str_of_Z iso_year ++ u "-W" ++ str_of_nat_02 iso_week.

(** A run id is acceptable when it is not blank and carries no blocked
    token, as [validate_session_mechanism] judges a [generated_by] block. *)
Definition acceptable_run_id (run_id : pystr) : Prop :=
  strip run_id <> []
  /\ _generated_by_block_reason (JObj [(u "run_id", JStr run_id)]) = None.

(** The record [prepare_record] builds from an item without [generated_by]. *)
Definition prepared (run_id now : pystr) (item : dict) (label : pystr) : dict :=
  let r3 := dict_set item (u "generated_by") (JObj (defaulted_generated_by run_id now)) in
  let r4 := if truthy (get item (u "week")) then r3 else dict_set r3 (u "week") (JStr label) in
  if truthy (get item (u "period_id")) then r4
  else dict_set r4 (u "period_id") (JStr (py_str (get r4 (u "week")))).

Section Clock.
(** [_to_dt(value).isocalendar()]: the ISO year and week of a timestamp;
    [datetime.fromisoformat] raises [ValueError] on text it cannot parse. *)
Context (isocalendar_of : pystr -> result (Z * nat)).
Context (json_dumps : json -> pystr).

Definition _week_from_timestamp (value : pystr) : result pystr :=
  '(iso_year, iso_week) ← isocalendar_of value;
  Ok (week_label iso_year iso_week).

(** The [generated_by] block after the five [setdefault] calls. *)
Definition default_generated_by (run_id now : pystr) (generated_by : dict) : dict :=
  let g := setdefault generated_by (u "engine") (JStr (u "api")) in
  let g := setdefault g (u "provider") (JStr (u "api")) in
  let g := setdefault g (u "model") (JStr (u "skill")) in
  let g := setdefault g (u "run_id") (JStr run_id) in
  setdefault g (u "generated_at") (JStr now).

(** The record that [_apply_session_results] validates, built from one
    item of the result payload; [now] is [_now_iso()]. *)
Definition prepare_record (run_id now : pystr) (item : dict) : result dict :=
  let record := setdefault item (u "schema_version") (JStr _SESSION_SCHEMA) in
  let record := setdefault record (u "generated_by") (JObj []) in
  let generated_by :=
    match get record (u "generated_by") with
    | JObj g => g
    | _ => []
    end in
  let record := dict_set record (u "generated_by")
                         (JObj (default_generated_by run_id now generated_by)) in
  record ←
    (if negb (truthy (get record (u "week"))) && is_str (get record (u "created_at")) then
       week ← _week_from_timestamp (py_str (get record (u "created_at")));
       Ok (dict_set record (u "week") (JStr week))
     else Ok record);
  Ok (if negb (truthy (get record (u "period_id"))) && truthy (get record (u "week"))
      then dict_set record (u "period_id") (JStr (py_str (get record (u "week"))))
      else record).

(** The validation loop: the valid records and the indices of the
    invalid ones; [now idx] is the time read while item [idx] is handled. *)
Fixpoint validate_items (run_id : pystr) (now : nat -> pystr) (index : nat)
    (items : list dict) : result (list dict * list nat) :=
  match items with
  | [] => Ok ([], [])
  | item :: rest =>
      record ← prepare_record run_id (now index) item;
      errors ← validate_session_mechanism (JObj record);
      '(valid, invalid) ← validate_items run_id now (S index) rest;
      Ok (if bool_decide (errors = []) then (record :: valid, invalid)
          else (valid, index :: invalid))
  end.

(** The write loop over the valid records. *)
Fixpoint write_records (records : list dict) (st : fs_state) : fs_state :=
  match records with
  | [] => st
  | record :: rest =>
      let session_id := py_str (get record (u "session_id")) in
      let out_path := path_join _INSIGHTS_SESSION_DIR (sidecar_name session_id) in
      let rendered := json_dumps (JObj record) in
      if bool_decide (files st !! out_path = Some rendered) then write_records rest st
      else write_records rest (write_text out_path rendered st)
  end.

(** [_apply_session_results]: the exit code and the files afterwards.
    [result_file] is the result file as read ([None]: no such file). The
    bookkeeping files of the run directory are left out of the state. *)
Definition _apply_session_results (run_id : pystr) (now : nat -> pystr)
    (result_file : option file_content) (allow_partial : bool) (st : fs_state)
  : result (Z * fs_state) :=
  let st := _ensure_dirs st in
  match result_file with
  | None => Ok (2, st)
  | Some NotJson => Ok (2, st)
  | Some (JsonDoc raw_payload) =>
      let items := _normalize_session_payload raw_payload in
      if bool_decide (items = []) then Ok (2, st)
      else
        '(valid_items, invalid) ← validate_items run_id now 0%nat items;
        if negb (bool_decide (invalid = [])) && negb allow_partial then Ok (1, st)
        else if bool_decide (valid_items = []) then Ok (1, st)
        else Ok (0, write_records valid_items st)
  end.

End Clock.

End Apply.

(** ** diagnose_helper.py: the [incremental] command *)

Module Incremental.
Import Py Json Dimensions Validator Backfill Store.

(** A calendar date is its proleptic Gregorian ordinal, as
    [date.toordinal()] counts: day 1 is 0001-01-01. *)
Definition MAX_ORDINAL : Z := 3652059.

(** Year, month and day of an ordinal. *)
Definition civil_of_ordinal (n : Z) : Z * Z * Z :=
  let z := n + 305 in
  let era := z / 146097 in
  let doe := z - era * 146097 in
  let yoe := (doe - doe / 1460 + doe / 36524 - doe / 146096) / 365 in
  let doy := doe - (365 * yoe + yoe / 4 - yoe / 100) in
  let mp := (5 * doy + 2) / 153 in
  let d := doy - (153 * mp + 2) / 5 + 1 in
  let m := if mp <? 10 then mp + 3 else mp - 9 in
  let y := yoe + era * 400 + (if m <=? 2 then 1 else 0) in
  (y, m, d).

Definition zero_pad (width : nat) (s : pystr) : pystr :=
  replicate (width - length s) 48%N ++ s.

(** [d.isoformat()] *)
Definition isoformat (n : Z) : pystr :=
  let '(y, m, d) := civil_of_ordinal n in
  zero_pad 4 (str_of_Z y) ++ u "-" ++ zero_pad 2 (str_of_Z m) ++ u "-" ++ zero_pad 2 (str_of_Z d).

Definition is_digit (c : N) : bool := ((48 <=? c) && (c <=? 57))%N.

(** [int(text)] for a text of ASCII digits. *)
Definition int_of_digits (s : pystr) : Z :=
  fold_left (fun acc c => 10 * acc + (Z.of_N c - 48)) s 0.

(** [re.fullmatch(r"(\d+)d", value)], on the ASCII digits: the digits. *)
Definition match_days (value : pystr) : option pystr :=
  match rev value with
  | c :: r =>
      let ds := rev r in
      if (c =? 100)%N && negb (bool_decide (ds = [])) && forallb is_digit ds
      then Some ds else None
  | [] => None
  end.

Definition value_error {A} (msg : string) : result A := Raise (Exn ValueError (u msg)).
Definition overflow_error {A} : result A :=
  Raise (Exn OverflowError (u "date value out of range")).

(** [_parse_window_to_since(window)] on the day [today]
    ([datetime.now(timezone.utc)]); [None] stands for no window. *)
Definition _parse_window_to_since (today : Z) (window : option pystr)
  : result (option pystr) :=
  let value := lower (strip (default [] window)) in
  if str_in value [[]; u "all"; u "all-time"] then Ok None
  else
    match match_days value with
    | None => value_error "window must be like '30d' or 'all-time'"
    | Some ds =>
        let days := int_of_digits ds in
        if days <=? 0 then value_error "window days must be positive"
        else if 999999999 <? days then overflow_error
        else if today - days <? 1 then overflow_error
        else Ok (Some (isoformat (today - days)))
    end.

(** Truth value of an optional string argument. *)
Definition given (a : option pystr) : bool :=
  match a with
  | Some s => negb (bool_decide (s = []))
  | None => false
  end.

Definition _build_period_id (since until window explicit_period_id : option pystr) : pystr :=
  if given explicit_period_id && negb (bool_decide (strip (default [] explicit_period_id) = []))
  then strip (default [] explicit_period_id)
  else if given since || given until then
    (if given since then default [] since else u "open") ++ u "_to_"
    ++ (if given until then default [] until else u "today")
  else if given window then u "rolling_" ++ default [] window
  else u "rolling_30d".

(** The parsed command line of [incremental]. *)
Record incremental_args := IncrementalArgs {
  arg_period_id : option pystr;
  arg_window : option pystr;
  arg_since : option pystr;
  arg_until : option pystr;
  arg_run_id : option pystr;
  arg_sync_report : bool;
  arg_dry_run : bool;
}.

(** The first lines of [cmd_incremental] and of [cmd_backfill]: the
    effective [since] and [until]. A [ValueError] is reported with exit
    code 2 by the caller. *)
Definition resolve_window (today : Z) (since until window : option pystr)
  : result (option pystr * option pystr) :=
  if negb (given since) && negb (given until) && given window then
    parsed_since ← _parse_window_to_since today window;
    Ok (match parsed_since with
        | Some s => (Some s, Some (isoformat today))
        | None => (None, until)
        end)
  else Ok (since, until).

(** The period id [cmd_incremental] computes. *)
Definition incremental_period_id (args : incremental_args) (since until : option pystr)
  : pystr :=
  if given (arg_period_id args) then default [] (arg_period_id args)
  else _build_period_id since until (arg_window args) None.

Definition sidecar_path (period_id : pystr) : path :=
  path_join _INSIGHTS_INCREMENTAL_DIR (period_id ++ u ".json").

Definition _coerce_incremental_payload (raw : json) : dict :=
  match raw with
  | JObj d =>
      if eq_str (get d (u "schema_version")) _INCREMENTAL_SCHEMA then d
      else match get d (u "incremental") with
           | JObj inner => inner
           | _ => []
           end
  | _ => []
  end.

(** Where the payload comes from: with [--result-file], the file given
    ([None]: no such file); without it, the skill runtime, with its exit
    code and the result file it names. The files the runtime writes in the
    jobs directory are outside the modelled state. *)
Inductive payload_source :=
  | FromResultFile (f : option file_content)
  | FromRuntime (runtime_rc : Z) (generated : option (option file_content)).

Definition read_json (f : file_content) : result json :=
  match f with
  | JsonDoc j => Ok j
  | NotJson => Raise (Exn ValueError (u "Expecting value"))
  end.

(** Either the command ends with an exit code, or it goes on with a payload. *)
Inductive step (A : Type) :=
  | Exit (rc : Z)
  | Continue (a : A).
Arguments Exit {A} rc.
Arguments Continue {A} a.

Definition acquire_payload (args : incremental_args) (src : payload_source)
  : result (step dict) :=
  match src with
  | FromResultFile None => Ok (Exit 2)
  | FromResultFile (Some f) =>
      raw ← read_json f;
      let payload := _coerce_incremental_payload raw in
      if bool_decide (payload = []) then Ok (Exit 2)
      else
        let payload_period := py_or (get payload (u "period_id")) (get payload (u "week")) in
        if given (arg_period_id args)
           && negb (eq_str payload_period (default [] (arg_period_id args)))
        then Ok (Exit 2)
        else Ok (Continue payload)
  | FromRuntime runtime_rc generated =>
      if negb (runtime_rc =? 0) then Ok (Exit runtime_rc)
      else
        match generated with
        | None => Ok (Exit (if arg_dry_run args then 0 else 2))
        | Some None => Ok (Exit 2)
        | Some (Some f) =>
            raw ← read_json f;
            let payload := _coerce_incremental_payload raw in
            if bool_decide (payload = []) then Ok (Exit 2) else Ok (Continue payload)
        end
  end.

(** The envelope fields [cmd_incremental] fills in before validation. *)
Definition fill_envelope (period_id run_id now : pystr) (since until : option pystr)
    (sessions_total with_mechanism : nat) (payload : dict) : dict :=
  let p := setdefault payload (u "schema_version") (JStr _INCREMENTAL_SCHEMA) in
  let p := setdefault p (u "period_id") (JStr period_id) in
  let p := setdefault p (u "week") (JStr (py_str (py_or (get p (u "period_id")) (JStr period_id)))) in
  let p := setdefault p (u "source_run_id") (JStr run_id) in
  let p := setdefault p (u "generated_at") (JStr now) in
  let period := match get p (u "period") with JObj d => d | _ => [] end in
  let period :=
    if given since && negb (truthy (get period (u "since")))
    then dict_set period (u "since") (JStr (default [] since)) else period in
  let period :=
    if given until && negb (truthy (get period (u "until")))
    then dict_set period (u "until") (JStr (default [] until)) else period in
  let p := dict_set p (u "period") (JObj period) in
  let coverage := match get p (u "coverage") with JObj d => d | _ => [] end in
  let coverage := setdefault coverage (u "sessions_total") (JInt (Z.of_nat sessions_total)) in
  let coverage := setdefault coverage (u "sessions_with_mechanism") (JInt (Z.of_nat with_mechanism)) in
  let p := dict_set p (u "coverage") (JObj coverage) in
  match get p (u "reports") with
  | JList reports =>
      dict_set p (u "reports")
        (JList (map JObj (sort_reports
           (omap (fun item => match item with JObj d => Some d | _ => None end) reports))))
  | _ => p
  end.

(** The write protocol of the claim, seen from the calls made: with a
    temp file and a rename, or with the write skipped, the sidecar path
    itself is never the target of a write. *)
Definition never_written_directly (calls : list fs_op) (target : path) : Prop :=
  forall text, OpWriteText target text ∉ calls.

Definition no_rename (calls : list fs_op) : Prop :=
  forall src dst, OpRename src dst ∉ calls.

(** [incremental --window <window>]: no other option given. *)
Definition window_only (window : string) : incremental_args :=
  {| arg_period_id := None; arg_window := Some (u window); arg_since := None;
     arg_until := None; arg_run_id := None; arg_sync_report := false;
     arg_dry_run := false |}.

Section Command.
Context (json_dumps : json -> pystr).
(** [sync_reports_from_incremental(payload, dry_run)], for its exit code. *)
Context (sync_reports_from_incremental : dict -> bool -> Z).

(** [cmd_incremental] on the day [today], at the time [now], with
    [sessions_total] conversations and [with_mechanism] valid sidecars in
    the period. *)
Definition cmd_incremental (today : Z) (now : pystr) (args : incremental_args)
    (sessions_total with_mechanism : nat) (src : payload_source) (st : fs_state)
  : result (Z * fs_state) :=
  let st := _ensure_dirs st in
  match resolve_window today (arg_since args) (arg_until args) (arg_window args) with
  | Raise (Exn ValueError _) => Ok (2, st)
  | Raise e => Raise e
  | Ok (since_arg, until_arg) =>
      let period_id := incremental_period_id args since_arg until_arg in
      let run_id :=
        if given (arg_run_id args) then default [] (arg_run_id args)
        else u "incremental-" ++ period_id in
      acquired ← acquire_payload args src;
      match acquired with
      | Exit rc => Ok (rc, st)
      | Continue payload =>
          let payload :=
            fill_envelope period_id run_id now since_arg until_arg
                          sessions_total with_mechanism payload in
          errors ← validate_incremental_mechanism (JObj payload);
          if negb (bool_decide (errors = [])) then Ok (1, st)
          else
            let out_path := sidecar_path period_id in
            let st := if arg_dry_run args then st
                      else _write_json json_dumps out_path (JObj payload) st in
            if arg_sync_report args
            then Ok (sync_reports_from_incremental payload (arg_dry_run args), st)
            else Ok (0, st)
      end
  end.

End Command.

End Incremental.

(** ** diagnose_helper.py: the session digest *)

Module Digest.
Import Py Json.

(** A turn of a unified conversation; [turn_id] is absent when the record
    has none. *)
Record turn := Turn {
  turn_id : option Z;
  user_content : pystr;
  assistant_content : pystr;
  tool_names : list pystr;
  corrections : nat;
}.

(** [int(turn.get("turn_id") or 0)] *)
Definition turn_id_or_0 (t : turn) : Z := default 0 (turn_id t).

(** [l[-n:]] *)
Definition last_slice {A} (n : nat) (l : list A) : list A :=
  if bool_decide (n = 0%nat) then l else drop (length l - n) l.

(** The deduplication loop over the selected turns. *)
Fixpoint dedupe_turns (selected : list turn) (seen_turn_ids : gset Z) : list turn :=
  match selected with
  | [] => []
  | t :: rest =>
      let tid := turn_id_or_0 t in
      if (0 <? tid) && bool_decide (tid ∈ seen_turn_ids) then dedupe_turns rest seen_turn_ids
      else t :: dedupe_turns rest (if 0 <? tid then {[ tid ]} ∪ seen_turn_ids else seen_turn_ids)
  end.

Definition _select_timeline_turns (turns : list turn) (max_turns : nat) : list turn :=
  if (length turns <=? max_turns)%nat then turns
  else
    let head := (max_turns / 2)%nat in
    let tail := (max_turns - head)%nat in
    let selected := take head turns ++ last_slice tail turns in
    dedupe_turns selected ∅.

(** [text.split()]: the maximal runs of characters that are not spaces. *)
Fixpoint split_ws (s : pystr) (cur : pystr) : list pystr :=
  match s with
  | [] => if bool_decide (cur = []) then [] else [cur]
  | c :: r =>
      if is_space c then
        (if bool_decide (cur = []) then split_ws r [] else cur :: split_ws r [])
      else split_ws r (cur ++ [c])
  end.

Definition _turn_snippet (text : pystr) (limit : nat) : pystr :=
  take limit (join (u " ") (split_ws text [])).

Record timeline_item := TimelineItem {
  item_turn_id : Z;
  user_snippet : pystr;
  assistant_snippet : pystr;
  correction_count : nat;
  tools : list pystr;
}.

(** One item of the timeline; [idx] counts the selected turns from 1. *)
Definition timeline_item_of (idx : nat) (t : turn) : timeline_item :=
  {| item_turn_id :=
       match turn_id t with
       | Some z => if z =? 0 then Z.of_nat idx else z
       | None => Z.of_nat idx
       end;
     user_snippet := _turn_snippet (user_content t) 140;
     assistant_snippet := _turn_snippet (assistant_content t) 120;
     correction_count := corrections t;
     tools := filter (fun name => name <> []) (tool_names t) |}.

(** The [timeline] of [build_session_digest]. *)
Definition digest_timeline (turns : list turn) : list timeline_item :=
  imap (fun i t => timeline_item_of (S i) t) (_select_timeline_turns turns 12).

(** The reading of the specification's words, "deduplicate by [turn_id],
    keeping the first occurrence": a turn is dropped when its [turn_id]
    already occurs among the turns before it; [identifies] tells which
    values of [turn_id] count as an identity. *)
Definition keep_first_occurrence (identifies : Z -> bool) (l : list turn) : list turn :=
  omap id
    (imap (fun i t =>
             if identifies (turn_id_or_0 t)
                && bool_decide (turn_id_or_0 t ∈ (turn_id_or_0 <$> take i l))
             then None else Some t) l).

(** Every [turn_id] identifies its turn. *)
Definition dedupe_by_turn_id (l : list turn) : list turn :=
  keep_first_occurrence (fun _ => true) l.

(** Only a positive [turn_id] identifies its turn. *)
Definition dedupe_by_positive_turn_id (l : list turn) : list turn :=
  keep_first_occurrence (fun z => 0 <? z) l.

(** The positive [turn_id]s of the turns looked at so far. *)
Definition seen_of (pre : list turn) : gset Z :=
  list_to_set (filter (fun z => 0 < z) (turn_id_or_0 <$> pre)).

(** [keep_first_occurrence] on the turns [rest] that follow [pre]. *)
Definition keep_after (identifies : Z -> bool) (pre rest : list turn) : list turn :=
  omap id
    (imap (fun i t =>
             if identifies (turn_id_or_0 t)
                && bool_decide (turn_id_or_0 t ∈ (turn_id_or_0 <$> (pre ++ take i rest)))
             then None else Some t) rest).

End Digest.

(** ** skill_runtime.py: retries and chunking *)

Module Runtime.
Import Py Json Store.

Inductive provider := claude_cli | codex_cli | openai | anthropic.

Definition _INCREMENTAL_CHUNK_SIZE : nat := 24.

Definition _is_retryable_claude_error (exc : exn) : bool :=
  let text := lower (exn_text exc) in
  contains (u "timed out") text
  || contains (u "failed rc=1") text
  || contains (u "no json object found") text.

Definition _is_retryable_codex_error (exc : exn) : bool :=
  let text := lower (exn_text exc) in
  contains (u "timed out") text
  || contains (u "failed rc=1") text
  || contains (u "no json object found") text
  || contains (u "rate limit") text.

(** The errors the code retries, by provider: the two retry functions
    have their own predicates, and the HTTP providers have no retry. *)
Definition retryable_for (p : provider) (exc : exn) : bool :=
  match p with
  | claude_cli => _is_retryable_claude_error exc
  | codex_cli => _is_retryable_codex_error exc
  | openai | anthropic => false
  end.

(** [min(2 ** attempt, 4)] *)
Definition backoff (attempt : nat) : Z := Z.min (2 ^ Z.of_nat attempt) 4.

(** A provider whose first call fails with a rate-limit error and whose
    later calls succeed; the world counts the calls. *)
Definition rate_limited_once (p : provider) (n : nat) : result json * nat :=
  match n with
  | O => (Raise (Exn RuntimeError (u "HTTP 429: Rate limit exceeded")), 1%nat)
  | S _ => (Ok (JObj []), S n)
  end.

Section Retries.
(** The world the provider lives in, and one call of the provider in it:
    [_claude_cli_infer_session], [_openai_infer_incremental] and the like. *)
Context {W A : Type}.
Context (call : provider -> W -> result A * W).

(** What one inference did: its outcome, the number of provider calls, the
    [time.sleep] arguments in order, and the world afterwards. *)
Record attempt_log := AttemptLog {
  outcome : result A;
  calls : nat;
  sleeps : list Z;
  world_after : W;
}.

(** The [while True] loop of the [_infer_*_with_retries] functions;
    [remaining] is [max_retries - attempt]. *)
Fixpoint retry_loop (p : provider) (retryable : exn -> bool)
    (remaining attempt : nat) (w : W) : attempt_log :=
  match call p w with
  | (Ok a, w') => AttemptLog (Ok a) 1 [] w'
  | (Raise exc, w') =>
      match remaining with
      | O => AttemptLog (Raise exc) 1 [] w'
      | S remaining' =>
          if negb (retryable exc) then AttemptLog (Raise exc) 1 [] w'
          else
            let pause := backoff attempt in
            let r := retry_loop p retryable remaining' (S attempt) w' in
            AttemptLog (outcome r) (S (calls r)) (pause :: sleeps r) (world_after r)
      end
  end.

Definition _infer_claude_with_retries (max_retries : nat) (w : W) : attempt_log :=
  retry_loop claude_cli _is_retryable_claude_error max_retries 0 w.

Definition _infer_codex_with_retries (max_retries : nat) (w : W) : attempt_log :=
  retry_loop codex_cli _is_retryable_codex_error max_retries 0 w.

(** [infer_remote]: the HTTP providers are called directly. *)
Definition infer_remote (p : provider) (w : W) : attempt_log :=
  let '(r, w') := call p w in AttemptLog r 1 [] w'.

(** The inference function [run_api] and [run_incremental_api] use for a
    provider ([infer_fn] and [infer_remote]; [_infer_once]); the retry
    functions are called with their default [max_retries = 2]. *)
Definition infer (p : provider) (w : W) : attempt_log :=
  match p with
  | claude_cli => _infer_claude_with_retries 2 w
  | codex_cli => _infer_codex_with_retries 2 w
  | openai | anthropic => infer_remote p w
  end.

(** The reading of the specification's words: every provider is wrapped
    in the same retry loop, with the four markers. *)
Definition spec_markers : list pystr :=
  [u "timed out"; u "failed rc=1"; u "no json object found"; u "rate limit"].

Definition spec_retryable (exc : exn) : bool :=
  contains_any spec_markers (lower (exn_text exc)).

Definition spec_infer (p : provider) (w : W) : attempt_log :=
  retry_loop p spec_retryable 2 0 w.

End Retries.

Arguments AttemptLog {W A} _ _ _ _.

Section Chunking.
Context {W : Type}.
(** [_infer_once(prompt_text, payload)] in the world [W]. *)
Context (infer_once : pystr -> dict -> W -> result json * W).
Context (json_dumps : json -> pystr).

Definition nl : pystr := [10%N].

Definition chunk_prompt_of (skill_prompt : pystr) : pystr :=
  skill_prompt ++ nl ++ nl
  ++ u "[分片执行约束]" ++ nl
  ++ u "- 当前输入仅代表全量会话中的一个分片。" ++ nl
  ++ u "- 只基于当前分片产出中间机制报告。" ++ nl
  ++ u "- 不要假设未出现的数据。".

Definition merge_prompt_of (skill_prompt : pystr) : pystr :=
  skill_prompt ++ nl ++ nl
  ++ u "[分片聚合约束]" ++ nl
  ++ u "- 当前输入包含 chunk_reports（分片中间结果）。" ++ nl
  ++ u "- 你必须基于 chunk_reports 做全局去重、合并和层级收敛。" ++ nl
  ++ u "- 最终输出仍必须是 IncrementalMechanismV1。".

(** [l[start:end]] *)
Definition slice {A} (l : list A) (start stop : nat) : list A :=
  take (stop - start) (drop start l).

Definition _coerce_incremental_payload (raw : json) : dict :=
  match raw with
  | JObj d =>
      if eq_str (get d (u "schema_version")) (u "incremental-mechanism.v1") then d
      else match get d (u "incremental") with
           | JObj inner => inner
           | _ => []
           end
  | _ => []
  end.

Definition session_items_of (incremental_input : dict) : list dict :=
  match get incremental_input (u "sessions") with
  | JList sessions => omap (fun item => match item with JObj d => Some d | _ => None end) sessions
  | _ => []
  end.

Definition total_chunks_of (n : nat) : nat :=
  ((n + _INCREMENTAL_CHUNK_SIZE - 1) / _INCREMENTAL_CHUNK_SIZE)%nat.

Definition chunk_session_items (session_items : list dict) (chunk_idx : nat) : list dict :=
  let start := (chunk_idx * _INCREMENTAL_CHUNK_SIZE)%nat in
  let stop := Nat.min (start + _INCREMENTAL_CHUNK_SIZE) (length session_items) in
  slice session_items start stop.

Definition chunk_input_of (incremental_input : dict) (items : list dict) : dict :=
  let chunk_input := dict_set incremental_input (u "sessions") (JList (map JObj items)) in
  let coverage := match get chunk_input (u "coverage") with JObj c => c | _ => [] end in
  let coverage := dict_set coverage (u "sessions_with_mechanism") (JInt (Z.of_nat (length items))) in
  dict_set chunk_input (u "coverage") (JObj coverage).

Definition chunk_file (run_dir : path) (chunk_idx total_chunks : nat) : path :=
  path_join run_dir
    (u "incremental_chunk_" ++ str_of_nat_02 (S chunk_idx) ++ u "_of_"
       ++ str_of_nat_02 total_chunks ++ u ".json").

Definition chunk_report_of (chunk_idx total_chunks : nat) (chunk_payload : dict) : json :=
  JObj [ (u "chunk_id", JStr (str_of_nat (S chunk_idx) ++ u "/" ++ str_of_nat total_chunks));
         (u "coverage", match get chunk_payload (u "coverage") with
                        | JObj c => JObj c
                        | _ => JObj []
                        end);
         (u "reports", match get chunk_payload (u "reports") with
                       | JList r => JList r
                       | _ => JList []
                       end) ].

(** The state of the chunk loop: the world, the files, the calls made
    (prompt and input, oldest first) and the chunk reports so far. *)
Record loop_state := LoopState {
  loop_world : W;
  loop_fs : fs_state;
  loop_calls : list (pystr * dict);
  chunk_reports : list json;
}.

(** [for chunk_idx in range(total_chunks)], from [chunk_idx] on, for
    [todo] more chunks. An exception ends the loop. *)
Fixpoint chunk_loop (run_dir : path) (skill_prompt : pystr) (incremental_input : dict)
    (session_items : list dict) (total_chunks : nat)
    (todo chunk_idx : nat) (s : loop_state) : result unit * loop_state :=
  match todo with
  | O => (Ok (), s)
  | S todo' =>
      let items := chunk_session_items session_items chunk_idx in
      let chunk_input := chunk_input_of incremental_input items in
      let prompt := chunk_prompt_of skill_prompt in
      let '(raw_chunk, w') := infer_once prompt chunk_input (loop_world s) in
      let calls' := loop_calls s ++ [(prompt, chunk_input)] in
      match raw_chunk with
      | Raise exc => (Raise exc, LoopState w' (loop_fs s) calls' (chunk_reports s))
      | Ok raw =>
          let chunk_payload := _coerce_incremental_payload raw in
          if bool_decide (chunk_payload = []) then
            (Raise (Exn RuntimeError
                      (u "chunk " ++ str_of_nat (S chunk_idx) ++ u "/" ++ str_of_nat total_chunks
                         ++ u " returned empty payload")),
             LoopState w' (loop_fs s) calls' (chunk_reports s))
          else
            let fs' := _write_json json_dumps (chunk_file run_dir chunk_idx total_chunks)
                                   (JObj chunk_payload) (loop_fs s) in
            chunk_loop run_dir skill_prompt incremental_input session_items total_chunks
              todo' (S chunk_idx)
              (LoopState w' fs' calls'
                 (chunk_reports s ++ [chunk_report_of chunk_idx total_chunks chunk_payload]))
      end
  end.

Definition merge_input_of (incremental_input : dict) (reports : list json) : dict :=
  dict_set (dict_set incremental_input (u "sessions") (JList [])) (u "chunk_reports") (JList reports).

(** What the inference part of [run_incremental_api] did. *)
Record incremental_run := IncrementalRun {
  run_rc : Z;
  run_result_path : option path;
  run_calls : list (pystr * dict);
  run_fs : fs_state;
  run_world : W;
}.

Definition result_file_of (run_dir : path) (p : pystr) : path :=
  path_join run_dir (u "incremental_api_" ++ p ++ u "_result.json").

(** [run_incremental_api] after the preview is written and the dry run has
    returned: inference, chunked when there are more than
    [_INCREMENTAL_CHUNK_SIZE] sessions, and the result file.
    [provider_name] is the provider as the command line names it. *)
Definition run_incremental_inference (run_dir : path) (provider_name skill_prompt : pystr)
    (incremental_input : dict) (w : W) (fs : fs_state) : incremental_run :=
  let session_items := session_items_of incremental_input in
  let use_chunking := (_INCREMENTAL_CHUNK_SIZE <? length session_items)%nat in
  let finish (r : result json) (calls : list (pystr * dict)) (fs : fs_state) (w : W) :=
    match r with
    | Raise _ => IncrementalRun 1 None calls fs w
    | Ok result_payload =>
        let result_path := result_file_of run_dir provider_name in
        let doc := if is_dict result_payload then result_payload
                   else JObj [(u "incremental", result_payload)] in
        IncrementalRun 0 (Some result_path) calls (_write_json json_dumps result_path doc fs) w
    end in
  if negb use_chunking then
    let '(r, w') := infer_once skill_prompt incremental_input w in
    finish r [(skill_prompt, incremental_input)] fs w'
  else
    let total_chunks := total_chunks_of (length session_items) in
    match chunk_loop run_dir skill_prompt incremental_input session_items total_chunks
                     total_chunks 0 (LoopState w fs [] []) with
    | (Raise exc, s) => finish (Raise exc) (loop_calls s) (loop_fs s) (loop_world s)
    | (Ok _, s) =>
        let merge_input := merge_input_of incremental_input (chunk_reports s) in
        let merge_prompt := merge_prompt_of skill_prompt in
        let '(r, w') := infer_once merge_prompt merge_input (loop_world s) in
        finish r (loop_calls s ++ [(merge_prompt, merge_input)]) (loop_fs s) w'
    end.

(** The call made for chunk [chunk_idx], and the aggregation call. *)
Definition chunk_call (skill_prompt : pystr) (incremental_input : dict) (chunk_idx : nat)
  : pystr * dict :=
  (chunk_prompt_of skill_prompt,
   chunk_input_of incremental_input
     (chunk_session_items (session_items_of incremental_input) chunk_idx)).

Definition merge_call (skill_prompt : pystr) (incremental_input : dict) (reports : list json)
  : pystr * dict :=
  (merge_prompt_of skill_prompt, merge_input_of incremental_input reports).

(** The files written, in order. *)
Definition write_targets (calls : list fs_op) : list path :=
  omap (fun op => match op with OpWriteText target _ => Some target | _ => None end) calls.

End Chunking.

(** A provider that answers every call with the same valid payload. *)
Definition steady_provider (answer : json) (prompt : pystr) (payload : dict) (w : unit)
  : result json * unit := (Ok answer, w).

End Runtime.

(** ** _sync_analysis_reports_core.py: the report index and its duplicates *)

Module Sync.
Import Py Json.

(** [x.get(k)] on any value: only a dict has [get]. *)
Definition py_get (x : json) (k : pystr) : result json :=
  match x with
  | JObj d => Ok (get d k)
  | _ => Raise (Exn AttributeError (u "object has no attribute 'get'"))
  end.

(** [x.get(k, dflt)] *)
Definition py_get_or (x : json) (k : pystr) (dflt : json) : result json :=
  match x with
  | JObj d => Ok (get_or d k dflt)
  | _ => Raise (Exn AttributeError (u "object has no attribute 'get'"))
  end.

(** [values[0]] for a truthy [values]. *)
Definition first_of (values : json) : result json :=
  match values with
  | JList (x :: _) => Ok x
  | JStr (c :: _) => Ok (JStr [c])
  | JObj _ => Raise (Exn KeyError (u "0"))
  | JList [] | JStr [] => Raise (Exn KeyError (u "0"))
  | _ => Raise (Exn TypeError (u "object is not subscriptable"))
  end.

(** [str(x.get('plain_text') or x.get('text', {}).get('content') or '').strip()] *)
Definition plain_text_of (x : json) : result pystr :=
  plain ← py_get x (u "plain_text");
  if truthy plain then Ok (text_of plain)
  else
    text ← py_get_or x (u "text") (JObj []);
    content ← py_get text (u "content");
    Ok (text_of content).

Definition _title_text (prop : json) : result pystr :=
  values ← py_get_or prop (u "title") (JList []);
  if negb (truthy values) then Ok []
  else
    first ← first_of values;
    plain_text_of first.

Definition _select_name (prop : json) : result pystr :=
  select ← py_get prop (u "select");
  name ← py_get (py_or select (JObj [])) (u "name");
  Ok (text_of name).

Fixpoint rich_text_parts (values : list json) : result (list pystr) :=
  match values with
  | [] => Ok []
  | JObj d :: rest =>
      text ← plain_text_of (JObj d);
      parts ← rich_text_parts rest;
      Ok (if bool_decide (text = []) then parts else text :: parts)
  | _ :: rest => rich_text_parts rest
  end.

Definition _rich_text_text (prop : json) : result pystr :=
  values ← py_get_or prop (u "rich_text") (JList []);
  match values with
  | JList l =>
      parts ← rich_text_parts l;
      Ok (strip (join (u " ") parts))
  | _ => Ok []
  end.

(** [re.search(r"[一-鿿]", text)] *)
Definition _contains_cjk (text : pystr) : bool :=
  existsb (fun c => (19968 <=? c) && (c <=? 40959))%N text.

Definition _page_sort_key (page : dict) : pystr :=
  py_str (py_or (py_or (get page (u "last_edited_time")) (get page (u "created_time"))) (JStr [])).

(** The natural key [(dimension, period)]. *)
Definition report_key := (pystr * pystr)%type.

(** The [item] built for an existing page. *)
Record page_item := PageItem {
  item_id : pystr;
  item_title : pystr;
  item_key_insights : pystr;
  item_sort_key : pystr;
  is_zh : bool;
}.

(** One pass of the loop over the queried pages: the page is skipped
    ([None]) or filed under its key. *)
Definition item_of_page (page : json) : result (option (report_key * page_item)) :=
  props ← py_get_or page (u "properties") (JObj []);
  dim_prop ← py_get_or props (u "Dimension") (JObj []);
  dimension ← _select_name dim_prop;
  period_prop ← py_get_or props (u "Period") (JObj []);
  period ← _select_name period_prop;
  if bool_decide (dimension = []) || bool_decide (period = []) then Ok None
  else
    title_prop ← py_get_or props (u "Title") (JObj []);
    title ← _title_text title_prop;
    insights_prop ← py_get_or props (u "Key Insights") (JObj []);
    insights ← _rich_text_text insights_prop;
    id ← py_get page (u "id");
    sort_key ← (match page with
                | JObj p => Ok (_page_sort_key p)
                | _ => Raise (Exn AttributeError (u "object has no attribute 'get'"))
                end);
    let item := {| item_id := text_of id; item_title := title; item_key_insights := insights;
                   item_sort_key := sort_key;
                   is_zh := _contains_cjk title || _contains_cjk insights |} in
    if bool_decide (item_id item = []) then Ok None
    else Ok (Some ((dimension, period), item)).

(** [grouped.setdefault(key, []).append(item)]; the groups stay in the
    order in which their keys first appear. *)
Fixpoint group_add (grouped : list (report_key * list page_item)) (key : report_key)
    (item : page_item) : list (report_key * list page_item) :=
  match grouped with
  | [] => [(key, [item])]
  | (k, items) :: rest =>
      if bool_decide (k = key) then (k, items ++ [item]) :: rest
      else (k, items) :: group_add rest key item
  end.

Fixpoint group_pages (pages : list json) (grouped : list (report_key * list page_item))
  : result (list (report_key * list page_item)) :=
  match pages with
  | [] => Ok grouped
  | page :: rest =>
      filed ← item_of_page page;
      match filed with
      | Some (key, item) => group_pages rest (group_add grouped key item)
      | None => group_pages rest grouped
      end
  end.

(** [pool]: the pages with CJK text when there are some, else all. *)
Definition pool_of (items : list page_item) : list page_item :=
  let zh_items := filter (fun item => is_zh item = true) items in
  if bool_decide (zh_items = []) then items else zh_items.

(** [sorted(pool, key=sort_key, reverse=True)]: descending and stable. *)
Definition sorted_desc (pool : list page_item) : list page_item :=
  py_sorted item_sort_key (fun a b => str_leb b a) pool.

(** [sorted(pool, ...)[0]] *)
Definition keeper_of (items : list page_item) : option page_item :=
  head (sorted_desc (pool_of items)).

(** A duplicate to archive. *)
Record duplicate := Duplicate {
  dup_page_id : pystr;
  dup_key : pystr;
  dup_title : pystr;
  dup_reason : pystr;
}.

Definition duplicates_of (key : report_key) (keeper : page_item) (items : list page_item)
  : list duplicate :=
  omap (fun item =>
          if negb (bool_decide (item_id item = [])) && negb (bool_decide (item_id item = item_id keeper))
          then Some {| dup_page_id := item_id item;
                       dup_key := fst key ++ u "|" ++ snd key;
                       dup_title := item_title item;
                       dup_reason := u "duplicate_key" |}
          else None) items.

(** The loop over [grouped.items()]. *)
Fixpoint index_groups (grouped : list (report_key * list page_item))
  : list (report_key * pystr) * list duplicate :=
  match grouped with
  | [] => ([], [])
  | (key, items) :: rest =>
      let '(index, duplicates) := index_groups rest in
      match keeper_of items with
      | Some keeper => ((key, item_id keeper) :: index, duplicates_of key keeper items ++ duplicates)
      | None => (index, duplicates)
      end
  end.

(** [_build_report_index_and_duplicates], on the pages
    [client.query_database(db_id)] returned. *)
Definition _build_report_index_and_duplicates (pages : list json)
  : result (list (report_key * pystr) * list duplicate) :=
  grouped ← group_pages pages [];
  Ok (index_groups grouped).

(** A CJK character: U+4E00 to U+9FFF. *)
Definition is_cjk (c : N) : Prop := (19968 <= c <= 40959)%N.

(** A page has CJK text when its title or its key insights hold a CJK
    character. *)
Definition has_cjk_text (item : page_item) : Prop :=
  exists c, c ∈ item_title item ++ item_key_insights item /\ is_cjk c.

(** What holds of every item [item_of_page] files. *)
Definition filed_item (item : page_item) : Prop :=
  item_id item <> []
  /\ is_zh item = _contains_cjk (item_title item) || _contains_cjk (item_key_insights item).

(** [a] is edited no later than [b]: their sort keys compare as strings. *)
Definition no_later (a b : page_item) : Prop :=
  str_leb (item_sort_key a) (item_sort_key b) = true.

Section Client.
(** The external database: the world [W] and the client calls that change
    it. [update_page] stands for the update, the clearing of the body and
    the appending of the new blocks; [create_page] returns the new id. *)
Context {W : Type}.
Context (archive_page : pystr -> W -> result unit * W).
Context (update_page : pystr -> dict -> W -> result unit * W).
Context (create_page : dict -> W -> result pystr * W).

(** A call of the client, with whether it went through. *)
Inductive client_call :=
  | Archived (page_id : pystr) (ok : bool)
  | Updated (page_id : pystr) (ok : bool)
  | Created (key : report_key) (ok : bool).

Definition succeeded {A} (r : result A) : bool :=
  match r with Ok _ => true | Raise _ => false end.

(** [_archive_duplicate_pages]: the counts [archived] and [failed]. *)
Fixpoint _archive_duplicate_pages (duplicates : list duplicate) (w : W)
  : nat * nat * list client_call * W :=
  match duplicates with
  | [] => (0%nat, 0%nat, [], w)
  | item :: rest =>
      let page_id := strip (dup_page_id item) in
      if bool_decide (page_id = []) then _archive_duplicate_pages rest w
      else
        let '(r, w') := archive_page page_id w in
        let '(archived, failed, log, w'') := _archive_duplicate_pages rest w' in
        if succeeded r then (S archived, failed, Archived page_id true :: log, w'')
        else (archived, S failed, Archived page_id false :: log, w'')
  end.

(** [existing_index.get(key)] *)
Fixpoint index_get (index : list (report_key * pystr)) (key : report_key) : option pystr :=
  match index with
  | [] => None
  | (k, page_id) :: rest => if bool_decide (k = key) then Some page_id else index_get rest key
  end.

Definition _report_key (report : dict) : report_key :=
  (text_of (get report (u "dimension")), text_of (get report (u "period"))).

(** [_write_report(client, db_id, report, dry_run=False, existing_index)]:
    whether it succeeded, and the index afterwards. *)
Definition _write_report (report : dict) (existing_index : list (report_key * pystr)) (w : W)
  : bool * list (report_key * pystr) * list client_call * W :=
  let key := _report_key report in
  match index_get existing_index key with
  | Some existing_page_id =>
      let '(r, w') := update_page existing_page_id report w in
      (succeeded r, existing_index, [Updated existing_page_id (succeeded r)], w')
  | None =>
      let '(r, w') := create_page report w in
      match r with
      | Ok created_id =>
          let page_id := strip created_id in
          (true,
           if bool_decide (page_id = []) then existing_index else existing_index ++ [(key, page_id)],
           [Created key true], w')
      | Raise _ => (false, existing_index, [Created key false], w')
      end
  end.

Fixpoint write_reports (reports : list dict) (existing_index : list (report_key * pystr)) (w : W)
  : nat * list client_call * W :=
  match reports with
  | [] => (0%nat, [], w)
  | report :: rest =>
      let '(ok, index', log, w') := _write_report report existing_index w in
      let '(written, log', w'') := write_reports rest index' w' in
      ((if ok then S written else written), log ++ log', w'')
  end.

(** [sync_reports_from_incremental] once the client is loaded: the pages
    are queried, the duplicates archived, the reports written. Result:
    exit code, the client calls in order, the world. *)
Definition sync_with_client (pages : list json) (reports : list dict) (w : W)
  : result (Z * list client_call * W) :=
  '(existing_index, duplicates) ← _build_report_index_and_duplicates pages;
  let '(archived, failed, log, w) :=
    if bool_decide (duplicates = []) then (0%nat, 0%nat, [], w)
    else _archive_duplicate_pages duplicates w in
  if (0 <? failed)%nat then Ok (1, log, w)
  else
    let '(written, log', w') := write_reports reports existing_index w in
    Ok (if bool_decide (written = length reports) then 0 else 1, log ++ log', w').

End Client.

(** Every group has a page, and its pages were filed by [item_of_page]. *)
Definition groups_ok (grouped : list (report_key * list page_item)) : Prop :=
  Forall (fun g => snd g <> [] /\ Forall filed_item (snd g)) grouped.

(** The page ids [_archive_duplicate_pages] calls the client with. *)
Definition ids_to_archive (duplicates : list duplicate) : list pystr :=
  filter (fun page_id => page_id <> []) (map (fun d => strip (dup_page_id d)) duplicates).

Definition archived_id (c : client_call) : option pystr :=
  match c with Archived page_id _ => Some page_id | _ => None end.

Definition is_archive_call (c : client_call) : Prop :=
  match c with Archived _ _ => True | _ => False end.

Definition is_write_call (c : client_call) : Prop :=
  match c with Updated _ _ | Created _ _ => True | Archived _ _ => False end.

Definition failed_archive (c : client_call) : Prop :=
  match c with Archived _ false => True | _ => False end.

End Sync.

(** ** Example documents, after the fixtures of the test suite *)

Module Examples.
Import Py Json.

Definition str (s : string) : json := JStr (u s).

(** [_valid_session()] of tests/test_diagnose_contract.py *)
Definition valid_session_without (skipped : pystr) : dict :=
  filter (fun kv => fst kv <> skipped)
  [ (u "schema_version", str "session-mechanism.v1");
    (u "session_id", str "s-1");
    (u "created_at", str "2026-02-06T10:00:00+00:00");
    (u "week", str "2026-W06");
    (u "summary", str "summary");
    (u "what_happened", JList [str "fact"]);
    (u "why",
      JList [ JObj [ (u "hypothesis", str "hyp");
                     (u "confidence", JFloat (PyFloat true (u "0.7")));
                     (u "evidence",
                       JList [ JObj [ (u "session_id", str "s-1");
                                      (u "turn_id", JInt 1);
                                      (u "snippet", str "evidence text") ] ]) ] ]);
    (u "how_to_improve",
      JList [ JObj [ (u "trigger", str "trigger");
                     (u "action", str "action");
                     (u "expected_gain", str "gain");
                     (u "validation_window", str "next-7-days") ] ]);
    (u "labels", JList [str "scope"]);
    (u "generated_by",
      JObj [ (u "engine", str "api");
             (u "provider", str "claude_cli");
             (u "model", str "skill");
             (u "run_id", str "run-1");
             (u "generated_at", str "2026-02-06T10:00:00+00:00") ]) ].

Definition valid_session : dict := valid_session_without [].

(** The same session with an evidence [tier] that is a list. *)
Definition session_with_list_tier : dict :=
  dict_set valid_session (u "why")
    (JList [ JObj [ (u "hypothesis", str "hyp");
                    (u "evidence",
                      JList [ JObj [ (u "session_id", str "s-1");
                                     (u "turn_id", JInt 1);
                                     (u "snippet", str "evidence text");
                                     (u "tier", JList [str "primary"]) ] ]) ] ]).

(** A report of [_valid_incremental()], with its dimension and layer. *)
Definition report_with (dimension layer : string) : dict :=
  [ (u "dimension", str dimension);
    (u "layer", str layer);
    (u "title", str "增量根因假设 - rolling_30d");
    (u "key_insights", str "开场上下文不足导致澄清循环。");
    (u "detail_lines",
      JList [ str "现象：首轮任务边界不清，出现往返澄清。";
              str "改进：开场写目标、边界、完成标准。" ]);
    (u "conversations_analyzed", JInt 1);
    (u "period", str "rolling_30d");
    (u "date", str "2026-02-06") ].

Definition incremental_with (reports : list json) : dict :=
  [ (u "schema_version", str "incremental-mechanism.v1");
    (u "period_id", str "rolling_30d");
    (u "week", str "rolling_30d");
    (u "generated_at", str "2026-02-06T11:00:00+00:00");
    (u "source_run_id", str "run-1");
    (u "coverage", JObj [ (u "sessions_total", JInt 1);
                          (u "sessions_with_mechanism", JInt 1) ]);
    (u "reports", JList reports) ].

(** [_valid_incremental()] *)
Definition valid_incremental : dict :=
  incremental_with [JObj (report_with "incremental-root-causes" "L3")].

(** The payload of [test_validate_incremental_mechanism_rejects_layer_mismatch]. *)
Definition mismatched_report : dict := report_with "incremental-task-stratification" "L3".
Definition mismatched_incremental : dict := incremental_with [JObj mismatched_report].

(** A valid sidecar with a grounded hypothesis whose summary is a placeholder. *)
Definition session_with_tbd_summary : dict :=
  dict_set valid_session (u "summary") (str "TBD").

(** A result record that comes without [generated_by]. *)
Definition session_without_generated_by : dict := valid_session_without (u "generated_by").

Definition empty_fs : Store.fs_state := {| Store.files := ∅; Store.trace := [] |}.

(** The scenario of the specification: [incremental --window 30d
    --result-file path] on 2026-02-07, the file holding the valid
    incremental fixture; the renderer is [repr] and no report sync runs. *)
Definition day_2026_02_07 : Z := 739654.
Definition clock_2026_02_07 : pystr := u "2026-02-07T11:00:00+00:00".
Definition no_sync (payload : dict) (dry_run : bool) : Z := 0.

Definition run_window_30d (st : Store.fs_state) : result (Z * Store.fs_state) :=
  Incremental.cmd_incremental Store.dumps_repr no_sync day_2026_02_07 clock_2026_02_07
    (Incremental.window_only "30d") 1 1
    (Incremental.FromResultFile (Some (Backfill.JsonDoc (JObj valid_incremental)))) st.

(** Thirteen turns that carry no [turn_id]. *)
Definition untagged_turn (i : nat) : Digest.turn :=
  {| Digest.turn_id := None;
     Digest.user_content := u "question " ++ str_of_nat i;
     Digest.assistant_content := u "answer " ++ str_of_nat i;
     Digest.tool_names := [];
     Digest.corrections := 0 |}.

Definition thirteen_untagged_turns : list Digest.turn := map untagged_turn (seq 1 13).

(** Thirteen turns numbered from 1. *)
Definition numbered_turn (i : nat) : Digest.turn :=
  {| Digest.turn_id := Some (Z.of_nat i);
     Digest.user_content := u "question " ++ str_of_nat i;
     Digest.assistant_content := u "answer " ++ str_of_nat i;
     Digest.tool_names := [];
     Digest.corrections := 0 |}.

Definition thirteen_numbered_turns : list Digest.turn := map numbered_turn (seq 1 13).

(** An incremental input with [n] compact sessions. *)
Definition compact_session (i : nat) : json :=
  JObj [ (u "session_id", JStr (u "s-" ++ str_of_nat i));
         (u "created_at", str "2026-02-06T10:00:00+00:00") ].

Definition incremental_input_of (n : nat) : dict :=
  [ (u "schema_version", str "incremental-input.v1");
    (u "period_id", str "rolling_all-time");
    (u "coverage", JObj [ (u "sessions_total", JInt (Z.of_nat n));
                          (u "sessions_with_mechanism", JInt (Z.of_nat n)) ]);
    (u "sessions", JList (map compact_session (seq 1 n))) ].

(** The pages of [test_build_report_index_and_duplicates_prefers_chinese]. *)
Definition report_page (id edited title insights : string) : json :=
  JObj [ (u "id", str id);
         (u "last_edited_time", str edited);
         (u "properties",
           JObj [ (u "Dimension", JObj [(u "select", JObj [(u "name", str "incremental-root-causes")])]);
                  (u "Period", JObj [(u "select", JObj [(u "name", str "rolling_all-time")])]);
                  (u "Title", JObj [(u "title", JList [JObj [(u "plain_text", str title)]])]);
                  (u "Key Insights",
                    JObj [(u "rich_text", JList [JObj [(u "plain_text", str insights)]])]) ]) ].

Definition queried_pages : list json :=
  [ report_page "page-en" "2026-02-09T01:00:00.000Z"
                "Incremental Root Causes - rolling_all-time" "english only";
    report_page "page-zh" "2026-02-08T01:00:00.000Z"
                "增量根因假设 - rolling_all-time" "中文" ].

(** A client whose archive calls fail and whose other calls succeed; the
    world counts the calls. *)
Definition failing_archive (page_id : pystr) (w : nat) : result unit * nat :=
  (Raise (Exn RuntimeError (u "archive failed")), S w).
Definition working_archive (page_id : pystr) (w : nat) : result unit * nat := (Ok (), S w).
Definition working_update (page_id : pystr) (props : dict) (w : nat) : result unit * nat :=
  (Ok (), S w).
Definition working_create (props : dict) (w : nat) : result pystr * nat :=
  (Ok (u "page-new-" ++ str_of_nat w), S w).

(** The report of the valid incremental fixture, as the synchronizer
    writes it. *)
Definition root_causes_report : dict :=
  [ (u "dimension", str "incremental-root-causes");
    (u "layer", str "L3");
    (u "title", str "增量根因假设 - rolling_all-time");
    (u "period", str "rolling_all-time");
    (u "date", str "2026-02-09");
    (u "conversations_analyzed", JInt 1);
    (u "key_insights", str "开场上下文不足导致澄清循环。") ].

End Examples.

(** ** Strings: words *)

Module Text.
Import Py.

(** A text that begins and ends with a character that is no space. *)
Definition word_like (t : pystr) : bool :=
  match t, rev t with
  | c :: _, c' :: _ => negb (is_space c) && negb (is_space c')
  | _, _ => false
  end.

End Text.

(** ** diagnose_helper.py: what the validator accepts *)

Module Contract.
Import Py Json Dimensions Validator.

(** An evidence item the session validator has no error for. *)
Definition accepted_evidence (ev : json) : Prop :=
  exists e, ev = JObj e
    /\ nonblank_str (get e (u "session_id")) = true
    /\ positive_int (get e (u "turn_id")) = true
    /\ nonblank_str (get e (u "snippet")) = true
    /\ (get e (u "tier") = JNull
        \/ get e (u "tier") = JStr (u "primary")
        \/ get e (u "tier") = JStr (u "supporting")).

Definition accepted_why (w : json) : Prop :=
  exists wd ev0 evs, w = JObj wd
    /\ nonblank_str (get wd (u "hypothesis")) = true
    /\ get wd (u "evidence") = JList (ev0 :: evs)
    /\ Forall accepted_evidence (ev0 :: evs).

Definition accepted_action (a : json) : Prop :=
  exists ad, a = JObj ad
    /\ Forall (fun key => nonblank_str (get ad key) = true)
              [u "trigger"; u "action"; u "expected_gain"; u "validation_window"].

(** A report the incremental validator has no error for: its dimension is
    in the registry, with the layer the registry gives it. *)
Definition accepted_report (item : json) : Prop :=
  exists r, item = JObj r
    /\ DIMENSION_LAYER_MAP_get (report_dimension r) = Some (report_layer r)
    /\ nonblank_str (get r (u "title")) = true
    /\ nonblank_str (get r (u "key_insights")) = true.

(** [period_key] of the validator's loop: the period of the report, or of
    the payload. *)
Definition report_period_key (period_id week : json) (r : dict) : pystr :=
  text_of (py_or (get r (u "period")) (py_or period_id week)).

Definition duplicate_error (dimension period_key : pystr) : pystr :=
  u "duplicate report key detected for dimension+period: " ++ dimension ++ u "+" ++ period_key.

(** A [generated_by] block with a manual, mock or template origin. *)
Definition simulated (gb : dict) : Prop :=
  lower (text_of (get gb (u "engine"))) ∈ _DISALLOWED_GENERATED_BY_ENGINES
  \/ lower (text_of (get gb (u "provider"))) ∈ _DISALLOWED_GENERATED_BY_PROVIDERS
  \/ exists token, token ∈ _DISALLOWED_RUN_ID_TOKENS
                   /\ contains token (lower (text_of (get gb (u "run_id")))) = true.

End Contract.

(** ** diagnose_helper.py: the stored session records *)

Module Records.
Import Py Json Backfill Store.

(** [_INSIGHTS_SESSION_DIR / f"{session_id}.json"] for a record. *)
Definition record_path (record : dict) : path :=
  path_join _INSIGHTS_SESSION_DIR (sidecar_name (py_str (get record (u "session_id")))).

(** The three [mkdir] calls of [_ensure_dirs]. *)
Definition ensure_dirs_calls : list fs_op :=
  [OpMkdir _INSIGHTS_SESSION_DIR; OpMkdir _INSIGHTS_INCREMENTAL_DIR; OpMkdir _SKILL_JOBS_DIR].

End Records.

(** ** diagnose_helper.py: collapsed snippets *)

Module Snippets.
Import Py Digest.

(** A text in which white space is collapsed: every space character is
    U+0020 and follows a character that is no space, so the text does not
    begin with a space and has no two spaces in a row. [after_space]
    tells whether the text read so far ends with a space (or is empty). *)
Fixpoint collapsed_from (after_space : bool) (s : pystr) : bool :=
  match s with
  | [] => true
  | c :: r =>
      if is_space c then (c =? 32)%N && negb after_space && collapsed_from true r
      else collapsed_from false r
  end.

Definition collapsed (s : pystr) : bool := collapsed_from true s.

(** The positive [turn_id]s of a list of turns. *)
Definition positive_ids (l : list turn) : list Z :=
  filter (fun z => 0 < z) (turn_id_or_0 <$> l).

End Snippets.

(** ** skill_runtime.py: the coverage of a chunk input *)

Module Chunks.
Import Py Json Runtime.

(** [coverage.sessions_with_mechanism] of an input of the Skill. *)
Definition sessions_with_mechanism_of (input : dict) : option Z :=
  match get input (u "coverage") with
  | JObj coverage => as_int (get coverage (u "sessions_with_mechanism"))
  | _ => None
  end.

End Chunks.

(** ** diagnose_helper.py: the evidence of a hypothesis *)

Module Evidence.
Import Py Json Digest.

(** [" ".join(str(text or "").strip().split())[:limit]] *)
Definition _normalize_evidence_text (text : json) (limit : nat) : pystr :=
  take limit (join (u " ") (split_ws (strip (py_str (py_or text (JStr [])))) [])).

Section Lower.
(** [s.lower()], which the code uses to compare snippets. *)
Context (str_lower : pystr -> pystr).

(** The identity [(session_id, turn_id, snippet.lower())] of an evidence
    entry; an [int] and the [bool] equal to it give the same identity. *)
Definition _evidence_identity (item : dict) : option (pystr * Z * pystr) :=
  let session_id := text_of (get item (u "session_id")) in
  if bool_decide (session_id = []) then None
  else
    match as_int (get item (u "turn_id")) with
    | None => None
    | Some turn_id =>
        if turn_id <=? 0 then None
        else
          let snippet := _normalize_evidence_text (get item (u "snippet")) 240 in
          if bool_decide (snippet = []) then None
          else Some (session_id, turn_id, str_lower snippet)
    end.

(** The record [_dedupe_evidence] appends for an entry. *)
Definition evidence_record (entry : dict) : dict :=
  [ (u "session_id", JStr (text_of (get entry (u "session_id"))));
    (u "turn_id", get entry (u "turn_id"));
    (u "snippet", JStr (_normalize_evidence_text (get entry (u "snippet")) 240)) ].

(** The loop of [_dedupe_evidence]. *)
Fixpoint dedupe_loop (entries : list json) (seen : gset (pystr * Z * pystr)) : list dict :=
  match entries with
  | [] => []
  | JObj entry :: rest =>
      match _evidence_identity entry with
      | None => dedupe_loop rest seen
      | Some key =>
          if bool_decide (key ∈ seen) then dedupe_loop rest seen
          else evidence_record entry :: dedupe_loop rest ({[ key ]} ∪ seen)
      end
  | _ :: rest => dedupe_loop rest seen
  end.

Definition _dedupe_evidence (entries : list json) : list dict := dedupe_loop entries ∅.

(** [int(x)] for the [turn_id] of a record of [_dedupe_evidence], which
    is an [int]. *)
Definition int_of (j : json) : Z := default 0 (as_int j).

(** The test of the second loop: the entry is among the selected ones,
    by session, turn and snippet. *)
Definition same_evidence (entry existing : dict) : bool :=
  bool_decide (py_str (get existing (u "session_id")) = py_str (get entry (u "session_id")))
  && bool_decide (int_of (get_or existing (u "turn_id") (JInt 0))
                  = int_of (get_or entry (u "turn_id") (JInt 0)))
  && bool_decide (py_str (get_or existing (u "snippet") (JStr []))
                  = py_str (get_or entry (u "snippet") (JStr []))).

(** The first loop: one primary evidence per session, up to the cap. *)
Fixpoint primary_loop (deduped : list dict) (selected : list dict) (seen_sessions : gset pystr)
    (primary_cap : Z) : list dict :=
  match deduped with
  | [] => selected
  | entry :: rest =>
      let sid := py_str (py_or (get entry (u "session_id")) (JStr [])) in
      if bool_decide (sid = []) || bool_decide (sid ∈ seen_sessions)
      then primary_loop rest selected seen_sessions primary_cap
      else
        let selected := selected ++ [dict_set entry (u "tier") (JStr (u "primary"))] in
        if primary_cap <=? Z.of_nat (length selected) then selected
        else primary_loop rest selected ({[ sid ]} ∪ seen_sessions) primary_cap
  end.

(** The second loop: the other entries as supporting evidence, up to
    [max_items]. *)
Fixpoint supporting_loop (deduped : list dict) (selected : list dict) (max_items : Z)
  : list dict :=
  match deduped with
  | [] => selected
  | entry :: rest =>
      if max_items <=? Z.of_nat (length selected) then selected
      else if existsb (same_evidence entry) selected
      then supporting_loop rest selected max_items
      else
        let selected := selected ++ [dict_set entry (u "tier") (JStr (u "supporting"))] in
        if max_items <=? Z.of_nat (length selected) then selected
        else supporting_loop rest selected max_items
  end.

Definition _select_diverse_evidence (entries : list json) (max_items primary_limit : Z)
  : list dict :=
  if max_items <=? 0 then []
  else
    let deduped := _dedupe_evidence entries in
    if bool_decide (deduped = []) then []
    else
      let primary_cap := Z.max 1 (Z.min primary_limit max_items) in
      let selected := primary_loop deduped [] ∅ primary_cap in
      supporting_loop deduped selected max_items.

(** The key by which the second loop tells two records apart. *)
Definition evidence_key (record : dict) : pystr * Z * pystr :=
  (py_str (get record (u "session_id")),
   int_of (get_or record (u "turn_id") (JInt 0)),
   py_str (get_or record (u "snippet") (JStr []))).

(** The identity of a record [_dedupe_evidence] built, as its loop keeps
    it in [seen]. *)
Definition identity_of_record (record : dict) : pystr * Z * pystr :=
  (py_str (get record (u "session_id")),
   int_of (get record (u "turn_id")),
   str_lower (py_str (get record (u "snippet")))).

(** The selected records with a given tier. *)
Definition with_tier (tier : string) (record : dict) : Prop :=
  get record (u "tier") = JStr (u tier).

(** [str(entry.get("session_id") or "")], the session of a record as the
    first loop reads it. *)
Definition session_of (record : dict) : pystr :=
  py_str (py_or (get record (u "session_id")) (JStr [])).

End Lower.

End Evidence.

(** ** skill_runtime.py: the sanitizer of the model output *)

Module Sanitize.
Import Py Json Digest.

(** [" ".join(str(value or "").strip().split())] *)
Definition _as_non_empty_text (value : json) : pystr :=
  join (u " ") (split_ws (strip (py_str (py_or value (JStr [])))) []).

(** A dict as a list of one, a list as its dicts, anything else as
    nothing: the first lines of [_normalize_evidence_list] and of
    [_normalize_actions]. *)
Definition dict_entries (value : json) : list dict :=
  match value with
  | JObj d => [d]
  | JList items => omap (fun item => match item with JObj d => Some d | _ => None end) items
  | _ => []
  end.

Section Digits.
(** [raw.isdigit()] and [int(raw)]; [int] raises [ValueError] on a digit
    that is no decimal digit. *)
Context (isdigit : pystr -> bool).
Context (int_of_str : pystr -> result Z).

(** An [int] above 0 is returned as it is (so [True] stays [True]). *)
Definition _coerce_turn_id (value : json) : result (option json) :=
  match as_int value with
  | Some z => Ok (if 0 <? z then Some value else None)
  | None =>
      match value with
      | JStr s =>
          let raw := strip s in
          if isdigit raw then
            parsed ← int_of_str raw;
            Ok (if 0 <? parsed then Some (JInt parsed) else None)
          else Ok None
      | _ => Ok None
      end
  end.

(** One pass of the loop of [_normalize_evidence_list]: the item
    appended, if any. *)
Definition normalize_entry (entry : dict) : result (option dict) :=
  let session_id := _as_non_empty_text (get entry (u "session_id")) in
  turn_id ← _coerce_turn_id (get entry (u "turn_id"));
  let snippet := _as_non_empty_text (get entry (u "snippet")) in
  match turn_id with
  | Some turn_id =>
      if bool_decide (session_id = []) || bool_decide (snippet = []) then Ok None
      else
        let item := [ (u "session_id", JStr session_id);
                      (u "turn_id", turn_id);
                      (u "snippet", JStr snippet) ] in
        let tier := _as_non_empty_text (get entry (u "tier")) in
        Ok (Some (if str_in tier [u "primary"; u "supporting"]
                  then dict_set item (u "tier") (JStr tier)
                  else item))
  | None => Ok None
  end.

Fixpoint normalize_entries (entries : list dict) : result (list dict) :=
  match entries with
  | [] => Ok []
  | entry :: rest =>
      item ← normalize_entry entry;
      items ← normalize_entries rest;
      Ok (match item with
          | Some item => item :: items
          | None => items
          end)
  end.

Definition _normalize_evidence_list (value : json) : result (list dict) :=
  normalize_entries (dict_entries value).

End Digits.

Fixpoint _first_non_empty_text (payload : dict) (keys : list pystr) : pystr :=
  match keys with
  | [] => []
  | key :: rest =>
      let value := _as_non_empty_text (get payload key) in
      if bool_decide (value = []) then _first_non_empty_text payload rest else value
  end.

(** The keys of an action, and for each the keys it is read from. *)
Definition action_fields : list (pystr * list pystr) :=
  [ (u "trigger", [u "trigger"; u "when"; u "condition"]);
    (u "action", [u "action"; u "do"; u "step"]);
    (u "expected_gain", [u "expected_gain"; u "expect"; u "benefit"; u "outcome"]);
    (u "validation_window", [u "validation_window"; u "validate"; u "window"]) ].

Definition _normalize_actions (value : json) : list dict :=
  map (fun item =>
         map (fun field => (fst field, JStr (_first_non_empty_text item (snd field))))
             action_fields)
      (dict_entries value).

End Sanitize.

(** ** _sync_analysis_reports_core.py: the detail lines of a report *)

Module Lines.
Import Py Json.

(** The characters at which [str.splitlines] ends a line. *)
Definition is_line_break (c : N) : bool :=
  ((10 <=? c) && (c <=? 13) || (28 <=? c) && (c <=? 30)
   || (c =? 133) || (c =? 8232) || (c =? 8233))%N.

(** [s.splitlines()]: a carriage return followed by a line feed ends one
    line, and the end of the text ends a line only when the line is not
    empty. [cur] is the line read so far. *)
Fixpoint splitlines_from (s cur : pystr) : list pystr :=
  match s with
  | [] => if bool_decide (cur = []) then [] else [cur]
  | c :: r =>
      if is_line_break c then
        match r with
        | c' :: r' =>
            if ((c =? 13) && (c' =? 10))%N then cur :: splitlines_from r' []
            else cur :: splitlines_from r []
        | [] => [cur]
        end
      else splitlines_from r (cur ++ [c])
  end.

Definition splitlines (s : pystr) : list pystr := splitlines_from s [].

(** [l[:m]]; a negative [m] counts from the end. *)
Definition slice_to {A} (m : Z) (l : list A) : list A :=
  if m <? 0 then take (Z.to_nat (Z.of_nat (length l) + m)) l else take (Z.to_nat m) l.

(** The loop of both branches: the stripped texts that are not empty. *)
Definition stripped_texts (items : list json) : list pystr :=
  filter (fun text => text <> []) (text_of <$> items).

Definition _normalize_lines (value : json) (max_items : Z) : list pystr :=
  let lines :=
    match value with
    | JList items => stripped_texts items
    | JStr s => stripped_texts (JStr <$> splitlines s)
    | _ => []
    end in
  if max_items <? Z.of_nat (length lines) then slice_to max_items lines else lines.

Section Lower.
(** [s.lower()], by which the lines are compared. *)
Context (str_lower : pystr -> pystr).

(** The loop of [_dedupe_lines]. *)
Fixpoint dedupe_lines_loop (lines : list json) (deduped : list pystr) (seen : gset pystr)
    (max_items : Z) : list pystr :=
  match lines with
  | [] => deduped
  | line :: rest =>
      let text := text_of line in
      if bool_decide (text = []) then dedupe_lines_loop rest deduped seen max_items
      else
        let key := str_lower text in
        if bool_decide (key ∈ seen) then dedupe_lines_loop rest deduped seen max_items
        else
          let deduped := deduped ++ [text] in
          if max_items <=? Z.of_nat (length deduped) then deduped
          else dedupe_lines_loop rest deduped ({[ key ]} ∪ seen) max_items
  end.

Definition _dedupe_lines (lines : list json) (max_items : Z) : list pystr :=
  dedupe_lines_loop lines [] ∅ max_items.

End Lower.

(** A line as both functions leave it: not empty, with no space at
    either end. *)
Definition normalized_line (text : pystr) : Prop := text <> [] /\ strip text = text.

(** A text without a line break. *)
Definition one_line (text : pystr) : Prop := Forall (fun c => is_line_break c = false) text.

End Lines.

(** ** _sync_analysis_reports_core.py: the outcome of the client calls *)

Module Calls.
Import Py Json Sync.

(** Whether a call of the client went through. *)
Definition call_ok (c : client_call) : bool :=
  match c with
  | Archived _ ok | Updated _ ok | Created _ ok => ok
  end.

End Calls.

(** ** pipeline.py: the period label of the stats step *)

Module Pipeline.
Import Py Json Incremental.

(** [_derive_stats_period_label(since=since, window=window)]; [today] is
    the day of [datetime.now(timezone.utc)], which [_parse_window_to_since]
    reads, and [today_local] the day of [datetime.now()]. A [ValueError]
    of the window is not caught. *)
Definition _derive_stats_period_label (today today_local : Z) (since : option pystr)
    (window : pystr) : result pystr :=
  if negb (given since) && given (Some window) then
    parsed_since ← _parse_window_to_since today (Some window);
    Ok (_build_period_id parsed_since
          (match parsed_since with
           | Some _ => Some (isoformat today_local)
           | None => None
           end)
          (Some window) None)
  else Ok (_build_period_id since None (Some window) None).

(** The arguments of [incremental] with a window and, possibly, a
    [since], and nothing else. *)
Definition window_args (since : option pystr) (window : pystr) : incremental_args :=
  {| arg_period_id := None; arg_window := Some window; arg_since := since;
     arg_until := None; arg_run_id := None; arg_sync_report := false;
     arg_dry_run := false |}.

End Pipeline.

(** ** incremental_dimensions.py: the order of the reports *)

Module Order.
Import Py Json Dimensions.

(** The order of pairs compared first by the strict order [lt1] and then
    by [le2], as Python compares tuples. *)
Definition lex_leb {A B : Type} (lt1 : A -> A -> bool) (le2 : B -> B -> bool)
    (x y : A * B) : bool :=
  if lt1 (fst x) (fst y) then true
  else if lt1 (fst y) (fst x) then false
  else le2 (snd x) (snd y).

(** The rank of a report: the place of its dimension in the registry, or
    the size of the registry when the dimension is unknown. *)
Definition rank_of (report : dict) : nat := fst (fst (fst (report_sort_key report))).

End Order.

(** * Properties *)

(** ** Strings *)

Module PyFacts.
Import Py.

#[global] Arguments u : simpl never.

Lemma starts_with_app (t r : pystr) : starts_with t (t ++ r) = true.
Proof.
  induction t as [|c t IH]; simpl; [done|].
  by rewrite N.eqb_refl, IH.
Qed.

Lemma contains_here (t r : pystr) : contains t (t ++ r) = true.
Proof.
  destruct (t ++ r) eqn:E; simpl; rewrite <- E, starts_with_app; done.
Qed.

Lemma contains_app_r (t p s : pystr) : contains t s = true -> contains t (p ++ s) = true.
Proof.
  intros H. induction p as [|c p IH]; simpl; [done|].
  rewrite IH. apply orb_true_r.
Qed.

(** A substring is found wherever it stands. *)
Lemma contains_middle (t p r : pystr) : contains t (p ++ t ++ r) = true.
Proof. apply contains_app_r, contains_here. Qed.

Lemma contains_any_intro (tokens : list pystr) (t s : pystr) :
  t ∈ tokens -> contains t s = true -> contains_any tokens s = true.
Proof.
  intros Hin Hc. unfold contains_any. apply existsb_exists.
  exists t. split; [by apply list_elem_of_In|done].
Qed.

Lemma lstrip_nonspace (c : N) (s : pystr) : is_space c = false -> lstrip (c :: s) = c :: s.
Proof. intros H. simpl. by rewrite H. Qed.

Lemma lstrip_app_nonspace (a b : pystr) (c : N) :
  is_space c = false -> exists r, lstrip (a ++ c :: b) = r ++ c :: b.
Proof.
  intros H. induction a as [|x a [r IH]]; simpl.
  - rewrite H. by exists [].
  - destruct (is_space x); [by exists r|]. by exists (x :: a).
Qed.

(** Stripping leaves every character that is not a space. *)
Lemma strip_keeps_nonspace (a b : pystr) (c : N) :
  is_space c = false -> exists r1 r2, strip (a ++ c :: b) = r1 ++ c :: r2.
Proof.
  intros H. unfold strip, rstrip.
  destruct (lstrip_app_nonspace a b c H) as [r ->].
  rewrite rev_app_distr. simpl. rewrite <- app_assoc. simpl.
  destruct (lstrip_app_nonspace (rev b) (rev r) c H) as [r' ->].
  rewrite rev_app_distr. simpl. rewrite rev_involutive, <- app_assoc. simpl.
  by exists r, (rev r').
Qed.

Lemma strip_nonempty (a b : pystr) (c : N) :
  is_space c = false -> strip (a ++ c :: b) <> [].
Proof.
  intros H E. destruct (strip_keeps_nonspace a b c H) as (r1 & r2 & E').
  rewrite E in E'. by destruct r1.
Qed.

Lemma strip_nil : strip [] = [].
Proof. reflexivity. Qed.

End PyFacts.

(** ** Dicts *)

Module JsonFacts.
Import Py Json.

Lemma dict_get_set_eq (d : dict) (k : pystr) (v : json) :
  dict_get (dict_set d k v) k = Some v.
Proof.
  induction d as [|[k' v'] d IH]; simpl.
  - by rewrite bool_decide_eq_true_2.
  - case_bool_decide as E; simpl.
    + by rewrite bool_decide_eq_true_2.
    + by rewrite bool_decide_eq_false_2.
Qed.

Lemma dict_get_set_ne (d : dict) (k k' : pystr) (v : json) :
  k <> k' -> dict_get (dict_set d k v) k' = dict_get d k'.
Proof.
  intros Hne. induction d as [|[k0 v0] d IH]; simpl.
  - by rewrite bool_decide_eq_false_2.
  - case_bool_decide as E; simpl.
    + subst k0. by rewrite !bool_decide_eq_false_2.
    + by rewrite IH.
Qed.

Lemma get_set_eq (d : dict) (k : pystr) (v : json) : get (dict_set d k v) k = v.
Proof. unfold get. by rewrite dict_get_set_eq. Qed.

Lemma get_set_ne (d : dict) (k k' : pystr) (v : json) :
  k <> k' -> get (dict_set d k v) k' = get d k'.
Proof. intros. unfold get. by rewrite dict_get_set_ne. Qed.

Lemma has_key_spec (d : dict) (k : pystr) :
  has_key d k = match dict_get d k with Some _ => true | None => false end.
Proof.
  unfold has_key. destruct (dict_get d k).
  - by rewrite bool_decide_eq_true_2.
  - rewrite bool_decide_eq_false_2; [done|]. by intros [? ?].
Qed.

(** [setdefault] fills a key only when it is absent. *)
Lemma dict_get_setdefault_eq (d : dict) (k : pystr) (v : json) :
  dict_get (setdefault d k v) k = Some (default v (dict_get d k)).
Proof.
  unfold setdefault. rewrite has_key_spec.
  destruct (dict_get d k) eqn:E; simpl; [done|]. apply dict_get_set_eq.
Qed.

Lemma dict_get_setdefault_ne (d : dict) (k k' : pystr) (v : json) :
  k <> k' -> dict_get (setdefault d k v) k' = dict_get d k'.
Proof.
  intros. unfold setdefault. destruct (has_key d k); [done|]. by apply dict_get_set_ne.
Qed.

Lemma get_setdefault_ne (d : dict) (k k' : pystr) (v : json) :
  k <> k' -> get (setdefault d k v) k' = get d k'.
Proof. intros. unfold get. by rewrite dict_get_setdefault_ne. Qed.

Lemma setdefault_present (d : dict) (k : pystr) (v x : json) :
  dict_get d k = Some x -> setdefault d k v = d.
Proof. intros H. unfold setdefault. by rewrite has_key_spec, H. Qed.

End JsonFacts.

(** ** The contract validator *)

Module ValidatorFacts.
Import Py Json Dimensions Validator PyFacts.

(** Every dimension of the registry has a name and a layer. *)
Lemma registry_entry_nonempty (dimension expected : pystr) :
  DIMENSION_LAYER_MAP_get dimension = Some expected ->
  dimension <> [] /\ expected <> [].
Proof.
  unfold DIMENSION_LAYER_MAP_get, _DIMENSION_LAYER_PAIRS. simpl.
  repeat (let E := fresh "E" in
          case_bool_decide as E;
          [intros [= <-]; rewrite <- E; split; vm_compute; discriminate|]).
  intros [=].
Qed.

(** The layer of every registry entry is L2 or L3. *)
Lemma registry_layers (dimension expected : pystr) :
  DIMENSION_LAYER_MAP_get dimension = Some expected ->
  expected = u "L2" \/ expected = u "L3".
Proof.
  unfold DIMENSION_LAYER_MAP_get, _DIMENSION_LAYER_PAIRS. simpl.
  repeat (case_bool_decide; [intros [= <-]; auto|]).
  intros [=].
Qed.

Lemma layer_error_in_report (period_id week : json) (idx : nat) (item : dict)
    (seen : gset (pystr * pystr)) (expected : pystr) :
  DIMENSION_LAYER_MAP_get (report_dimension item) = Some expected ->
  report_layer item <> [] ->
  report_layer item <> expected ->
  layer_error idx expected (report_dimension item)
    ∈ fst (report_errors period_id week idx (JObj item) seen).
Proof.
  intros Hreg Hne Hdiff.
  destruct (registry_entry_nonempty _ _ Hreg) as [Hd He].
  unfold report_errors. cbn [fst]. rewrite Hreg.
  rewrite !elem_of_app. right. right. left.
  rewrite !bool_decide_eq_false_2 by done. simpl. apply list_elem_of_here.
Qed.

(** The errors of report [i] are among the errors of the loop. *)
Lemma reports_loop_keeps (period_id week : json) (reports : list json) (i : nat)
    (item : json) (e : pystr) :
  forall (idx : nat) (seen : gset (pystr * pystr)),
  reports !! i = Some item ->
  (forall seen', e ∈ fst (report_errors period_id week (idx + i) item seen')) ->
  e ∈ reports_loop period_id week idx reports seen.
Proof.
  revert i. induction reports as [|r reports IH]; intros i idx seen Hi He; [done|].
  simpl. destruct (report_errors period_id week idx r seen) as [errs seen'] eqn:E.
  apply elem_of_app. destruct i as [|i]; simpl in Hi.
  - left. injection Hi as ->. specialize (He seen).
    rewrite Nat.add_0_r, E in He. exact He.
  - right. apply (IH i); [done|]. intros s. specialize (He s).
    by rewrite Nat.add_succ_r in He.
Qed.

Lemma layer_error_mentions_layer (idx : nat) (expected dimension : pystr) :
  contains (u "layer must be '" ++ expected ++ u "'") (layer_error idx expected dimension) = true.
Proof.
  assert (layer_error idx expected dimension
          = (u "reports[" ++ str_of_nat idx ++ u "].")
              ++ (u "layer must be '" ++ expected ++ u "'")
              ++ (u " for dimension '" ++ dimension ++ u "'")) as ->.
  { unfold layer_error. rewrite <- !app_assoc. reflexivity. }
  apply contains_middle.
Qed.

(** C6. For every IncrementalMechanismV1 payload with a report whose
    dimension is in the registry and whose layer is not empty and differs
    from the registry's layer for that dimension, the validator returns an
    error that names the expected layer in quotes: [layer must be
    '<expected>']. Dimension and layer are the values the validator reads,
    [str(item.get(key) or '').strip()]. *)
Theorem layer_mismatch_is_reported (payload : dict) (reports : list json) (idx : nat)
    (item : dict) (expected : pystr) :
  get payload (u "reports") = JList reports ->
  reports !! idx = Some (JObj item) ->
  DIMENSION_LAYER_MAP_get (report_dimension item) = Some expected ->
  report_layer item <> [] ->
  report_layer item <> expected ->
  exists errors,
    validate_incremental_mechanism (JObj payload) = Ok errors
    /\ layer_error idx expected (report_dimension item) ∈ errors
    /\ contains (u "layer must be '" ++ expected ++ u "'")
                (layer_error idx expected (report_dimension item)) = true.
Proof.
  intros Hreports Hidx Hreg Hne Hdiff.
  eexists. split; [reflexivity|]. split; [|apply layer_error_mentions_layer].
  unfold incremental_errors. rewrite Hreports.
  destruct reports as [|r0 rs]; [done|].
  rewrite !elem_of_app. right. right. right. left.
  apply (reports_loop_keeps _ _ _ idx (JObj item)); [done|].
  intros seen'. by apply layer_error_in_report.
Qed.

(** The witness of [layer_mismatch_is_reported]: the payload of the test
    suite, dimension incremental-task-stratification with layer L3. *)
Lemma layer_mismatch_is_reported_witness :
  exists errors,
    validate_incremental_mechanism (JObj Examples.mismatched_incremental) = Ok errors
    /\ layer_error 0 (u "L2") (u "incremental-task-stratification") ∈ errors
    /\ contains (u "layer must be 'L2'")
                (layer_error 0 (u "L2") (u "incremental-task-stratification")) = true.
Proof.
  apply (layer_mismatch_is_reported Examples.mismatched_incremental
           [JObj Examples.mismatched_report] 0 Examples.mismatched_report (u "L2")).
  - reflexivity.
  - reflexivity.
  - vm_compute. reflexivity.
  - vm_compute. discriminate.
  - vm_compute. discriminate.
Defined.

(** The fixtures of the test suite are valid, as its tests say. *)
Example valid_session_accepted :
  validate_session_mechanism (JObj Examples.valid_session) = Ok [].
Proof. vm_compute. reflexivity. Qed.

Example valid_incremental_accepted :
  validate_incremental_mechanism (JObj Examples.valid_incremental) = Ok [].
Proof. vm_compute. reflexivity. Qed.

(** [validate_incremental_mechanism] returns its list on every dict. *)
Lemma validate_incremental_returns (payload : dict) :
  validate_incremental_mechanism (JObj payload) = Ok (incremental_errors payload).
Proof. reflexivity. Qed.

(** On a document that is no dict, [payload.get] raises. *)
Lemma validators_raise_without_get (payload : json) :
  is_dict payload = false ->
  validate_session_mechanism payload = no_get_attribute
  /\ validate_incremental_mechanism payload = no_get_attribute.
Proof. by destruct payload. Qed.

(** C7. [validate_session_mechanism] raises on a well-formed payload: an
    evidence item whose [tier] is a list makes the set membership test
    [tier not in {"primary", "supporting"}] raise [TypeError], so no error
    list is returned. *)
Theorem session_validator_raises_on_list_tier :
  validate_session_mechanism (JObj Examples.session_with_list_tier)
  = Raise (Exn TypeError (u "unhashable type: 'list'")).
Proof. vm_compute. reflexivity. Qed.

End ValidatorFacts.

(** ** Which sidecars need backfill *)

Module BackfillFacts.
Import Py Json Dimensions Validator Backfill PyFacts.

Lemma bind_ok {A B} (m : result A) (f : A -> result B) (b : B) :
  m ≫= f = Ok b -> exists a, m = Ok a /\ f a = Ok b.
Proof. destruct m as [a|e]; simpl; [eauto|discriminate]. Qed.

Lemma ok_inj {A} (a b : A) : Ok a = Ok b -> a = b.
Proof. by intros [= ->]. Qed.

Lemma placeholder_nil : _contains_placeholder [] = true.
Proof. reflexivity. Qed.

(** What a payload without validation errors is known to hold. *)
Lemma validate_session_nil_inv (payload : json) :
  validate_session_mechanism payload = Ok [] ->
  exists p, payload = JObj p
    /\ (exists w ws, get p (u "why") = JList (w :: ws))
    /\ _generated_by_block_reason (get p (u "generated_by")) = None.
Proof.
  destruct payload as [| | | | | |p]; try discriminate.
  unfold validate_session_mechanism. intros H.
  apply bind_ok in H as (body & Hbody & H). injection H as H.
  apply app_eq_nil in H as [-> Hgb].
  exists p. split; [done|]. split.
  - unfold session_body_errors in Hbody.
    apply bind_ok in Hbody as (e_why & Hwhy & Hbody).
    apply bind_ok in Hbody as (e_actions & _ & Hbody).
    injection Hbody as Hbody.
    do 6 (apply app_eq_nil in Hbody as [_ Hbody]).
    apply app_eq_nil in Hbody as [-> _].
    destruct (get p (u "why")) as [| | | | |[|w ws]|]; try discriminate.
    by exists w, ws.
  - unfold generated_by_errors in Hgb.
    destruct (get p (u "generated_by")) as [| | | | | |gb]; try discriminate.
    apply app_eq_nil in Hgb as [_ Hgb].
    by destruct (_generated_by_block_reason (JObj gb)).
Qed.

Lemma positive_is_at_least_one (z : Z) : (0 <? z) = (1 <=? z).
Proof. destruct (Z.ltb_spec 0 z), (Z.leb_spec 1 z); lia. Qed.

(** The evidence test of the code is the one the claim words. *)
Lemma has_valid_evidence_item_spec (e : dict) :
  _has_valid_evidence_item e = concrete_evidence (JObj e).
Proof.
  unfold _has_valid_evidence_item, concrete_evidence, positive_int.
  destruct (bool_decide (text_of (get e (u "session_id")) = [])); simpl; [done|].
  destruct (str_in _ _); simpl; [done|].
  destruct (as_int (get e (u "turn_id"))) as [z|]; simpl; [|done].
  rewrite positive_is_at_least_one. destruct (1 <=? z); simpl; [|done].
  case_bool_decide as E; simpl; [|by destruct (_contains_placeholder _)].
  by rewrite E, placeholder_nil.
Qed.

Lemma why_has_signal_spec (why : json) : why_has_signal why = grounded_hypothesis why.
Proof.
  destruct why as [| | | | | |w]; try done.
  unfold why_has_signal, grounded_hypothesis.
  case_bool_decide as E; simpl.
  { by rewrite E, placeholder_nil. }
  destruct (_contains_placeholder _); simpl; [done|].
  assert (forall l, existsb (fun item => match item with
                                         | JObj e => _has_valid_evidence_item e
                                         | _ => false
                                         end) l
                    = existsb concrete_evidence l) as Hex.
  { induction l as [|x l IH]; simpl; [done|]. rewrite IH. f_equal.
    destruct x; try done. apply has_valid_evidence_item_spec. }
  destruct (get w (u "evidence")) as [|[]|z|f|s|l|d]; unfold py_or; simpl; try done.
  - by destruct (negb (z =? 0)).
  - by destruct (float_nonzero f).
  - by destruct s.
  - destruct l as [|x l]; [done|]. apply (Hex (x :: l)).
  - by destruct d.
Qed.

(** On a valid payload the signal test does not raise: it holds when the
    summary is no placeholder and some hypothesis is grounded. *)
Lemma signal_of_valid (p : dict) :
  validate_session_mechanism (JObj p) = Ok [] ->
  _session_has_mechanism_signal p
  = Ok (negb (placeholder_summary (JObj p)) && has_grounded_hypothesis (JObj p)).
Proof.
  intros H. apply validate_session_nil_inv in H as (p' & [= <-] & (w & ws & Hwhy) & Hgb).
  unfold _session_has_mechanism_signal, placeholder_summary, has_grounded_hypothesis.
  rewrite Hgb, Hwhy.
  destruct (_contains_placeholder _); simpl; [done|].
  f_equal. rewrite why_has_signal_spec. f_equal.
  clear. induction ws as [|x ws IH]; simpl; [done|].
  by rewrite why_has_signal_spec, IH.
Qed.

Lemma forced_targets (sidecars : sidecar_dir) (conversations : list dict) :
  backfill_targets sidecars true conversations = Ok (with_session_id conversations).
Proof.
  induction conversations as [|conv rest IH]; [done|].
  unfold with_session_id in *. simpl. rewrite IH. rewrite filter_cons.
  case_bool_decide; destruct (decide _); done.
Qed.



End BackfillFacts.

(** ** Applying the session results *)

Module ApplyFacts.
Import Py Json Validator Backfill Store Apply PyFacts JsonFacts BackfillFacts.

(** The checks before [generated_by] read ten keys; they pass again on a
    record that agrees on eight of them and has an absent or proper [week]
    and [period_id]. *)
Lemma body_errors_transfer (d d' : dict) :
  (forall k, k ∈ [u "schema_version"; u "session_id"; u "created_at"; u "what_happened";
                  u "why"; u "how_to_improve"; u "labels"; u "summary"] ->
             get d' k = get d k) ->
  is_none (get d' (u "week")) || nonblank_str (get d' (u "week")) = true ->
  is_none (get d' (u "period_id")) || nonblank_str (get d' (u "period_id")) = true ->
  session_body_errors d = Ok [] ->
  session_body_errors d' = Ok [].
Proof.
  intros Hsame Hweek Hperiod H.
  unfold session_body_errors in *.
  rewrite (Hsame (u "schema_version")), (Hsame (u "session_id")), (Hsame (u "created_at")),
    (Hsame (u "what_happened")), (Hsame (u "why")), (Hsame (u "how_to_improve")),
    (Hsame (u "labels")), (Hsame (u "summary"))
    by (repeat first [apply list_elem_of_here | apply list_elem_of_further]).
  apply bind_ok in H as (e_why & -> & H).
  apply bind_ok in H as (e_actions & -> & H).
  apply ok_inj in H. cbn [mbind result_bind].
  apply app_eq_nil in H as [-> H].
  apply app_eq_nil in H as [-> H].
  apply app_eq_nil in H as [-> H].
  apply app_eq_nil in H as [_ H].
  apply app_eq_nil in H as [_ H].
  apply app_eq_nil in H as [-> H].
  apply app_eq_nil in H as [-> H].
  apply app_eq_nil in H as [-> H].
  apply app_eq_nil in H as [-> ->].
  f_equal. cbn [app].
  destruct (is_none (get d' (u "week"))), (nonblank_str (get d' (u "week")));
    try discriminate;
    destruct (is_none (get d' (u "period_id"))), (nonblank_str (get d' (u "period_id")));
    try discriminate; reflexivity.
Qed.

Lemma validate_session_split (p : dict) :
  validate_session_mechanism (JObj p) = Ok [] <->
  session_body_errors p = Ok [] /\ generated_by_errors (get p (u "generated_by")) = [].
Proof.
  unfold validate_session_mechanism. split.
  - intros H. apply bind_ok in H as (body & Hbody & H). injection H as H.
    apply app_eq_nil in H as [-> ->]. done.
  - intros [-> ->]. done.
Qed.

(** A string that is not blank is a string, is true and stays itself
    under [str]. *)
Lemma nonblank_str_inv (j : json) :
  nonblank_str j = true -> exists s, j = JStr s /\ strip s <> [] /\ s <> [].
Proof.
  destruct j as [| | | |s| |]; try discriminate. simpl. intros H.
  apply negb_true_iff, bool_decide_eq_false in H.
  exists s. split; [done|]. split; [done|]. intros ->. by apply H.
Qed.

Lemma nonblank_str_intro (s : pystr) : strip s <> [] -> nonblank_str (JStr s) = true.
Proof. intros H. simpl. by rewrite bool_decide_eq_false_2. Qed.

Lemma week_label_nonblank (iso_year : Z) (iso_week : nat) :
  nonblank_str (JStr (week_label iso_year iso_week)) = true.
Proof.
  apply nonblank_str_intro. unfold week_label.
  change (u "-W") with (45%N :: u "W"). rewrite <- app_comm_cons.
  by apply strip_nonempty.
Qed.

Lemma week_label_nonempty (iso_year : Z) (iso_week : nat) : week_label iso_year iso_week <> [].
Proof.
  unfold week_label. change (u "-W") with (45%N :: u "W").
  intros H. apply app_eq_nil in H as [_ H]. discriminate.
Qed.

Lemma defaulted_generated_by_accepted (run_id now : pystr) :
  acceptable_run_id run_id -> strip now <> [] ->
  generated_by_errors (JObj (defaulted_generated_by run_id now)) = [].
Proof.
  intros [Hrun Hblock] Hnow.
  unfold generated_by_errors, _generated_by_block_reason in *.
  unfold defaulted_generated_by. cbn [map concat].
  change (get _ (u "engine")) with (JStr (u "api")).
  change (get _ (u "provider")) with (JStr (u "api")).
  change (get _ (u "model")) with (JStr (u "skill")).
  change (get [(u "engine", JStr (u "api")); (u "provider", JStr (u "api"));
               (u "model", JStr (u "skill")); (u "run_id", JStr run_id);
               (u "generated_at", JStr now)] (u "run_id")) with (JStr run_id).
  change (get _ (u "generated_at")) with (JStr now).
  change (get [(u "run_id", JStr run_id)] (u "engine")) with JNull in Hblock.
  change (get [(u "run_id", JStr run_id)] (u "provider")) with JNull in Hblock.
  change (get [(u "run_id", JStr run_id)] (u "run_id")) with (JStr run_id) in Hblock.
  change (str_in (lower (text_of JNull)) _DISALLOWED_GENERATED_BY_ENGINES) with false in Hblock.
  change (str_in (lower (text_of JNull)) _DISALLOWED_GENERATED_BY_PROVIDERS) with false in Hblock.
  change (str_in (lower (text_of (JStr (u "api")))) _DISALLOWED_GENERATED_BY_ENGINES) with false.
  change (str_in (lower (text_of (JStr (u "api")))) _DISALLOWED_GENERATED_BY_PROVIDERS) with false.
  rewrite (nonblank_str_intro run_id Hrun), (nonblank_str_intro now Hnow).
  change (nonblank_str (JStr (u "api"))) with true.
  change (nonblank_str (JStr (u "skill"))) with true.
  cbn [negb err_if app].
  destruct (contains_any _DISALLOWED_RUN_ID_TOKENS (lower (text_of (JStr run_id))));
    [discriminate|reflexivity].
Qed.

Lemma get_not_null (d : dict) (k : pystr) (v : json) :
  get d k = v -> v <> JNull -> dict_get d k = Some v.
Proof. unfold get. destruct (dict_get d k); simpl; intros; congruence. Qed.

Lemma dict_set_set (d : dict) (k : pystr) (v v' : json) :
  dict_set (dict_set d k v) k v' = dict_set d k v'.
Proof.
  induction d as [|[k0 v0] d IH]; simpl.
  - by rewrite bool_decide_eq_true_2.
  - case_bool_decide as E; simpl.
    + by rewrite bool_decide_eq_true_2.
    + by rewrite bool_decide_eq_false_2, IH.
Qed.

Lemma err_if_nil (c : bool) (msg : pystr) : err_if c msg = [] -> c = false.
Proof. by destruct c. Qed.

(** What the checks before [generated_by] establish. *)
Lemma body_errors_nil_inv (d : dict) :
  session_body_errors d = Ok [] ->
  eq_str (get d (u "schema_version")) _SESSION_SCHEMA = true
  /\ nonblank_str (get d (u "session_id")) = true
  /\ nonblank_str (get d (u "created_at")) = true
  /\ is_none (get d (u "week")) || nonblank_str (get d (u "week")) = true
  /\ is_none (get d (u "period_id")) || nonblank_str (get d (u "period_id")) = true.
Proof.
  intros H. unfold session_body_errors in H.
  apply bind_ok in H as (e_why & _ & H).
  apply bind_ok in H as (e_actions & _ & H).
  apply ok_inj in H.
  apply app_eq_nil in H as [H1 H].
  apply app_eq_nil in H as [H2 H].
  apply app_eq_nil in H as [H3 H].
  apply app_eq_nil in H as [H4 H].
  apply app_eq_nil in H as [H5 _].
  apply err_if_nil in H1, H2, H3, H4, H5.
  repeat split.
  - by apply negb_false_iff in H1.
  - by apply negb_false_iff in H2.
  - by apply negb_false_iff in H3.
  - destruct (is_none (get d (u "week"))), (nonblank_str (get d (u "week")));
      simpl in *; done.
  - destruct (is_none (get d (u "period_id"))), (nonblank_str (get d (u "period_id")));
      simpl in *; done.
Qed.

Ltac keys_differ :=
  let H := fresh in intros H; vm_compute in H; discriminate H.

Section Prepared.
Context (isocalendar_of : pystr -> result (Z * nat)).
Context (json_dumps : json -> pystr).

Lemma prepare_record_eq (run_id now : pystr) (item : dict) (gb : json) (created : pystr)
    (iso_year : Z) (iso_week : nat) :
  dict_get item (u "generated_by") = None ->
  validate_session_mechanism (JObj (dict_set item (u "generated_by") gb)) = Ok [] ->
  get item (u "created_at") = JStr created ->
  isocalendar_of created = Ok (iso_year, iso_week) ->
  prepare_record isocalendar_of run_id now item
  = Ok (prepared run_id now item (week_label iso_year iso_week)).
Proof.
  intros Hnogb Hvalid Hcreated Hiso.
  apply validate_session_split in Hvalid as [Hbody _].
  apply body_errors_nil_inv in Hbody as (Hschema & _ & _ & Hweek & _).
  rewrite get_set_ne in Hschema by keys_differ.
  rewrite get_set_ne in Hweek by keys_differ.
  unfold prepare_record, prepared.
  assert (exists x, dict_get item (u "schema_version") = Some x) as [x Hx].
  { unfold get in Hschema. destruct (dict_get item (u "schema_version")); [eauto|done]. }
  rewrite (setdefault_present _ _ _ _ Hx).
  assert (setdefault item (u "generated_by") (JObj [])
          = dict_set item (u "generated_by") (JObj [])) as ->.
  { unfold setdefault. by rewrite has_key_spec, Hnogb. }
  rewrite get_set_eq, dict_set_set.
  change (default_generated_by run_id now []) with (defaulted_generated_by run_id now).
  rewrite !(get_set_ne _ (u "generated_by")) by keys_differ.
  rewrite Hcreated. cbn [is_str py_str andb].
  unfold _week_from_timestamp. rewrite Hiso. cbn [mbind result_bind].
  destruct (truthy (get item (u "week"))) eqn:Hw; cbn [negb andb mbind result_bind].
  - rewrite !(get_set_ne _ (u "generated_by")) by keys_differ. rewrite Hw.
    rewrite andb_true_r. by destruct (truthy (get item (u "period_id"))).
  - rewrite get_set_eq. rewrite !get_set_ne by keys_differ.
    assert (truthy (JStr (week_label iso_year iso_week)) = true) as ->.
    { simpl. rewrite bool_decide_eq_false_2; [done|]. apply week_label_nonempty. }
    rewrite andb_true_r. by destruct (truthy (get item (u "period_id"))).
Qed.

Lemma prepared_get_other (run_id now : pystr) (item : dict) (label k : pystr) :
  k <> u "generated_by" -> k <> u "week" -> k <> u "period_id" ->
  get (prepared run_id now item label) k = get item k.
Proof.
  intros H1 H2 H3. unfold prepared.
  destruct (truthy (get item (u "period_id"))), (truthy (get item (u "week")));
    rewrite ?(get_set_ne _ (u "period_id")), ?(get_set_ne _ (u "week")),
      ?(get_set_ne _ (u "generated_by")); done.
Qed.

Lemma prepared_get_generated_by (run_id now : pystr) (item : dict) (label : pystr) :
  get (prepared run_id now item label) (u "generated_by")
  = JObj (defaulted_generated_by run_id now).
Proof.
  unfold prepared.
  destruct (truthy (get item (u "period_id"))), (truthy (get item (u "week")));
    rewrite ?(get_set_ne _ (u "period_id")) by keys_differ;
    rewrite ?(get_set_ne _ (u "week")) by keys_differ;
    apply get_set_eq.
Qed.

Lemma prepared_get_week (run_id now : pystr) (item : dict) (label : pystr) :
  get (prepared run_id now item label) (u "week")
  = if truthy (get item (u "week")) then get item (u "week") else JStr label.
Proof.
  unfold prepared.
  destruct (truthy (get item (u "period_id"))), (truthy (get item (u "week")));
    rewrite ?(get_set_ne _ (u "period_id")) by keys_differ;
    rewrite ?get_set_eq; rewrite ?(get_set_ne _ (u "generated_by")) by keys_differ; done.
Qed.

Lemma prepared_get_period_id (run_id now : pystr) (item : dict) (label : pystr) :
  get (prepared run_id now item label) (u "period_id")
  = if truthy (get item (u "period_id")) then get item (u "period_id")
    else JStr (py_str (if truthy (get item (u "week")) then get item (u "week")
                       else JStr label)).
Proof.
  unfold prepared.
  destruct (truthy (get item (u "period_id"))), (truthy (get item (u "week")));
    rewrite ?get_set_eq;
    rewrite ?(get_set_ne _ (u "week")) by keys_differ;
    rewrite ?get_set_eq;
    rewrite ?(get_set_ne _ (u "generated_by")) by keys_differ; done.
Qed.

Lemma proper_when_true (j : json) :
  is_none j || nonblank_str j = true -> truthy j = true -> nonblank_str j = true.
Proof. by destruct j. Qed.

(** The prepared record is valid when the item is valid apart from its
    missing [generated_by]. *)
Lemma prepared_valid (run_id now : pystr) (item : dict) (gb : json)
    (iso_year : Z) (iso_week : nat) :
  validate_session_mechanism (JObj (dict_set item (u "generated_by") gb)) = Ok [] ->
  acceptable_run_id run_id -> strip now <> [] ->
  validate_session_mechanism (JObj (prepared run_id now item (week_label iso_year iso_week)))
  = Ok [].
Proof.
  intros Hvalid Hrun Hnow.
  apply validate_session_split in Hvalid as [Hbody _].
  pose proof (body_errors_nil_inv _ Hbody) as (_ & _ & _ & Hweek & Hperiod).
  rewrite get_set_ne in Hweek by keys_differ.
  rewrite get_set_ne in Hperiod by keys_differ.
  set (label := week_label iso_year iso_week).
  assert (nonblank_str (if truthy (get item (u "week")) then get item (u "week")
                        else JStr label) = true) as Hw.
  { destruct (truthy (get item (u "week"))) eqn:E; [by apply proper_when_true|].
    apply week_label_nonblank. }
  apply validate_session_split. split.
  - apply (body_errors_transfer (dict_set item (u "generated_by") gb)); [| | | done].
    + intros k Hk.
      rewrite prepared_get_other, get_set_ne; [done| | | |];
        (repeat (apply elem_of_cons in Hk as [->|Hk]; [keys_differ|]); by apply elem_of_nil in Hk).
    + rewrite prepared_get_week. by rewrite Hw, orb_true_r.
    + rewrite prepared_get_period_id.
      destruct (truthy (get item (u "period_id"))) eqn:E; [done|].
      apply nonblank_str_inv in Hw as (s & -> & Hs & _). cbn [py_str].
      by rewrite (nonblank_str_intro s Hs), orb_true_r.
  - rewrite prepared_get_generated_by. by apply defaulted_generated_by_accepted.
Qed.

Lemma default_generated_by_get (run_id now : pystr) (g : dict) (k : pystr) (v : json) :
  (k, v) ∈ defaulted_generated_by run_id now ->
  get (default_generated_by run_id now g) k = default v (dict_get g k).
Proof.
  intros Hk. unfold get.
  assert (dict_get (default_generated_by run_id now g) k = Some (default v (dict_get g k)))
    as ->; [|done].
  unfold defaulted_generated_by in Hk. unfold default_generated_by.
  repeat (apply elem_of_cons in Hk as [[= -> ->]|Hk];
          [repeat first [rewrite dict_get_setdefault_eq
                        | rewrite dict_get_setdefault_ne by keys_differ]; done|]).
  by apply elem_of_nil in Hk.
Qed.

Lemma write_records_one (record : dict) (st : fs_state) :
  files (write_records json_dumps [record] st)
    !! path_join _INSIGHTS_SESSION_DIR (sidecar_name (py_str (get record (u "session_id"))))
  = Some (json_dumps (JObj record)).
Proof.
  simpl. case_bool_decide as E; [done|]. simpl. apply lookup_insert_eq.
Qed.


End Prepared.

End ApplyFacts.

(** ** The [incremental] command *)

Module IncrementalFacts.
Import Py Json Dimensions Validator Backfill Store Incremental PyFacts JsonFacts.

Lemma isoformat_nonempty (n : Z) : isoformat n <> [].
Proof.
  unfold isoformat. destruct (civil_of_ordinal n) as [[y m] d].
  change (u "-") with [45%N]. intros H.
  apply app_eq_nil in H as [_ H]. discriminate.
Qed.

Lemma given_isoformat (n : Z) : given (Some (isoformat n)) = true.
Proof. simpl. rewrite bool_decide_eq_false_2; [done|]. apply isoformat_nonempty. Qed.

(** A window of [N] days resolves to dates. *)
Lemma resolve_window_30d (today : Z) :
  31 <= today ->
  resolve_window today None None (Some (u "30d"))
  = Ok (Some (isoformat (today - 30)), Some (isoformat today)).
Proof.
  intros Htoday. unfold resolve_window.
  change (negb (given None) && negb (given None) && given (Some (u "30d"))) with true.
  cbv iota. unfold _parse_window_to_since.
  change (lower (strip (default [] (Some (u "30d"))))) with (u "30d").
  change (str_in (u "30d") [[]; u "all"; u "all-time"]) with false. cbv iota.
  change (match_days (u "30d")) with (Some (u "30")). cbv iota.
  change (int_of_digits (u "30")) with 30. cbv zeta.
  change (30 <=? 0) with false. change (999999999 <? 30) with false. cbv iota.
  destruct (Z.ltb_spec (today - 30) 1); [lia|]. reflexivity.
Qed.

Lemma dated_period_id (args : incremental_args) (since until : pystr) :
  arg_period_id args = None -> since <> [] -> until <> [] ->
  incremental_period_id args (Some since) (Some until) = since ++ u "_to_" ++ until.
Proof.
  intros Hp Hs Hu. unfold incremental_period_id, _build_period_id. rewrite Hp.
  cbn [given andb default].
  rewrite (bool_decide_eq_false_2 (since = [])), (bool_decide_eq_false_2 (until = [])) by done.
  reflexivity.
Qed.

Lemma dated_is_not_rolling (since until window : pystr) :
  contains (u "_to_") (u "rolling_" ++ window) = false ->
  since ++ u "_to_" ++ until <> u "rolling_" ++ window.
Proof.
  intros Hno E. rewrite <- E in Hno.
  by rewrite contains_middle in Hno.
Qed.

Lemma parent_sidecar_path (period_id : pystr) :
  parent (sidecar_path period_id) = _INSIGHTS_INCREMENTAL_DIR.
Proof. reflexivity. Qed.

Section Command.
Context (json_dumps : json -> pystr).
Context (sync_reports_from_incremental : dict -> bool -> Z).

(** When the payload is valid and the run is no dry run, the command ends
    with the state [_write_json] leaves. *)
Lemma cmd_incremental_writes (today : Z) (now : pystr) (args : incremental_args)
    (sessions_total with_mechanism : nat) (src : payload_source) (st : fs_state)
    (since_arg until_arg : option pystr) (raw : dict) :
  resolve_window today (arg_since args) (arg_until args) (arg_window args)
    = Ok (since_arg, until_arg) ->
  acquire_payload args src = Ok (Continue raw) ->
  let period_id := incremental_period_id args since_arg until_arg in
  let run_id := if given (arg_run_id args) then default [] (arg_run_id args)
                else u "incremental-" ++ period_id in
  let payload := fill_envelope period_id run_id now since_arg until_arg
                               sessions_total with_mechanism raw in
  validate_incremental_mechanism (JObj payload) = Ok [] ->
  arg_dry_run args = false ->
  cmd_incremental json_dumps sync_reports_from_incremental today now args
                  sessions_total with_mechanism src st
  = Ok (if arg_sync_report args then sync_reports_from_incremental payload false else 0,
        _write_json json_dumps (sidecar_path period_id) (JObj payload) (_ensure_dirs st)).
Proof.
  intros Hres Hacq period_id run_id payload Hvalid Hdry.
  unfold cmd_incremental. rewrite Hres, Hacq. cbn [mbind result_bind].
  fold period_id. fold run_id. fold payload. rewrite Hvalid. cbn [mbind result_bind].
  rewrite (bool_decide_eq_true_2 ([] = [])) by done. cbn [negb].
  rewrite Hdry. by destruct (arg_sync_report args).
Qed.



End Command.

(** The dates of the scenario. *)
Example isoformat_2026_02_07 : isoformat Examples.day_2026_02_07 = u "2026-02-07".
Proof. vm_compute. reflexivity. Qed.

Example isoformat_30_days_before : isoformat (Examples.day_2026_02_07 - 30) = u "2026-01-08".
Proof. vm_compute. reflexivity. Qed.

Example isoformat_first_day : isoformat 1 = u "0001-01-01".
Proof. vm_compute. reflexivity. Qed.

Example isoformat_leap_day : isoformat 738945 = u "2024-02-29".
Proof. vm_compute. reflexivity. Qed.

Example isoformat_last_day : isoformat MAX_ORDINAL = u "9999-12-31".
Proof. vm_compute. reflexivity. Qed.

(** An all-time window resolves to no dates and gives a rolling id. *)
Example all_time_period_id :
  resolve_window Examples.day_2026_02_07 None None (Some (u "all-time")) = Ok (None, None)
  /\ incremental_period_id (window_only "all-time") None None = u "rolling_all-time".
Proof. split; vm_compute; reflexivity. Qed.





End IncrementalFacts.

(** ** The digest timeline *)

Module DigestFacts.
Import Py Json Digest.

Lemma keep_first_is_keep_after (identifies : Z -> bool) (l : list turn) :
  keep_first_occurrence identifies l = keep_after identifies [] l.
Proof. reflexivity. Qed.

Lemma keep_after_cons (identifies : Z -> bool) (pre : list turn) (t : turn) (rest : list turn) :
  keep_after identifies pre (t :: rest)
  = (if identifies (turn_id_or_0 t) && bool_decide (turn_id_or_0 t ∈ (turn_id_or_0 <$> pre))
     then [] else [t])
    ++ keep_after identifies (pre ++ [t]) rest.
Proof.
  unfold keep_after. rewrite imap_cons. cbn [omap list_omap take]. rewrite app_nil_r.
  assert (imap ((fun i t0 =>
                   if identifies (turn_id_or_0 t0)
                      && bool_decide (turn_id_or_0 t0 ∈ (turn_id_or_0 <$> (pre ++ take i (t :: rest))))
                   then None else Some t0) ∘ S) rest
          = imap (fun i t0 =>
                   if identifies (turn_id_or_0 t0)
                      && bool_decide (turn_id_or_0 t0 ∈ (turn_id_or_0 <$> ((pre ++ [t]) ++ take i rest)))
                   then None else Some t0) rest) as ->.
  { apply imap_ext. intros i x _. cbn [compose take]. by rewrite <- app_assoc. }
  by destruct (identifies (turn_id_or_0 t) && bool_decide _).
Qed.

Lemma seen_of_snoc (pre : list turn) (t : turn) :
  seen_of (pre ++ [t])
  = if bool_decide (0 < turn_id_or_0 t) then {[ turn_id_or_0 t ]} ∪ seen_of pre else seen_of pre.
Proof.
  unfold seen_of. rewrite fmap_app, filter_app, list_to_set_app_L.
  cbn [fmap list_fmap]. rewrite filter_cons, filter_nil.
  case_bool_decide; destruct (decide _); try done; cbn [list_to_set]; set_solver.
Qed.

Lemma elem_of_seen_of (pre : list turn) (z : Z) :
  z ∈ seen_of pre <-> 0 < z /\ z ∈ (turn_id_or_0 <$> pre).
Proof. unfold seen_of. rewrite elem_of_list_to_set, list_elem_of_filter. done. Qed.

(** The loop of the code keeps the first turn of each positive
    [turn_id], and every turn without one. *)
Lemma dedupe_turns_keep_after (rest pre : list turn) :
  dedupe_turns rest (seen_of pre) = keep_after (fun z => 0 <? z) pre rest.
Proof.
  revert pre. induction rest as [|t rest IH]; intros pre; [done|].
  rewrite keep_after_cons. cbn [dedupe_turns].
  specialize (IH (pre ++ [t])). rewrite seen_of_snoc in IH.
  destruct (Z.ltb_spec 0 (turn_id_or_0 t)) as [Hpos|Hneg]; cbn [andb].
  - rewrite bool_decide_eq_true_2 in IH by done.
    destruct (decide (turn_id_or_0 t ∈ seen_of pre)) as [Hin|Hout].
    + rewrite (bool_decide_eq_true_2 _ Hin).
      apply elem_of_seen_of in Hin as Hin'. destruct Hin' as [_ Hin'].
      rewrite (bool_decide_eq_true_2 _ Hin'). cbn [app].
      rewrite <- IH. f_equal. set_solver.
    + rewrite (bool_decide_eq_false_2 _ Hout).
      rewrite bool_decide_eq_false_2 by (intros Hin; apply Hout, elem_of_seen_of; done).
      cbn [app]. by rewrite IH.
  - rewrite bool_decide_eq_false_2 in IH by lia. cbn [app]. by rewrite IH.
Qed.

Lemma dedupe_turns_length (l : list turn) (seen : gset Z) :
  (length (dedupe_turns l seen) <= length l)%nat.
Proof.
  revert seen. induction l as [|t l IH]; intros seen; [done|].
  cbn [dedupe_turns]. destruct (_ && _); cbn [length].
  - specialize (IH seen). lia.
  - specialize (IH (if 0 <? turn_id_or_0 t then {[turn_id_or_0 t]} ∪ seen else seen)). lia.
Qed.

(** Where every [turn_id] is positive, the guard of the code changes
    nothing. *)
Lemma positive_ids_dedupe_agree (l : list turn) :
  Forall (fun t => 0 < turn_id_or_0 t) l ->
  dedupe_by_positive_turn_id l = dedupe_by_turn_id l.
Proof.
  intros Hpos. unfold dedupe_by_positive_turn_id, dedupe_by_turn_id, keep_first_occurrence.
  f_equal. apply imap_ext. intros i t Hi.
  rewrite Forall_forall in Hpos. specialize (Hpos t).
  destruct (Z.ltb_spec 0 (turn_id_or_0 t)); [done|].
  apply list_elem_of_lookup_2 in Hi. specialize (Hpos Hi). lia.
Qed.

(** C4, as amended. The digest timeline has one item per selected turn,
    in order. With at most 12 turns, all turns are selected. Otherwise the
    selection is [turns[:6] + turns[-6:]] with the later turns dropped
    whose positive [turn_id] was already seen; a turn whose [turn_id] is
    missing, zero or negative is never dropped. In both cases the
    timeline has at most 12 items. *)
Theorem timeline_selection (turns : list turn) :
  let selected := _select_timeline_turns turns 12 in
  let candidates := take 6 turns ++ drop (length turns - 6) turns in
  digest_timeline turns = imap (fun i t => timeline_item_of (S i) t) selected
  /\ ((length turns <= 12)%nat -> selected = turns)
  /\ ((12 < length turns)%nat -> selected = dedupe_by_positive_turn_id candidates)
  /\ ((12 < length turns)%nat -> Forall (fun t => 0 < turn_id_or_0 t) turns ->
      selected = dedupe_by_turn_id candidates)
  /\ (length selected <= 12)%nat
  /\ (length (digest_timeline turns) <= 12)%nat.
Proof.
  intros selected candidates.
  assert ((12 < length turns)%nat -> selected = dedupe_by_positive_turn_id candidates) as Hlong.
  { intros Hlen. unfold selected, _select_timeline_turns.
    destruct (Nat.leb_spec (length turns) 12); [lia|].
    change (12 / 2)%nat with 6%nat. change (12 - 6)%nat with 6%nat.
    unfold last_slice. rewrite bool_decide_eq_false_2 by done.
    unfold dedupe_by_positive_turn_id. rewrite keep_first_is_keep_after.
    apply (dedupe_turns_keep_after _ []). }
  assert ((length turns <= 12)%nat -> selected = turns) as Hshort.
  { intros Hlen. unfold selected, _select_timeline_turns.
    by destruct (Nat.leb_spec (length turns) 12); [|lia]. }
  assert (length selected <= 12)%nat as Hbound.
  { destruct (Nat.le_gt_cases (length turns) 12) as [Hlen|Hlen].
    - by rewrite Hshort.
    - unfold selected, _select_timeline_turns.
      destruct (Nat.leb_spec (length turns) 12); [lia|].
      etransitivity; [apply dedupe_turns_length|].
      rewrite length_app, length_take. unfold last_slice.
      rewrite bool_decide_eq_false_2 by done. rewrite length_drop.
      change (12 / 2)%nat with 6%nat. change (12 - 6)%nat with 6%nat. lia. }
  split; [done|]. split; [done|]. split; [done|].
  split.
  { intros Hlen Hpos. rewrite Hlong by done. apply positive_ids_dedupe_agree.
    apply Forall_app. split; [by apply Forall_take|by apply Forall_drop]. }
  split; [done|]. unfold digest_timeline. by rewrite length_imap.
Qed.

(** C4, as stated, fails: of thirteen turns without a [turn_id] the code
    selects twelve, the first six and the last six, where deduplication by
    [turn_id] would keep one. *)
Lemma untagged_turns_are_not_deduplicated :
  let turns := Examples.thirteen_untagged_turns in
  let candidates := take 6 turns ++ drop (length turns - 6) turns in
  length turns = 13%nat
  /\ _select_timeline_turns turns 12 = candidates
  /\ length (_select_timeline_turns turns 12) = 12%nat
  /\ length (dedupe_by_turn_id candidates) = 1%nat
  /\ _select_timeline_turns turns 12 <> dedupe_by_turn_id candidates.
Proof.
  intros turns candidates.
  split; [reflexivity|]. split; [vm_compute; reflexivity|].
  split; [vm_compute; reflexivity|]. split; [vm_compute; reflexivity|].
  intros E. apply (f_equal length) in E. vm_compute in E. discriminate.
Qed.

(** Thirteen turns numbered from 1: the turn in the middle is left out. *)
Example numbered_turns_timeline :
  item_turn_id <$> digest_timeline Examples.thirteen_numbered_turns
  = [1; 2; 3; 4; 5; 6; 8; 9; 10; 11; 12; 13].
Proof. vm_compute. reflexivity. Qed.

End DigestFacts.

(** ** Chunking of the incremental pass *)

Module ChunkFacts.
Import Py Json Store Runtime PyFacts JsonFacts.

Lemma chunks_upto (items : list dict) (k : nat) :
  concat (map (chunk_session_items items) (seq 0 k)) = take (k * _INCREMENTAL_CHUNK_SIZE) items.
Proof.
  induction k as [|k IH]; [done|].
  rewrite seq_S, map_app, concat_app, IH. cbn [map concat Nat.add]. rewrite app_nil_r.
  unfold chunk_session_items, slice, _INCREMENTAL_CHUNK_SIZE.
  rewrite take_take_drop.
  destruct (Nat.le_gt_cases (k * 24 + 24) (length items)) as [Hle|Hgt].
  - rewrite Nat.min_l by done. f_equal. lia.
  - rewrite Nat.min_r by lia.
    rewrite (take_ge items (S k * 24)) by lia. apply take_ge. lia.
Qed.

(** The chunks are contiguous and cover the sessions. *)
Lemma chunks_cover (items : list dict) :
  concat (map (chunk_session_items items) (seq 0 (total_chunks_of (length items)))) = items.
Proof.
  rewrite chunks_upto. apply take_ge.
  unfold total_chunks_of, _INCREMENTAL_CHUNK_SIZE.
  pose proof (Nat.div_mod_eq (length items + 24 - 1) 24).
  pose proof (Nat.mod_upper_bound (length items + 24 - 1) 24). lia.
Qed.

Lemma chunk_length (items : list dict) (i : nat) :
  (length (chunk_session_items items i) <= _INCREMENTAL_CHUNK_SIZE)%nat.
Proof.
  unfold chunk_session_items, slice. rewrite length_take, length_drop. lia.
Qed.

Lemma get_chunk_sessions (incremental_input : dict) (items : list dict) :
  get (chunk_input_of incremental_input items) (u "sessions") = JList (map JObj items).
Proof.
  unfold chunk_input_of. rewrite get_set_ne by (intros H; vm_compute in H; discriminate H).
  apply get_set_eq.
Qed.

Lemma get_merge_input (incremental_input : dict) (reports : list json) :
  get (merge_input_of incremental_input reports) (u "sessions") = JList []
  /\ get (merge_input_of incremental_input reports) (u "chunk_reports") = JList reports.
Proof.
  unfold merge_input_of. split; [|apply get_set_eq].
  rewrite get_set_ne by (intros H; vm_compute in H; discriminate H). apply get_set_eq.
Qed.

Section Loop.
Context {W : Type}.
Context (infer_once : pystr -> dict -> W -> result json * W).
Context (json_dumps : json -> pystr).

(** The chunk loop calls the provider chunk by chunk, in order. When it
    ends without an exception, every chunk was run, its result was written
    to its chunk file and gave one chunk report. *)
Lemma chunk_loop_calls (run_dir : path) (skill_prompt : pystr) (incremental_input : dict)
    (total_chunks todo : nat) :
  forall (chunk_idx : nat) (s s' : loop_state) (r : result unit),
  chunk_loop infer_once json_dumps run_dir skill_prompt incremental_input
             (session_items_of incremental_input) total_chunks todo chunk_idx s = (r, s') ->
  exists done_chunks,
    (done_chunks <= todo)%nat
    /\ loop_calls s'
       = loop_calls s ++ map (chunk_call skill_prompt incremental_input) (seq chunk_idx done_chunks)
    /\ (todo <> 0%nat -> done_chunks <> 0%nat)
    /\ (r = Ok () ->
        done_chunks = todo
        /\ length (chunk_reports s') = (length (chunk_reports s) + todo)%nat
        /\ write_targets (trace (loop_fs s'))
           = write_targets (trace (loop_fs s))
             ++ map (fun i => chunk_file run_dir i total_chunks) (seq chunk_idx todo)).
Proof.
  induction todo as [|todo IH]; intros chunk_idx s s' r Hloop.
  - injection Hloop as <- <-. exists 0%nat. rewrite !app_nil_r. repeat split; lia.
  - cbn [chunk_loop] in Hloop.
    destruct (infer_once _ _ (loop_world s)) as [raw_chunk w'] eqn:Hcall.
    destruct raw_chunk as [raw|exc].
    + case_bool_decide as Hempty.
      * injection Hloop as <- <-. exists 1%nat. cbn [loop_calls].
        repeat split; try lia; try done.
      * apply IH in Hloop as (k & Hk & Hcalls & _ & Hok).
        exists (S k). cbn [loop_calls loop_fs chunk_reports] in *.
        split; [lia|]. split.
        { rewrite Hcalls, <- app_assoc. done. }
        split; [lia|]. intros ->.
        destruct (Hok eq_refl) as (-> & Hlen & Htargets).
        split; [done|]. split.
        { rewrite Hlen, length_app. cbn [length]. lia. }
        rewrite Htargets. unfold _write_json. cbn [write_text mkdir trace].
        unfold write_targets. rewrite !omap_app. cbn [omap list_omap].
        rewrite <- !app_assoc. done.
    + injection Hloop as <- <-. exists 1%nat. cbn [loop_calls].
      repeat split; try lia; try done.
Qed.

(** C5. In the incremental pass the Skill is invoked once, on the whole
    input, when there are at most 24 sessions. With more, the sessions are
    split into contiguous chunks of at most 24 (25 sessions give 2
    chunks); the chunks are run in order with the shard-constraint
    postamble, each result is written to its chunk file, and after the
    last chunk one aggregation call is made whose input has no sessions
    and a [chunk_reports] list with one entry per chunk. A chunk that
    fails ends the pass with exit code 1 before the aggregation. *)
Theorem incremental_pass_is_chunked (run_dir : path) (provider_name skill_prompt : pystr)
    (incremental_input : dict) (w : W) (fs : fs_state) :
  let items := session_items_of incremental_input in
  let total := total_chunks_of (length items) in
  let run := run_incremental_inference infer_once json_dumps run_dir provider_name
               skill_prompt incremental_input w fs in
  ((length items <= 24)%nat -> run_calls run = [(skill_prompt, incremental_input)])
  /\ concat (map (chunk_session_items items) (seq 0 total)) = items
  /\ (forall i, (length (chunk_session_items items i) <= 24)%nat
                /\ get (snd (chunk_call skill_prompt incremental_input i)) (u "sessions")
                   = JList (map JObj (chunk_session_items items i)))
  /\ (length items = 24%nat -> total = 1%nat)
  /\ (length items = 25%nat -> total = 2%nat)
  /\ (exists postamble, chunk_prompt_of skill_prompt = skill_prompt ++ postamble
                        /\ contains (u "[分片执行约束]") postamble = true)
  /\ ((24 < length items)%nat ->
      (exists done_chunks,
          (1 <= done_chunks <= total)%nat /\ run_rc run = 1
          /\ run_calls run = map (chunk_call skill_prompt incremental_input) (seq 0 done_chunks))
      \/ (exists reports,
          length reports = total
          /\ run_calls run
             = map (chunk_call skill_prompt incremental_input) (seq 0 total)
               ++ [merge_call skill_prompt incremental_input reports]
          /\ get (snd (merge_call skill_prompt incremental_input reports)) (u "sessions")
             = JList []
          /\ get (snd (merge_call skill_prompt incremental_input reports)) (u "chunk_reports")
             = JList reports
          /\ write_targets (trace (run_fs run))
             = write_targets (trace fs)
               ++ map (fun i => chunk_file run_dir i total) (seq 0 total)
               ++ (if run_rc run =? 0 then [result_file_of run_dir provider_name] else []))).
Proof.
  intros items total run.
  assert (forall n, (24 < n)%nat -> (1 <= total_chunks_of n)%nat) as Htotal.
  { intros n Hn. unfold total_chunks_of, _INCREMENTAL_CHUNK_SIZE.
    pose proof (Nat.div_mod_eq (n + 24 - 1) 24).
    pose proof (Nat.mod_upper_bound (n + 24 - 1) 24). lia. }
  split.
  { intros Hlen. unfold run, run_incremental_inference. fold items.
    unfold _INCREMENTAL_CHUNK_SIZE.
    destruct (Nat.ltb_spec 24 (length items)); [lia|]. cbn [negb].
    destruct (infer_once skill_prompt incremental_input w) as [[answer|exc] w']; done. }
  split; [apply chunks_cover|].
  split; [intros i; split; [apply chunk_length|apply get_chunk_sessions]|].
  split; [intros E; unfold total; by rewrite E|].
  split; [intros E; unfold total; by rewrite E|].
  split.
  { eexists. split; [reflexivity|]. vm_compute. reflexivity. }
  intros Hlen. unfold run, run_incremental_inference. fold items.
  unfold _INCREMENTAL_CHUNK_SIZE. destruct (Nat.ltb_spec 24 (length items)); [|lia].
  cbn [negb]. fold total.
  destruct (chunk_loop _ _ _ _ _ _ _ _ _ _) as [r s] eqn:Hloop.
  apply chunk_loop_calls in Hloop as (k & Hk & Hcalls & Hsome & Hok).
  cbn [loop_calls chunk_reports loop_fs trace app] in *.
  specialize (Htotal _ Hlen). fold items in Htotal. fold total in Htotal.
  destruct r as [[]|exc].
  - right. destruct (Hok eq_refl) as (-> & Hreports & Htargets).
    exists (chunk_reports s). split; [done|].
    destruct (get_merge_input incremental_input (chunk_reports s)) as [Hs Hr].
    destruct (infer_once _ _ (loop_world s)) as [[answer|exc] w'];
      cbn [run_calls run_fs run_rc]; rewrite Hcalls; (split; [done|]);
      (split; [exact Hs|]); (split; [exact Hr|]).
    + unfold _write_json. cbn [write_text mkdir trace Z.eqb].
      unfold write_targets in *. rewrite !omap_app, Htargets. cbn [omap list_omap].
      by rewrite <- !app_assoc.
    + cbn [Z.eqb]. by rewrite Htargets, app_nil_r.
  - left. exists k. cbn [run_calls run_rc].
    split; [split; [|done]|by split].
    specialize (Hsome ltac:(lia)). lia.
Qed.

End Loop.

(** 25 sessions: two chunks of 24 and 1 sessions, then the aggregation
    call without sessions; 24 sessions: one call on the whole input. *)
Example pass_of_25_sessions :
  let run := run_incremental_inference (steady_provider (JObj Examples.valid_incremental))
               dumps_repr (path_join _SKILL_JOBS_DIR (u "inc-run")) (u "claude_cli")
               (u "skill") (Examples.incremental_input_of 25) tt Examples.empty_fs in
  run_rc run = 0
  /\ map (fun c => length (session_items_of (snd c))) (run_calls run) = [24; 1; 0]%nat
  /\ write_targets (trace (run_fs run))
     = map (path_join (path_join _SKILL_JOBS_DIR (u "inc-run")))
           [ u "incremental_chunk_01_of_02.json"; u "incremental_chunk_02_of_02.json";
             u "incremental_api_claude_cli_result.json" ].
Proof. vm_compute. done. Qed.

Example pass_of_24_sessions :
  let run := run_incremental_inference (steady_provider (JObj Examples.valid_incremental))
               dumps_repr (path_join _SKILL_JOBS_DIR (u "inc-run")) (u "claude_cli")
               (u "skill") (Examples.incremental_input_of 24) tt Examples.empty_fs in
  run_rc run = 0
  /\ map (fun c => length (session_items_of (snd c))) (run_calls run) = [24]%nat.
Proof. vm_compute. done. Qed.

End ChunkFacts.

(** ** Retries *)

Module RetryFacts.
Import Py Json Runtime PyFacts.

Lemma claude_markers (exc : exn) :
  _is_retryable_claude_error exc
  = contains_any [u "timed out"; u "failed rc=1"; u "no json object found"]
                 (lower (exn_text exc)).
Proof.
  unfold _is_retryable_claude_error, contains_any. cbn [existsb].
  by rewrite orb_false_r, orb_assoc.
Qed.

Lemma codex_markers (exc : exn) :
  _is_retryable_codex_error exc = contains_any spec_markers (lower (exn_text exc)).
Proof.
  unfold _is_retryable_codex_error, contains_any, spec_markers. cbn [existsb].
  by rewrite orb_false_r, !orb_assoc.
Qed.

Section Policy.
Context {W A : Type}.
Context (call : provider -> W -> result A * W).

(** The retry loop makes at most [remaining + 1] calls, and sleeps
    [min(2 ** attempt, 4)] seconds before each call but the first. *)
Lemma retry_loop_bounds (p : provider) (retryable : exn -> bool) (remaining : nat) :
  forall (attempt : nat) (w : W),
  let log := retry_loop call p retryable remaining attempt w in
  (1 <= calls log <= remaining + 1)%nat
  /\ sleeps log = map backoff (seq attempt (calls log - 1)).
Proof.
  induction remaining as [|remaining IH]; intros attempt w; cbn [retry_loop].
  - destruct (call p w) as [[a|exc] w']; cbn [calls sleeps]; split; (lia || done).
  - destruct (call p w) as [[a|exc] w']; [cbn [calls sleeps]; split; (lia || done)|].
    destruct (retryable exc); cbn [negb calls sleeps]; [|split; (lia || done)].
    destruct (IH (S attempt) w') as [Hcalls Hsleeps].
    split; [lia|]. rewrite Hsleeps.
    replace (S (calls (retry_loop call p retryable remaining (S attempt) w')) - 1)%nat
      with (S (calls (retry_loop call p retryable remaining (S attempt) w') - 1)) by lia.
    reflexivity.
Qed.

Lemma backoff_capped (attempt : nat) : 1 <= backoff attempt <= 4.
Proof.
  unfold backoff. split; [|lia].
  apply Z.min_glb; [|lia].
  pose proof (Z.pow_pos_nonneg 2 (Z.of_nat attempt)). lia.
Qed.

(** A failed first call is retried exactly when the loop has retries
    left and the error is retryable; else the error is raised at once. *)
Lemma retry_loop_first_failure (p : provider) (retryable : exn -> bool)
    (remaining attempt : nat) (w w' : W) (exc : exn) :
  call p w = (Raise exc, w') ->
  let log := retry_loop call p retryable remaining attempt w in
  ((2 <= calls log)%nat <-> remaining <> 0%nat /\ retryable exc = true)
  /\ (retryable exc = false ->
      outcome log = Raise exc /\ calls log = 1%nat /\ sleeps log = [] /\ world_after log = w').
Proof.
  intros Hcall. destruct remaining as [|remaining]; cbn [retry_loop]; rewrite Hcall.
  - cbn [calls outcome sleeps world_after]. split; [split; [lia|by intros [? _]]|done].
  - destruct (retryable exc); cbn [negb calls outcome sleeps world_after].
    + pose proof (retry_loop_bounds p retryable remaining (S attempt) w') as [Hb _].
      split; [split; [done|lia]|done].
    + split; [split; [lia|by intros [_ ?]]|done].
Qed.

(** C1, as amended. For the local-CLI providers each inference call is
    wrapped in up to 2 retries (3 attempts), with a pause of
    [min(2 ** attempt, 4)] seconds, at most 4, before each retry. A failed
    attempt is retried only when its error text, lowercased, contains
    [timed out], [failed rc=1] or [no json object found] and, for
    codex_cli alone, [rate limit]; any other error is raised at once. For
    openai and anthropic the call is made once and its error is raised
    without retry. *)
Theorem retry_policy (p : provider) (w : W) :
  let log := infer call p w in
  (1 <= calls log <= 3)%nat
  /\ sleeps log = map backoff (seq 0 (calls log - 1))
  /\ Forall (fun pause => 1 <= pause <= 4) (sleeps log)
  /\ (forall exc, retryable_for p exc = true ->
                  contains_any spec_markers (lower (exn_text exc)) = true)
  /\ (forall exc, retryable_for codex_cli exc = contains_any spec_markers (lower (exn_text exc)))
  /\ (forall exc, retryable_for claude_cli exc
                  = contains_any [u "timed out"; u "failed rc=1"; u "no json object found"]
                                 (lower (exn_text exc)))
  /\ (forall exc w', call p w = (Raise exc, w') ->
        ((2 <= calls log)%nat <-> retryable_for p exc = true)
        /\ (retryable_for p exc = false ->
            outcome log = Raise exc /\ calls log = 1%nat /\ sleeps log = []
            /\ world_after log = w'))
  /\ (p = openai \/ p = anthropic ->
      calls log = 1%nat /\ sleeps log = [] /\ (outcome log, world_after log) = call p w).
Proof.
  intros log.
  assert ((1 <= calls log <= 3)%nat /\ sleeps log = map backoff (seq 0 (calls log - 1)))
    as [Hcalls Hsleeps].
  { unfold log, infer, _infer_claude_with_retries, _infer_codex_with_retries, infer_remote.
    destruct p; try apply retry_loop_bounds;
      destruct (call _ w) as [r w']; cbn [calls sleeps]; split; (lia || done). }
  split; [done|]. split; [done|].
  split.
  { rewrite Hsleeps. apply Forall_fmap, Forall_forall. intros k _. apply backoff_capped. }
  split.
  { intros exc. destruct p; cbn [retryable_for]; try done.
    - unfold _is_retryable_claude_error, contains_any, spec_markers. cbn [existsb].
      destruct (contains (u "timed out") _), (contains (u "failed rc=1") _),
        (contains (u "no json object found") _); cbn [orb]; done.
    - by rewrite codex_markers. }
  split; [apply codex_markers|]. split; [apply claude_markers|].
  split.
  { intros exc w' Hcall.
    unfold log, infer, _infer_claude_with_retries, _infer_codex_with_retries, infer_remote.
    destruct p; cbn [retryable_for].
    - destruct (retry_loop_first_failure claude_cli _is_retryable_claude_error 2 0 w w' exc Hcall)
        as [Hiff Himm].
      split; [|exact Himm]. rewrite Hiff. split; [by intros [_ ?]|done].
    - destruct (retry_loop_first_failure codex_cli _is_retryable_codex_error 2 0 w w' exc Hcall)
        as [Hiff Himm].
      split; [|exact Himm]. rewrite Hiff. split; [by intros [_ ?]|done].
    - rewrite Hcall. cbn [calls outcome sleeps world_after]. split; [split; [lia|done]|done].
    - rewrite Hcall. cbn [calls outcome sleeps world_after]. split; [split; [lia|done]|done]. }
  intros [-> | ->]; unfold log, infer, infer_remote;
    destruct (call _ w) as [r w']; done.
Qed.

End Policy.

(** C1, as stated, fails: a first call that fails with a rate-limit error
    is not retried for openai, anthropic and claude_cli, where the retry
    loop of the claim makes a second call, which succeeds; codex_cli is
    retried. *)
Lemma rate_limit_is_not_retried :
  let text := u "HTTP 429: Rate limit exceeded" in
  spec_retryable (Exn RuntimeError text) = true
  /\ (forall p, p <> codex_cli ->
        calls (infer rate_limited_once p 0%nat) = 1%nat
        /\ outcome (infer rate_limited_once p 0%nat) = Raise (Exn RuntimeError text)
        /\ calls (spec_infer rate_limited_once p 0%nat) = 2%nat
        /\ outcome (spec_infer rate_limited_once p 0%nat) = Ok (JObj [])
        /\ infer rate_limited_once p 0%nat <> spec_infer rate_limited_once p 0%nat)
  /\ infer rate_limited_once codex_cli 0%nat = spec_infer rate_limited_once codex_cli 0%nat.
Proof.
  intros text. split; [vm_compute; reflexivity|]. split.
  - intros p Hp. destruct p; try done; vm_compute; repeat split; discriminate.
  - vm_compute. reflexivity.
Qed.

End RetryFacts.

(** ** The report index and its duplicates *)

Module SyncFacts.
Import Py Json Sync PyFacts.

(** The string order is a total preorder. *)
Lemma str_leb_refl (s : pystr) : str_leb s s = true.
Proof. induction s as [|c s IH]; [done|]. simpl. by rewrite N.ltb_irrefl. Qed.

Lemma str_leb_total (s t : pystr) : str_leb s t = true \/ str_leb t s = true.
Proof.
  revert t. induction s as [|a s IH]; intros [|b t]; simpl; auto.
  destruct (N.ltb_spec a b), (N.ltb_spec b a); auto; lia.
Qed.

Lemma str_leb_trans (s t r : pystr) :
  str_leb s t = true -> str_leb t r = true -> str_leb s r = true.
Proof.
  revert t r. induction s as [|a s IH]; intros [|b t] [|c r]; simpl; try done.
  destruct (N.ltb_spec a b), (N.ltb_spec b a), (N.ltb_spec b c), (N.ltb_spec c b),
    (N.ltb_spec a c), (N.ltb_spec c a); try done; try lia.
  apply IH.
Qed.

Section SortedHead.
Context {A K : Type} (key : A -> K) (leb : K -> K -> bool).

Lemma elem_of_insert_sorted (x y : A) (l : list A) :
  x ∈ insert_sorted key leb y l <-> x = y \/ x ∈ l.
Proof.
  induction l as [|z l IH]; simpl.
  - rewrite list_elem_of_singleton. set_solver.
  - destruct (leb (key y) (key z)); rewrite !elem_of_cons; [done|].
    rewrite IH. tauto.
Qed.

Lemma elem_of_py_sorted (x : A) (l : list A) : x ∈ py_sorted key leb l <-> x ∈ l.
Proof.
  induction l as [|y l IH]; [done|]. unfold py_sorted in *. cbn [foldr].
  rewrite elem_of_insert_sorted, IH, elem_of_cons. done.
Qed.

Lemma head_insert_sorted (x : A) (l : list A) :
  head (insert_sorted key leb x l)
  = match head l with
    | None => Some x
    | Some y => if leb (key x) (key y) then Some x else Some y
    end.
Proof. destruct l as [|y l]; [done|]. simpl. by destruct (leb (key x) (key y)). Qed.

Context (leb_refl : forall k, leb k k = true).
Context (leb_total : forall k1 k2, leb k1 k2 = true \/ leb k2 k1 = true).
Context (leb_trans : forall k1 k2 k3, leb k1 k2 = true -> leb k2 k3 = true -> leb k1 k3 = true).

(** The head of a sorted list is one of its elements and comes first in
    the order. *)
Lemma head_py_sorted (l : list A) :
  l <> [] ->
  exists m, head (py_sorted key leb l) = Some m
            /\ m ∈ l
            /\ forall y, y ∈ l -> leb (key m) (key y) = true.
Proof using leb_refl leb_total leb_trans.
  induction l as [|x l IH]; [done|]. intros _.
  unfold py_sorted in *. cbn [foldr]. rewrite head_insert_sorted.
  destruct l as [|x' l'].
  - exists x. cbn. split; [done|]. split; [apply list_elem_of_here|].
    intros y Hy. apply list_elem_of_singleton in Hy as ->. apply leb_refl.
  - destruct IH as (m & -> & Hm & Hmin); [done|].
    destruct (leb (key x) (key m)) eqn:E.
    + exists x. split; [done|]. split; [apply list_elem_of_here|].
      intros y Hy. apply elem_of_cons in Hy as [->|Hy]; [apply leb_refl|].
      eapply leb_trans; [exact E|by apply Hmin].
    + exists m. split; [done|]. split; [by apply list_elem_of_further|].
      intros y Hy. apply elem_of_cons in Hy as [->|Hy]; [|by apply Hmin].
      destruct (leb_total (key m) (key x)); congruence.
Qed.

End SortedHead.

Lemma contains_cjk_spec (text : pystr) :
  _contains_cjk text = true <-> exists c, c ∈ text /\ is_cjk c.
Proof.
  unfold _contains_cjk, is_cjk. rewrite existsb_exists. split.
  - intros (c & Hin & Hc). exists c. apply list_elem_of_In in Hin.
    apply andb_true_iff in Hc as [H1 H2]. apply N.leb_le in H1, H2. done.
  - intros (c & Hin & H1 & H2). exists c. split; [by apply list_elem_of_In|].
    apply andb_true_iff. split; by apply N.leb_le.
Qed.

(** The keeper of a group: it is in the pool, and no page of the pool was
    edited later. *)
Lemma keeper_of_spec (items : list page_item) :
  items <> [] ->
  exists keeper,
    keeper_of items = Some keeper
    /\ keeper ∈ pool_of items
    /\ forall item, item ∈ pool_of items -> no_later item keeper.
Proof.
  intros Hne. unfold keeper_of, sorted_desc.
  assert (pool_of items <> []) as Hpool.
  { unfold pool_of. case_bool_decide; done. }
  destruct (head_py_sorted item_sort_key (fun a b => str_leb b a)
              (fun k => str_leb_refl k) (fun k1 k2 => str_leb_total k2 k1)
              (fun k1 k2 k3 H1 H2 => str_leb_trans k3 k2 k1 H2 H1)
              (pool_of items) Hpool) as (m & Hhead & Hin & Hmax).
  exists m. done.
Qed.

(** The pool: the pages with CJK text when there are some, else all. *)
Lemma pool_of_spec (items : list page_item) (item : page_item) :
  item ∈ pool_of items <->
  item ∈ items /\ ((exists other, other ∈ items /\ is_zh other = true) -> is_zh item = true).
Proof.
  unfold pool_of. case_bool_decide as E.
  - split; [|by intros [? _]]. intros Hin. split; [done|].
    intros (other & Hother & Hzh).
    assert (other ∈ filter (fun item => is_zh item = true) items) as H
      by (apply list_elem_of_filter; done).
    rewrite E in H. by apply elem_of_nil in H.
  - rewrite list_elem_of_filter. split.
    + intros [Hzh Hin]. done.
    + intros [Hin Hzh]. split; [|done]. apply Hzh.
      destruct (filter _ items) as [|x l] eqn:F; [done|].
      assert (x ∈ filter (fun item => is_zh item = true) items) as Hx
        by (rewrite F; apply list_elem_of_here).
      apply list_elem_of_filter in Hx as [Hx1 Hx2]. by exists x.
Qed.

Lemma duplicates_of_spec (key : report_key) (keeper item : page_item) (items : list page_item) :
  item ∈ items -> item_id item <> [] -> item_id item <> item_id keeper ->
  exists d, d ∈ duplicates_of key keeper items
            /\ dup_page_id d = item_id item /\ dup_title d = item_title item.
Proof.
  intros Hin Hid Hne. unfold duplicates_of.
  eexists. split.
  - apply list_elem_of_omap. exists item. split; [done|].
    rewrite !bool_decide_eq_false_2 by done. reflexivity.
  - done.
Qed.

Lemma duplicates_of_ids (key : report_key) (keeper : page_item) (items : list page_item)
    (d : duplicate) :
  d ∈ duplicates_of key keeper items ->
  dup_page_id d <> item_id keeper /\ exists item, item ∈ items /\ item_id item = dup_page_id d.
Proof.
  unfold duplicates_of. intros H. apply list_elem_of_omap in H as (item & Hin & H).
  repeat case_bool_decide; simpl in H; try discriminate.
  injection H as <-. split; [done|]. by exists item.
Qed.

Import BackfillFacts.

Lemma item_of_page_filed (page : json) (key : report_key) (item : page_item) :
  item_of_page page = Ok (Some (key, item)) -> filed_item item.
Proof.
  unfold item_of_page. intros H.
  apply bind_ok in H as (props & _ & H).
  apply bind_ok in H as (dim_prop & _ & H).
  apply bind_ok in H as (dimension & _ & H).
  apply bind_ok in H as (period_prop & _ & H).
  apply bind_ok in H as (period & _ & H).
  destruct (_ || _); [discriminate|].
  apply bind_ok in H as (title_prop & _ & H).
  apply bind_ok in H as (title & _ & H).
  apply bind_ok in H as (insights_prop & _ & H).
  apply bind_ok in H as (insights & _ & H).
  apply bind_ok in H as (id & _ & H).
  apply bind_ok in H as (sort_key & _ & H).
  cbn [item_id] in H. case_bool_decide as Hid; [discriminate|].
  injection H as _ <-. split; [exact Hid|reflexivity].
Qed.

Lemma group_add_ok (grouped : list (report_key * list page_item)) (key : report_key)
    (item : page_item) :
  groups_ok grouped -> filed_item item -> groups_ok (group_add grouped key item).
Proof.
  unfold groups_ok. intros Hok Hitem.
  induction grouped as [|[k items] rest IH]; cbn [group_add].
  - constructor; [|constructor]. cbn [snd]. split; [done|]. by constructor.
  - apply Forall_cons in Hok as [[Hne Hitems] Hrest]. case_bool_decide.
    + constructor; [|done]. cbn [snd] in *. split; [by destruct items|].
      apply Forall_app. split; [done|by constructor].
    + constructor; [done|by apply IH].
Qed.

Lemma group_pages_ok (pages : list json) :
  forall grouped grouped',
  group_pages pages grouped = Ok grouped' -> groups_ok grouped -> groups_ok grouped'.
Proof.
  induction pages as [|page pages IH]; intros grouped grouped' H Hok; cbn [group_pages] in H.
  - by injection H as <-.
  - apply bind_ok in H as (filed & Hfiled & H).
    destruct filed as [[key item]|]; [|by apply (IH grouped)].
    apply (IH _ _ H). apply group_add_ok; [done|].
    by apply (item_of_page_filed page key).
Qed.

(** The index names the keeper of every group, and the duplicates are the
    other pages of the groups. *)
Lemma index_groups_spec (grouped : list (report_key * list page_item)) :
  groups_ok grouped ->
  forall index duplicates, index_groups grouped = (index, duplicates) ->
  (forall key items, (key, items) ∈ grouped ->
     exists keeper, keeper_of items = Some keeper
                    /\ (key, item_id keeper) ∈ index
                    /\ forall d, d ∈ duplicates_of key keeper items -> d ∈ duplicates)
  /\ (forall d, d ∈ duplicates ->
       exists key items keeper,
         (key, items) ∈ grouped /\ keeper_of items = Some keeper
         /\ d ∈ duplicates_of key keeper items).
Proof.
  unfold groups_ok.
  induction grouped as [|[k its] rest IH]; intros Hok index duplicates H; cbn [index_groups] in H.
  - injection H as <- <-. split; [intros ? ? Hin|intros ? Hin]; by apply elem_of_nil in Hin.
  - apply Forall_cons in Hok as [[Hne _] Hrest]. cbn [snd] in Hne.
    destruct (index_groups rest) as [index0 dups0] eqn:Hrec.
    destruct (IH Hrest _ _ eq_refl) as [IH1 IH2].
    destruct (keeper_of_spec its Hne) as (keeper & Hkeeper & _).
    rewrite Hkeeper in H. injection H as <- <-. split.
    + intros key items Hin. apply elem_of_cons in Hin as [[= -> ->]|Hin].
      * exists keeper. split; [done|]. split; [apply list_elem_of_here|].
        intros d Hd. apply elem_of_app. by left.
      * destruct (IH1 _ _ Hin) as (kp & Hkp & Hidx & Hdups).
        exists kp. split; [done|]. split; [by apply list_elem_of_further|].
        intros d Hd. apply elem_of_app. right. by apply Hdups.
    + intros d Hd. apply elem_of_app in Hd as [Hd|Hd].
      * exists k, its, keeper. split; [apply list_elem_of_here|done].
      * destruct (IH2 _ Hd) as (key & items & kp & Hin & Hkp & Hdup).
        exists key, items, kp. split; [by apply list_elem_of_further|done].
Qed.

Section Client.
Context {W : Type}.
Context (archive_page : pystr -> W -> result unit * W).
Context (update_page : pystr -> dict -> W -> result unit * W).
Context (create_page : dict -> W -> result pystr * W).

(** The archive loop calls the client for every duplicate, in order, and
    counts the calls that failed. *)
Lemma archive_log (duplicates : list duplicate) :
  forall w archived failed log w',
  _archive_duplicate_pages archive_page duplicates w = (archived, failed, log, w') ->
  Forall is_archive_call log
  /\ omap archived_id log = ids_to_archive duplicates
  /\ (Exists failed_archive log <-> failed <> 0%nat).
Proof.
  induction duplicates as [|d rest IH]; intros w archived failed log w' H;
    cbn [_archive_duplicate_pages] in H.
  - injection H as <- <- <- <-. split; [constructor|]. split; [done|].
    rewrite Exists_nil. done.
  - unfold ids_to_archive in *. cbn [map]. rewrite filter_cons.
    case_bool_decide as Hid.
    + case_decide; [done|]. by apply (IH w archived failed log w').
    + case_decide; [|done].
      destruct (archive_page (strip (dup_page_id d)) w) as [r w1].
      destruct (_archive_duplicate_pages archive_page rest w1) as [[[a f] l] w2] eqn:Hrec.
      destruct (IH _ _ _ _ _ Hrec) as (Hall & Hids & Hfail).
      destruct r as [[]|exc]; cbn [succeeded] in H; injection H as <- <- <- <-.
      * split; [by constructor|]. split; [cbn; by rewrite Hids|].
        rewrite Exists_cons. cbn [failed_archive]. tauto.
      * split; [by constructor|]. split; [cbn; by rewrite Hids|].
        rewrite Exists_cons. cbn [failed_archive]. split; [done|auto].
Qed.

Lemma write_log (reports : list dict) :
  forall index w written log w',
  write_reports update_page create_page reports index w = (written, log, w') ->
  Forall is_write_call log.
Proof.
  induction reports as [|report rest IH]; intros index w written log w' H;
    cbn [write_reports] in H.
  - injection H as <- <- <-. constructor.
  - destruct (_write_report update_page create_page report index w)
      as [[[ok index'] l1] w1] eqn:Hw.
    destruct (write_reports update_page create_page rest index' w1) as [[n l2] w2] eqn:Hrec.
    injection H as <- <- <-. apply Forall_app. split; [|by apply (IH _ _ _ _ _ Hrec)].
    unfold _write_report in Hw. destruct (index_get index (_report_key report)).
    + destruct (update_page _ _ w) as [r w0]. injection Hw as <- <- <- <-. by repeat constructor.
    + destruct (create_page _ w) as [[id|exc] w0]; injection Hw as <- <- <- <-;
        by repeat constructor.
Qed.

Lemma is_zh_spec (item : page_item) :
  filed_item item -> (is_zh item = true <-> has_cjk_text item).
Proof.
  intros [_ ->]. unfold has_cjk_text. rewrite orb_true_iff, !contains_cjk_spec. split.
  - intros [(c & Hin & Hc)|(c & Hin & Hc)]; exists c; (split; [|done]);
      apply elem_of_app; auto.
  - intros (c & Hin & Hc). apply elem_of_app in Hin as [Hin|Hin]; [left|right]; by exists c.
Qed.

(** C9. The existing pages are grouped by the key (dimension, period). The
    keeper of a group is taken among its pages with a CJK character
    (U+4E00 to U+9FFF) in the title or the key insights when there are
    such pages, else among all its pages, and no page it is taken among
    was edited later. Every other page of the group is recorded as a
    duplicate. The synchronizer archives the duplicates before it writes
    any report, and when an archive call fails it exits with a non-zero
    code and writes nothing. *)
Theorem keepers_and_duplicates (pages : list json) (reports : list dict) (w : W) :
  (forall index duplicates,
     _build_report_index_and_duplicates pages = Ok (index, duplicates) ->
     exists grouped,
       group_pages pages [] = Ok grouped
       /\ (forall key items, (key, items) ∈ grouped ->
           exists keeper,
             keeper ∈ items
             /\ (key, item_id keeper) ∈ index
             /\ ((exists other, other ∈ items /\ has_cjk_text other) ->
                 has_cjk_text keeper
                 /\ forall item, item ∈ items -> has_cjk_text item -> no_later item keeper)
             /\ (~ (exists other, other ∈ items /\ has_cjk_text other) ->
                 forall item, item ∈ items -> no_later item keeper)
             /\ (forall item, item ∈ items -> item_id item <> item_id keeper ->
                 exists d, d ∈ duplicates /\ dup_page_id d = item_id item))
       /\ (forall d, d ∈ duplicates ->
           exists key items keeper,
             (key, items) ∈ grouped /\ (key, item_id keeper) ∈ index
             /\ keeper ∈ items /\ dup_page_id d <> item_id keeper
             /\ exists item, item ∈ items /\ item_id item = dup_page_id d))
  /\ (forall rc log w',
       sync_with_client archive_page update_page create_page pages reports w
         = Ok (rc, log, w') ->
       exists index duplicates archive_calls write_calls,
         _build_report_index_and_duplicates pages = Ok (index, duplicates)
         /\ log = archive_calls ++ write_calls
         /\ Forall is_archive_call archive_calls
         /\ omap archived_id archive_calls = ids_to_archive duplicates
         /\ Forall is_write_call write_calls
         /\ (Exists failed_archive log -> rc <> 0 /\ write_calls = [])).
Proof.
  split.
  - intros index duplicates H. unfold _build_report_index_and_duplicates in H.
    apply bind_ok in H as (grouped & Hgrouped & H). apply ok_inj in H.
    assert (groups_ok grouped) as Hok by (apply (group_pages_ok pages [] _ Hgrouped); constructor).
    destruct (index_groups_spec grouped Hok _ _ H) as [Hkeep Hdups].
    exists grouped. split; [done|]. split.
    + intros key items Hin.
      destruct (Hkeep key items Hin) as (keeper & Hkeeper & Hidx & Hsub).
      assert (items <> [] /\ Forall filed_item items) as [Hne Hfiled].
      { unfold groups_ok in Hok. rewrite Forall_forall in Hok. apply (Hok _ Hin). }
      rewrite Forall_forall in Hfiled.
      destruct (keeper_of_spec items Hne) as (k & Hk & Hpool & Hmax).
      rewrite Hkeeper in Hk. injection Hk as <-.
      apply pool_of_spec in Hpool as [Hkin Hkzh].
      exists keeper. split; [done|]. split; [done|]. split; [|split].
      * intros (other & Hother & Hcjk). split.
        { apply is_zh_spec; [by apply Hfiled|]. apply Hkzh. exists other.
          split; [done|]. apply is_zh_spec; [by apply Hfiled|done]. }
        intros item Hitem Hz. apply Hmax, pool_of_spec. split; [done|].
        intros _. apply is_zh_spec; [by apply Hfiled|done].
      * intros Hnone item Hitem. apply Hmax, pool_of_spec. split; [done|].
        intros (other & Hother & Hzh). exfalso. apply Hnone. exists other.
        split; [done|]. apply is_zh_spec; [by apply Hfiled|done].
      * intros item Hitem Hne'.
        destruct (duplicates_of_spec key keeper item items Hitem) as (d & Hd & Hid & _);
          [by apply Hfiled|done|].
        exists d. split; [by apply Hsub|done].
    + intros d Hd. destruct (Hdups d Hd) as (key & items & keeper & Hin & Hkeeper & Hdup).
      destruct (Hkeep key items Hin) as (keeper' & Hkeeper' & Hidx & _).
      rewrite Hkeeper in Hkeeper'. injection Hkeeper' as <-.
      assert (items <> []) as Hne.
      { unfold groups_ok in Hok. rewrite Forall_forall in Hok. apply (Hok _ Hin). }
      destruct (keeper_of_spec items Hne) as (k & Hk & Hpool & _).
      rewrite Hkeeper in Hk. injection Hk as <-. apply pool_of_spec in Hpool as [Hkin _].
      destruct (duplicates_of_ids key keeper items d Hdup) as [Hneq Hitem].
      exists key, items, keeper. done.
  - intros rc log w' H. unfold sync_with_client in H.
    apply bind_ok in H as ([index duplicates] & Hbuild & H).
    assert (exists archived failed la w1,
              _archive_duplicate_pages archive_page duplicates w = (archived, failed, la, w1)
              /\ (if (0 <? failed)%nat then Ok (1, la, w1)
                  else let '(written, log', w2) :=
                         write_reports update_page create_page reports index w1 in
                       Ok (if bool_decide (written = length reports) then 0 else 1,
                           la ++ log', w2)) = Ok (rc, log, w')) as (archived & failed & la & w1 & Harch & H').
    { case_bool_decide as Hd.
      - subst duplicates. exists 0%nat, 0%nat, [], w. done.
      - destruct (_archive_duplicate_pages archive_page duplicates w) as [[[a f] l] w1].
        by exists a, f, l, w1. }
    clear H. destruct (archive_log duplicates _ _ _ _ _ Harch) as (Hla & Hids & Hfail).
    exists index, duplicates, la.
    destruct (Nat.ltb_spec 0 failed) as [Hpos|Hzero].
    + injection H' as <- <- <-. exists []. rewrite app_nil_r.
      repeat split; done.
    + destruct (write_reports update_page create_page reports index w1) as [[written lw] w2] eqn:Hw.
      injection H' as <- <- <-. exists lw.
      pose proof (write_log reports _ _ _ _ _ Hw) as Hlw.
      repeat split; try done;
        apply Exists_app in H as [H|H];
        try (apply Hfail in H; lia);
        apply Exists_exists in H as (c & Hc & Hbad);
        rewrite Forall_forall in Hlw; specialize (Hlw c Hc); by destruct c as [? []| |].
Qed.

End Client.

(** The pages of the test suite: the Chinese page is kept though the
    English page was edited later, and the English page is the one
    duplicate. *)
Example chinese_page_is_kept :
  exists duplicate,
    _build_report_index_and_duplicates Examples.queried_pages
    = Ok ([((u "incremental-root-causes", u "rolling_all-time"), u "page-zh")], [duplicate])
    /\ dup_page_id duplicate = u "page-en".
Proof. eexists. split; vm_compute; reflexivity. Qed.

(** With a client that cannot archive, the sync stops after the archive
    call with exit code 1; with a working client the archive call comes
    first and the report updates the kept page. *)
Example sync_stops_on_failed_archive :
  sync_with_client Examples.failing_archive Examples.working_update Examples.working_create
    Examples.queried_pages [Examples.root_causes_report] 0%nat
  = Ok (1, [Archived (u "page-en") false], 1%nat).
Proof. vm_compute. reflexivity. Qed.

Example sync_archives_then_writes :
  sync_with_client Examples.working_archive Examples.working_update Examples.working_create
    Examples.queried_pages [Examples.root_causes_report] 0%nat
  = Ok (0, [Archived (u "page-en") true; Updated (u "page-zh") true], 2%nat).
Proof. vm_compute. reflexivity. Qed.

End SyncFacts.

(** ** More on strings *)

Module TextFacts.
Import Py Text PyFacts.

Lemma starts_with_spec (t s : pystr) :
  starts_with t s = true <-> exists b, s = t ++ b.
Proof.
  revert s. induction t as [|c t IH]; intros s; simpl.
  - split; [by exists s|done].
  - destruct s as [|c' s]; [split; [done|by intros [? ?]]|].
    rewrite andb_true_iff, N.eqb_eq, IH. split.
    + intros [-> [b ->]]. by exists b.
    + intros [b [= -> ->]]. split; [done|by exists b].
Qed.

(** [t in s]: [t] stands somewhere in [s]. *)
Lemma contains_spec (t s : pystr) :
  contains t s = true <-> exists a b, s = a ++ t ++ b.
Proof.
  induction s as [|c s IH].
  - simpl. rewrite orb_false_r, starts_with_spec. split.
    + intros [b E]. by exists [], b.
    + intros (a & b & E). destruct a; [by exists b|done].
  - cbn [contains]. rewrite orb_true_iff, starts_with_spec, IH. split.
    + intros [[b E]|(a & b & ->)]; [by exists [], b|by exists (c :: a), b].
    + intros (a & b & E). destruct a as [|c' a]; [left; by exists b|].
      right. injection E as -> ->. by exists a, b.
Qed.

Lemma contains_app_l (t s q : pystr) : contains t s = true -> contains t (s ++ q) = true.
Proof.
  rewrite !contains_spec. intros (a & b & ->). exists a, (b ++ q). by rewrite <- !app_assoc.
Qed.

(** Lowering a letter neither makes nor removes a space. *)
Lemma is_space_lower_char (c : N) : is_space (lower_char c) = is_space c.
Proof.
  unfold lower_char.
  destruct (N.leb_spec 65 c) as [H1|H1]; [|done].
  destruct (N.leb_spec c 90) as [H2|H2]; [|done]. cbn [andb].
  assert (forall x, (65 <= x <= 122)%N -> is_space x = false) as Hletter.
  { intros x Hx. unfold is_space.
    repeat match goal with
           | |- context [(?a <=? ?b)%N] => destruct (N.leb_spec a b); try lia
           | |- context [(?a =? ?b)%N] => destruct (N.eqb_spec a b); try lia
           end;
    try reflexivity. }
  rewrite !Hletter by lia. done.
Qed.

Lemma lstrip_lower (s : pystr) : lstrip (lower s) = lower (lstrip s).
Proof.
  induction s as [|c s IH]; [done|]. cbn [lower map lstrip] in *.
  rewrite is_space_lower_char. by destruct (is_space c).
Qed.

Lemma strip_lower (s : pystr) : strip (lower s) = lower (strip s).
Proof.
  unfold strip, rstrip. rewrite lstrip_lower. unfold lower at 1.
  rewrite <- map_rev. fold (lower (rev (lstrip s))). rewrite lstrip_lower.
  unfold lower. by rewrite map_rev.
Qed.

(** [lstrip] takes a prefix off. *)
Lemma lstrip_suffix (s : pystr) : exists p, s = p ++ lstrip s.
Proof.
  induction s as [|c s [p IH]]; [by exists []|]. simpl.
  destruct (is_space c); [|by exists []]. exists (c :: p). by rewrite <- app_comm_cons, <- IH.
Qed.

(** [strip] takes a prefix and a suffix off. *)
Lemma strip_infix (s : pystr) : exists p q, s = p ++ strip s ++ q.
Proof.
  unfold strip, rstrip. destruct (lstrip_suffix s) as [p Hp].
  destruct (lstrip_suffix (rev (lstrip s))) as [q Hq].
  exists p, (rev q). rewrite <- rev_app_distr, <- Hq, rev_involutive. exact Hp.
Qed.

(** Stripping leaves a word where it stands. *)
Lemma strip_keeps_word (a t b : pystr) :
  word_like t = true -> exists a' b', strip (a ++ t ++ b) = a' ++ t ++ b'.
Proof.
  unfold word_like. destruct t as [|c t1] eqn:Et; [done|]. rewrite <- Et.
  destruct (rev t) as [|c' t2] eqn:Er; [done|].
  intros [Hc Hc']%andb_true_iff. apply negb_true_iff in Hc, Hc'.
  assert (t = rev t2 ++ [c']) as Et'.
  { rewrite <- (rev_involutive t), Er. done. }
  assert (exists r, lstrip (a ++ t ++ b) = r ++ t ++ b) as [r Hr].
  { destruct (lstrip_app_nonspace a (t1 ++ b) c Hc) as [r Hr].
    exists r. by rewrite Et, <- !app_comm_cons. }
  assert (exists r', lstrip (rev (r ++ t ++ b)) = r' ++ rev t ++ rev r) as [r' Hr'].
  { destruct (lstrip_app_nonspace (rev b) (t2 ++ rev r) c' Hc') as [r' Hr'].
    exists r'. by rewrite !rev_app_distr, Er, <- !app_assoc, <- !app_comm_cons. }
  exists r, (rev r'). unfold strip, rstrip.
  by rewrite Hr, Hr', !rev_app_distr, !rev_involutive, <- !app_assoc.
Qed.

Lemma strip_keeps_contains (t s : pystr) :
  word_like t = true -> contains t s = true -> contains t (strip s) = true.
Proof.
  intros Hw (a & b & ->)%contains_spec.
  destruct (strip_keeps_word a t b Hw) as (a' & b' & ->). apply contains_middle.
Qed.

Lemma contains_strip (t s : pystr) : contains t (strip s) = true -> contains t s = true.
Proof.
  intros H. destruct (strip_infix s) as (p & q & E). rewrite E.
  by apply contains_app_r, contains_app_l.
Qed.

Lemma lstrip_head (s r : pystr) (c : N) : lstrip s = c :: r -> is_space c = false.
Proof.
  induction s as [|x s IH]; [done|]. simpl.
  destruct (is_space x) eqn:E; [done|]. by intros [= <- _].
Qed.

Lemma lstrip_idemp (s : pystr) : lstrip (lstrip s) = lstrip s.
Proof.
  destruct (lstrip s) as [|c r] eqn:E; [done|].
  apply lstrip_nonspace. by eapply lstrip_head.
Qed.

(** [strip s] is a prefix of [lstrip s]. *)
Lemma strip_prefix_lstrip (s : pystr) : exists q, lstrip s = strip s ++ q.
Proof.
  unfold strip, rstrip. destruct (lstrip_suffix (rev (lstrip s))) as [p Hp].
  exists (rev p). apply (f_equal (@rev N)) in Hp.
  by rewrite rev_involutive, rev_app_distr in Hp.
Qed.

(** A stripped text that is not empty begins with a character that is no
    space. *)
Lemma strip_head (s r : pystr) (c : N) : strip s = c :: r -> is_space c = false.
Proof.
  intros E. destruct (strip_prefix_lstrip s) as [q Hq]. rewrite E in Hq.
  by eapply lstrip_head.
Qed.

Lemma strip_idemp (s : pystr) : strip (strip s) = strip s.
Proof.
  assert (lstrip (strip s) = strip s) as Hl.
  { destruct (strip s) as [|c r] eqn:E; [done|].
    apply lstrip_nonspace. by eapply strip_head. }
  unfold strip at 1. rewrite Hl. unfold strip, rstrip.
  by rewrite rev_involutive, lstrip_idemp.
Qed.

End TextFacts.

(** ** Placeholders *)

Module PlaceholderFacts.
Import Py Json Validator Text PyFacts TextFacts.

Lemma placeholder_tokens_word_like :
  Forall (fun t => word_like t = true) _PLACEHOLDER_TOKENS.
Proof. repeat constructor. Qed.

(** A text is a placeholder exactly when it is blank or one of the
    placeholder tokens stands in it, in whatever letter case and with
    whatever is around it. *)
Theorem contains_placeholder_spec (text : pystr) :
  _contains_placeholder text = true
  <-> strip text = [] \/ exists t, t ∈ _PLACEHOLDER_TOKENS /\ contains t (lower text) = true.
Proof.
  unfold _contains_placeholder. case_bool_decide as Hblank.
  - split; [|done]. intros _. left.
    destruct (strip text); [done|discriminate Hblank].
  - unfold contains_any. rewrite existsb_exists. split.
    + intros (t & Hin & Hc). right. exists t. split; [by apply list_elem_of_In|].
      rewrite <- strip_lower in Hc. by apply contains_strip.
    + intros [Hnil|(t & Hin & Hc)]; [by rewrite Hnil in Hblank|].
      exists t. split; [by apply list_elem_of_In|].
      rewrite <- strip_lower. apply strip_keeps_contains; [|done].
      pose proof placeholder_tokens_word_like as Hall.
      rewrite Forall_forall in Hall. by apply Hall.
Qed.

End PlaceholderFacts.

(** ** What the validator accepts *)

Module ContractFacts.
Import Py Json Dimensions Validator Backfill Contract Text PyFacts TextFacts JsonFacts
       ValidatorFacts BackfillFacts.

Lemma err_if_nil_inv (c : bool) (msg : pystr) : err_if c msg = [] -> c = false.
Proof. by destruct c. Qed.

Lemma negb_false_inv (b : bool) : negb b = false -> b = true.
Proof. by destruct b. Qed.

(** A loop that collects no error met no error. *)
Lemma for_enumerate_nil {A} (f : nat -> A -> result (list pystr)) (l : list A) :
  forall idx, for_enumerate f idx l = Ok [] ->
  forall i x, l !! i = Some x -> f (idx + i)%nat x = Ok [].
Proof.
  induction l as [|y l IH]; intros idx H i x Hi; [done|].
  cbn [for_enumerate] in H.
  apply bind_ok in H as (e & He & H). apply bind_ok in H as (es & Hes & H).
  apply ok_inj, app_eq_nil in H as [-> ->].
  destruct i as [|i]; simpl in Hi.
  - injection Hi as <-. by rewrite Nat.add_0_r.
  - rewrite Nat.add_succ_r. by apply (IH (S idx)).
Qed.

Lemma for_enumerate_forall {A} (f : nat -> A -> result (list pystr)) (P : A -> Prop)
    (l : list A) (idx : nat) :
  (forall i x, f i x = Ok [] -> P x) ->
  for_enumerate f idx l = Ok [] -> Forall P l.
Proof.
  intros Hf H. apply Forall_lookup. intros i x Hi.
  by eapply Hf, for_enumerate_nil.
Qed.

Lemma validate_evidence_nil_inv (e : dict) (index : nat) :
  _validate_evidence e index = Ok [] -> accepted_evidence (JObj e).
Proof.
  unfold _validate_evidence. intros H.
  apply bind_ok in H as (e4 & He4 & H).
  apply ok_inj in H.
  apply app_eq_nil in H as [H1 H]. apply app_eq_nil in H as [H2 H].
  apply app_eq_nil in H as [H3 ->].
  apply err_if_nil_inv, negb_false_inv in H1, H2, H3.
  exists e. repeat split; try done.
  destruct (get e (u "tier")) as [| | | |t| |]; cbn in He4; try discriminate; [by left|].
  apply ok_inj, err_if_nil_inv, negb_false_inv in He4.
  unfold str_in in He4. apply bool_decide_eq_true in He4.
  apply elem_of_cons in He4 as [->|He4]; [right; by left|].
  apply list_elem_of_singleton in He4 as ->. right; by right.
Qed.

Lemma why_item_nil_inv (idx : nat) (item : json) :
  why_item_errors idx item = Ok [] -> accepted_why item.
Proof.
  destruct item as [| | | | | |w]; try discriminate.
  unfold why_item_errors. intros H.
  apply bind_ok in H as (e3 & He3 & H). apply ok_inj in H.
  apply app_eq_nil in H as [H1 H]. apply app_eq_nil in H as [_ ->].
  apply err_if_nil_inv, negb_false_inv in H1.
  destruct (get w (u "evidence")) as [| | | | |[|ev0 evs]|] eqn:Hev; try discriminate.
  exists w, ev0, evs. repeat split; try done.
  eapply for_enumerate_forall; [|exact He3].
  intros i [| | | | | |e]; try discriminate. apply validate_evidence_nil_inv.
Qed.

Lemma action_item_nil_inv (idx : nat) (action : json) :
  action_item_errors idx action = Ok [] -> accepted_action action.
Proof.
  destruct action as [| | | | | |a]; try discriminate.
  unfold action_item_errors. intros H%ok_inj. cbn [map concat] in H.
  repeat (apply app_eq_nil in H as [?%err_if_nil_inv%negb_false_inv H]).
  exists a. split; [done|]. by repeat constructor.
Qed.

(** What holds of a payload the session validator accepts: every
    hypothesis is stated and rests on evidence that names a session, a
    turn and a snippet, and every action has its four fields. *)
Theorem accepted_session_is_grounded (payload : json) :
  validate_session_mechanism payload = Ok [] ->
  exists p whys actions,
    payload = JObj p
    /\ get p (u "schema_version") = JStr _SESSION_SCHEMA
    /\ nonblank_str (get p (u "session_id")) = true
    /\ nonblank_str (get p (u "summary")) = true
    /\ get p (u "why") = JList whys /\ whys <> [] /\ Forall accepted_why whys
    /\ get p (u "how_to_improve") = JList actions /\ actions <> []
    /\ Forall accepted_action actions
    /\ _generated_by_block_reason (get p (u "generated_by")) = None.
Proof.
  intros V.
  destruct (validate_session_nil_inv _ V) as (p & -> & _ & Hgb).
  unfold validate_session_mechanism in V.
  apply bind_ok in V as (body & Hbody & V). apply ok_inj, app_eq_nil in V as [-> _].
  unfold session_body_errors in Hbody.
  apply bind_ok in Hbody as (e_why & Hwhy & Hbody).
  apply bind_ok in Hbody as (e_actions & Hactions & Hbody).
  apply ok_inj in Hbody.
  apply app_eq_nil in Hbody as [Hschema Hbody].
  apply app_eq_nil in Hbody as [Hsid Hbody].
  do 4 (apply app_eq_nil in Hbody as [_ Hbody]).
  apply app_eq_nil in Hbody as [-> Hbody].
  apply app_eq_nil in Hbody as [-> Hbody].
  apply app_eq_nil in Hbody as [_ Hsummary].
  apply err_if_nil_inv, negb_false_inv in Hschema, Hsid, Hsummary.
  destruct (get p (u "why")) as [| | | | |[|w ws]|] eqn:Ew; try discriminate.
  destruct (get p (u "how_to_improve")) as [| | | | |[|a acts]|] eqn:Ea; try discriminate.
  exists p, (w :: ws), (a :: acts).
  split; [done|]. split.
  { destruct (get p (u "schema_version")); try discriminate.
    by apply bool_decide_eq_true in Hschema as ->. }
  do 2 (split; [done|]). split; [done|]. split; [done|]. split.
  { eapply for_enumerate_forall; [|exact Hwhy]. apply why_item_nil_inv. }
  split; [done|]. split; [done|]. split; [|done].
  eapply for_enumerate_forall; [|exact Hactions]. apply action_item_nil_inv.
Qed.

Lemma accepted_session_is_grounded_witness :
  exists p whys actions,
    JObj Examples.valid_session = JObj p
    /\ get p (u "schema_version") = JStr _SESSION_SCHEMA
    /\ nonblank_str (get p (u "session_id")) = true
    /\ nonblank_str (get p (u "summary")) = true
    /\ get p (u "why") = JList whys /\ whys <> [] /\ Forall accepted_why whys
    /\ get p (u "how_to_improve") = JList actions /\ actions <> []
    /\ Forall accepted_action actions
    /\ _generated_by_block_reason (get p (u "generated_by")) = None.
Proof.
  apply (accepted_session_is_grounded (JObj Examples.valid_session)).
  vm_compute. reflexivity.
Defined.

(** A text field that is a non-blank string reads as its stripped text. *)
Lemma text_of_nonblank (j : json) :
  nonblank_str j = true -> exists s, j = JStr s /\ text_of j = strip s /\ strip s <> [].
Proof.
  destruct j as [| | | |s| |]; try discriminate. cbn [nonblank_str].
  intros H%negb_true_iff%bool_decide_eq_false. exists s. split; [done|]. split; [|done].
  unfold text_of, py_or. destruct s as [|c s]; [done|]. reflexivity.
Qed.

Lemma text_of_stripped (s : pystr) : text_of (JStr (strip s)) = strip s.
Proof.
  unfold text_of, py_or. cbn [truthy].
  case_bool_decide as E; cbn [negb py_str]; [by rewrite E|apply strip_idemp].
Qed.

Lemma supported_stripped (d : pystr) :
  is_supported_dimension (JStr (strip d)) = true ->
  is_Some (DIMENSION_LAYER_MAP_get (strip d)).
Proof.
  unfold is_supported_dimension. intros H%bool_decide_eq_true.
  by rewrite text_of_stripped in H.
Qed.

Lemma report_errors_nil_inv (period_id week : json) (idx : nat) (item : json)
    (seen : gset (pystr * pystr)) :
  fst (report_errors period_id week idx item seen) = [] -> accepted_report item.
Proof.
  destruct item as [| | | | | |r]; try discriminate.
  unfold report_errors. cbn [fst map concat]. intros H.
  rewrite <- !app_assoc in H.
  apply app_eq_nil in H as [Hdim%err_if_nil_inv%negb_false_inv H].
  apply app_eq_nil in H as [Hlayer%err_if_nil_inv%negb_false_inv H].
  apply app_eq_nil in H as [Htitle%err_if_nil_inv%negb_false_inv H].
  apply app_eq_nil in H as [Hkey%err_if_nil_inv%negb_false_inv H].
  apply app_eq_nil in H as [_ H].
  apply app_eq_nil in H as [Hsup%err_if_nil_inv H].
  apply app_eq_nil in H as [Hexp _].
  destruct (text_of_nonblank _ Hdim) as (d & Ed & Etd & Hd).
  destruct (text_of_nonblank _ Hlayer) as (l & El & Etl & Hl).
  exists r. split; [done|]. split; [|by split].
  unfold report_dimension, report_layer in *. rewrite Etd in Hsup, Hexp |- *.
  rewrite Etl in Hexp |- *. clear Hdim Hlayer Htitle Hkey Ed El Etd Etl.
  rewrite bool_decide_eq_false_2 in Hsup by done.
  destruct (is_supported_dimension (JStr (strip d))) eqn:Hs; [|discriminate Hsup].
  apply supported_stripped in Hs as [expected Hreg].
  revert Hexp. rewrite Hreg. intros Hexp%err_if_nil_inv. f_equal.
  destruct (registry_entry_nonempty _ _ Hreg) as [_ Hne].
  rewrite !bool_decide_eq_false_2 in Hexp by done.
  destruct (bool_decide_reflect (strip l = expected)); [done|discriminate Hexp].
Qed.

Lemma reports_loop_nil_inv (period_id week : json) (reports : list json) :
  forall idx seen, reports_loop period_id week idx reports seen = [] ->
  Forall accepted_report reports.
Proof.
  induction reports as [|item rest IH]; intros idx seen H; [constructor|].
  cbn [reports_loop] in H.
  destruct (report_errors period_id week idx item seen) as [e seen'] eqn:E.
  apply app_eq_nil in H as [-> H]. constructor; [|by eapply IH].
  apply (report_errors_nil_inv period_id week idx item seen). by rewrite E.
Qed.

(** What holds of a payload the incremental validator accepts: it has
    reports, each report has a dimension of the registry with the layer
    the registry gives it, a title and key insights, and the coverage
    counts are in order. *)
Theorem accepted_incremental_is_registered (payload : json) :
  validate_incremental_mechanism payload = Ok [] ->
  exists p reports c sessions_total with_mechanism,
    payload = JObj p
    /\ get p (u "schema_version") = JStr _INCREMENTAL_SCHEMA
    /\ get p (u "reports") = JList reports /\ reports <> []
    /\ Forall accepted_report reports
    /\ get p (u "coverage") = JObj c
    /\ as_int (get c (u "sessions_total")) = Some sessions_total
    /\ as_int (get c (u "sessions_with_mechanism")) = Some with_mechanism
    /\ 0 <= with_mechanism <= sessions_total.
Proof.
  destruct payload as [| | | | | |p]; try discriminate.
  unfold validate_incremental_mechanism, incremental_errors. intros H%ok_inj.
  apply app_eq_nil in H as [Hschema%err_if_nil_inv%negb_false_inv H].
  do 2 (apply app_eq_nil in H as [_ H]).
  apply app_eq_nil in H as [Hreports H].
  apply app_eq_nil in H as [Hcov _].
  destruct (get p (u "reports")) as [| | | | |[|r0 rs]|] eqn:Er; try discriminate.
  unfold coverage_errors in Hcov.
  destruct (get p (u "coverage")) as [| | | | | |c] eqn:Ec; try discriminate.
  cbn [map concat] in Hcov. rewrite <- !app_assoc in Hcov.
  apply app_eq_nil in Hcov as [Htotal%err_if_nil_inv%negb_false_inv Hcov].
  apply app_eq_nil in Hcov as [Hwith%err_if_nil_inv%negb_false_inv Hcov].
  apply app_eq_nil in Hcov as [_ Hcov]. unfold nonneg_int in Htotal, Hwith.
  destruct (as_int (get c (u "sessions_total"))) as [total|] eqn:Et; [|done].
  destruct (as_int (get c (u "sessions_with_mechanism"))) as [with_mechanism|] eqn:Ew; [|done].
  apply err_if_nil_inv in Hcov.
  exists p, (r0 :: rs), c, total, with_mechanism.
  split; [done|]. split.
  { destruct (get p (u "schema_version")); try discriminate.
    by apply bool_decide_eq_true in Hschema as ->. }
  split; [done|]. split; [done|]. split; [by eapply reports_loop_nil_inv|].
  do 3 (split; [done|]). lia.
Qed.

Lemma accepted_incremental_is_registered_witness :
  exists p reports c sessions_total with_mechanism,
    JObj Examples.valid_incremental = JObj p
    /\ get p (u "schema_version") = JStr _INCREMENTAL_SCHEMA
    /\ get p (u "reports") = JList reports /\ reports <> []
    /\ Forall accepted_report reports
    /\ get p (u "coverage") = JObj c
    /\ as_int (get c (u "sessions_total")) = Some sessions_total
    /\ as_int (get c (u "sessions_with_mechanism")) = Some with_mechanism
    /\ 0 <= with_mechanism <= sessions_total.
Proof.
  apply (accepted_incremental_is_registered (JObj Examples.valid_incremental)).
  vm_compute. reflexivity.
Defined.

(** The key of a report is remembered once the report is passed. *)
Lemma report_key_is_seen (period_id week : json) (idx : nat) (r : dict)
    (seen : gset (pystr * pystr)) :
  report_dimension r <> [] -> report_period_key period_id week r <> [] ->
  (report_dimension r, report_period_key period_id week r)
    ∈ snd (report_errors period_id week idx (JObj r) seen).
Proof.
  intros Hd Hp. unfold report_errors. cbn [snd]. fold (report_period_key period_id week r).
  rewrite !bool_decide_eq_false_2 by done. cbn [negb andb].
  case_bool_decide; cbn [negb]; set_solver.
Qed.

Lemma seen_grows (period_id week : json) (idx : nat) (item : json)
    (seen : gset (pystr * pystr)) :
  seen ⊆ snd (report_errors period_id week idx item seen).
Proof.
  destruct item as [| | | | | |r]; try done.
  unfold report_errors. cbn [snd].
  destruct (_ && negb _); set_solver.
Qed.

Lemma seen_key_in_report (period_id week : json) (idx : nat) (r : dict)
    (seen : gset (pystr * pystr)) :
  report_dimension r <> [] -> report_period_key period_id week r <> [] ->
  (report_dimension r, report_period_key period_id week r) ∈ seen ->
  duplicate_error (report_dimension r) (report_period_key period_id week r)
    ∈ fst (report_errors period_id week idx (JObj r) seen).
Proof.
  intros Hd Hp Hseen. unfold report_errors. cbn [fst].
  fold (report_period_key period_id week r).
  rewrite !elem_of_app. do 4 right. left.
  rewrite !bool_decide_eq_false_2 by done.
  rewrite bool_decide_eq_true_2 by done. apply list_elem_of_here.
Qed.

Lemma seen_key_is_reported (period_id week : json) (reports : list json) (j : nat) (r : dict)
    (key : pystr * pystr) :
  forall idx seen,
  key ∈ seen ->
  reports !! j = Some (JObj r) ->
  report_dimension r <> [] -> report_period_key period_id week r <> [] ->
  key = (report_dimension r, report_period_key period_id week r) ->
  duplicate_error (fst key) (snd key) ∈ reports_loop period_id week idx reports seen.
Proof.
  revert j. induction reports as [|item rest IH]; intros j idx seen Hseen Hj Hd Hp Hkey; [done|].
  cbn [reports_loop].
  destruct (report_errors period_id week idx item seen) as [e seen'] eqn:E.
  apply elem_of_app. destruct j as [|j]; simpl in Hj.
  - left. injection Hj as ->. subst key.
    pose proof (seen_key_in_report period_id week idx r seen Hd Hp Hseen) as H.
    by rewrite E in H.
  - right. apply (IH j); try done.
    pose proof (seen_grows period_id week idx item seen) as Hsub.
    rewrite E in Hsub. cbn [snd] in Hsub. set_solver.
Qed.

(** Two reports for the same dimension and period make the incremental
    validator report a duplicate key. *)
Theorem duplicate_report_key_is_reported (payload : dict) (reports : list json) (i j : nat)
    (ri rj : dict) :
  let period_id := get payload (u "period_id") in
  let week := get payload (u "week") in
  get payload (u "reports") = JList reports ->
  (i < j)%nat ->
  reports !! i = Some (JObj ri) -> reports !! j = Some (JObj rj) ->
  report_dimension ri <> [] -> report_period_key period_id week ri <> [] ->
  report_dimension rj = report_dimension ri ->
  report_period_key period_id week rj = report_period_key period_id week ri ->
  exists errors,
    validate_incremental_mechanism (JObj payload) = Ok errors
    /\ duplicate_error (report_dimension ri) (report_period_key period_id week ri) ∈ errors.
Proof.
  intros period_id week Hreports Hij Hi Hj Hd Hp Hsame_d Hsame_p.
  eexists. split; [reflexivity|].
  unfold incremental_errors. rewrite Hreports. fold period_id week.
  destruct reports as [|r0 rs]; [done|].
  rewrite !elem_of_app. do 3 right. left.
  generalize (r0 :: rs) Hi Hj. clear Hi Hj Hreports. intros l.
  generalize (∅ : gset (pystr * pystr)). generalize 0%nat.
  revert i j Hij. induction l as [|item rest IH]; intros i j Hij idx seen Hi Hj; [done|].
  cbn [reports_loop].
  destruct (report_errors period_id week idx item seen) as [e seen'] eqn:E.
  apply elem_of_app. right.
  destruct j as [|j]; [lia|]. simpl in Hj.
  destruct i as [|i]; simpl in Hi.
  - injection Hi as ->.
    apply (seen_key_is_reported period_id week rest j rj
             (report_dimension ri, report_period_key period_id week ri)); try done.
    + pose proof (report_key_is_seen period_id week idx ri seen Hd Hp) as H.
      by rewrite E in H.
    + by rewrite Hsame_d.
    + by rewrite Hsame_p.
    + by rewrite Hsame_d, Hsame_p.
  - apply (IH i j); [lia|done..].
Qed.

(** The witness of [duplicate_report_key_is_reported]: the valid
    incremental fixture with its report given twice. *)
Lemma duplicate_report_key_is_reported_witness :
  let report := Examples.report_with "incremental-root-causes" "L3" in
  exists errors,
    validate_incremental_mechanism
      (JObj (Examples.incremental_with [JObj report; JObj report])) = Ok errors
    /\ duplicate_error (u "incremental-root-causes") (u "rolling_30d") ∈ errors.
Proof.
  intros report.
  apply (duplicate_report_key_is_reported
           (Examples.incremental_with [JObj report; JObj report])
           [JObj report; JObj report] 0 1 report report).
  - reflexivity.
  - lia.
  - reflexivity.
  - reflexivity.
  - vm_compute. discriminate.
  - vm_compute. discriminate.
  - reflexivity.
  - reflexivity.
Defined.

Lemma block_reason_of_simulated (gb : dict) :
  simulated gb -> exists reason, _generated_by_block_reason (JObj gb) = Some reason.
Proof.
  unfold simulated, _generated_by_block_reason, str_in.
  intros [He|[Hp|(token & Hin & Hc)]].
  - rewrite bool_decide_eq_true_2 by done. by eexists.
  - case_bool_decide; [by eexists|].
    rewrite bool_decide_eq_true_2 by done. by eexists.
  - do 2 (case_bool_decide; [by eexists|]).
    rewrite (contains_any_intro _ token) by done. by eexists.
Qed.

(** A sidecar whose [generated_by] block names a manual, mock or template
    engine or provider, or a run id with a blocked token (in whatever
    letter case, with whatever spaces around), is never accepted by the
    session validator, carries no mechanism signal, and is selected by
    backfill again whenever the selection returns. *)
Theorem simulated_sidecar_is_rejected (p gb : dict) (sidecars : sidecar_dir)
    (session_id : pystr) :
  get p (u "generated_by") = JObj gb ->
  simulated gb ->
  validate_session_mechanism (JObj p) <> Ok []
  /\ (forall errors, validate_session_mechanism (JObj p) = Ok errors ->
        exists reason, (u "generated_by is blocked: " ++ reason) ∈ errors)
  /\ _session_has_mechanism_signal p = Ok false
  /\ (sidecars !! sidecar_name session_id = Some (JsonDoc (JObj p)) ->
      forall need, _session_needs_backfill sidecars session_id false = Ok need -> need = true).
Proof.
  intros Hgb [reason Hreason]%block_reason_of_simulated.
  assert (forall errors, validate_session_mechanism (JObj p) = Ok errors ->
            (u "generated_by is blocked: " ++ reason) ∈ errors) as Herr.
  { intros errors V. unfold validate_session_mechanism in V.
    apply bind_ok in V as (body & _ & V). apply ok_inj in V as <-.
    apply elem_of_app. right. rewrite Hgb. unfold generated_by_errors.
    apply elem_of_app. right. rewrite Hreason. apply list_elem_of_here. }
  assert (validate_session_mechanism (JObj p) <> Ok []) as Hrej.
  { intros V. specialize (Herr _ V). by apply elem_of_nil in Herr. }
  split; [done|]. split; [intros errors V; exists reason; by apply Herr|].
  split.
  { unfold _session_has_mechanism_signal. by rewrite Hgb, Hreason. }
  intros Hfile need. unfold _session_needs_backfill. rewrite Hfile.
  destruct (validate_session_mechanism (JObj p)) as [[|e errors]|e]; [done| |done].
  cbn. by intros [= <-].
Qed.

(** The witness of [simulated_sidecar_is_rejected]: the valid session
    fixture with the engine [ Manual ]. *)
Lemma simulated_sidecar_is_rejected_witness :
  let gb := [(u "engine", JStr (u " Manual "))] in
  let p := dict_set Examples.valid_session (u "generated_by") (JObj gb) in
  let sidecars : sidecar_dir := {[ sidecar_name (u "s-1") := JsonDoc (JObj p) ]} in
  validate_session_mechanism (JObj p) <> Ok []
  /\ (forall errors, validate_session_mechanism (JObj p) = Ok errors ->
        exists reason, (u "generated_by is blocked: " ++ reason) ∈ errors)
  /\ _session_has_mechanism_signal p = Ok false
  /\ (sidecars !! sidecar_name (u "s-1") = Some (JsonDoc (JObj p)) ->
      forall need, _session_needs_backfill sidecars (u "s-1") false = Ok need -> need = true).
Proof.
  intros gb p sidecars.
  apply (simulated_sidecar_is_rejected p gb sidecars (u "s-1")).
  - reflexivity.
  - left. vm_compute. apply list_elem_of_here.
Defined.

End ContractFacts.

(** ** The [incremental] command: what it stores *)

Module CommandFacts.
Import Py Json Dimensions Validator Backfill Store Incremental Text PyFacts TextFacts
       JsonFacts BackfillFacts IncrementalFacts.

(** A word is its own stripped form. *)
Lemma strip_word (t : pystr) : word_like t = true -> strip t = t.
Proof.
  intros Hw. destruct (strip_keeps_word [] t [] Hw) as (a & b & E).
  rewrite app_nil_r in E. cbn [app] in E.
  destruct (strip_infix t) as (p & q & Hpq).
  apply (f_equal (@length N)) in Hpq. rewrite E, !length_app in Hpq.
  destruct a; [|cbn [length] in Hpq; lia].
  destruct b; [|cbn [length] in Hpq; lia].
  by rewrite E, app_nil_r.
Qed.

Lemma word_like_ends (c c' : N) (m : pystr) :
  is_space c = false -> is_space c' = false -> word_like ((c :: m) ++ [c']) = true.
Proof.
  intros Hc Hc'. unfold word_like. cbn [app].
  change (c :: m ++ [c']) with ((c :: m) ++ [c']).
  rewrite rev_app_distr. cbn [rev app]. by rewrite Hc, Hc'.
Qed.

Lemma digits_not_space (c : N) : is_digit c = true -> is_space c = false.
Proof.
  unfold is_digit. intros [H1%N.leb_le H2%N.leb_le]%andb_true_iff. unfold is_space.
  repeat match goal with
         | |- context [(?a <=? ?b)%N] => destruct (N.leb_spec a b); try lia
         | |- context [(?a =? ?b)%N] => destruct (N.eqb_spec a b); try lia
         end;
  try reflexivity.
Qed.

Lemma digits_lower (ds : pystr) : forallb is_digit ds = true -> lower ds = ds.
Proof.
  induction ds as [|c ds IH]; [done|]. cbn [forallb lower map].
  intros [Hc Hds]%andb_true_iff. fold (lower ds). rewrite (IH Hds). f_equal.
  unfold is_digit in Hc. apply andb_true_iff in Hc as [H1%N.leb_le H2%N.leb_le].
  unfold lower_char. destruct (N.leb_spec 65 c); [lia|done].
Qed.

Lemma fold_digits_nonneg (ds : pystr) :
  forall acc, 0 <= acc -> forallb is_digit ds = true ->
  0 <= fold_left (fun acc c => 10 * acc + (Z.of_N c - 48)) ds acc.
Proof.
  induction ds as [|c ds IH]; intros acc Hacc; [done|]. cbn [forallb fold_left].
  intros [Hc Hds]%andb_true_iff. apply IH; [|done].
  unfold is_digit in Hc. apply andb_true_iff in Hc as [H1%N.leb_le H2%N.leb_le]. lia.
Qed.

Lemma int_of_digits_nonneg (ds : pystr) : forallb is_digit ds = true -> 0 <= int_of_digits ds.
Proof. apply fold_digits_nonneg. done. Qed.

Lemma match_days_digits (ds : pystr) :
  ds <> [] -> forallb is_digit ds = true -> match_days (ds ++ u "d") = Some ds.
Proof.
  intros Hne Hds. unfold match_days. change (u "d") with [100%N].
  rewrite rev_app_distr. cbn [rev app]. rewrite rev_involutive, Hds.
  by rewrite bool_decide_eq_false_2.
Qed.

Lemma days_window_normal (ds : pystr) :
  ds <> [] -> forallb is_digit ds = true -> lower (strip (ds ++ u "d")) = ds ++ u "d".
Proof.
  intros Hne Hds. change (u "d") with [100%N].
  rewrite strip_word.
  - unfold lower. rewrite map_app. fold (lower ds). by rewrite digits_lower.
  - destruct ds as [|c ds']; [done|].
    cbn [forallb] in Hds. apply andb_true_iff in Hds as [Hc _].
    apply word_like_ends; [by apply digits_not_space|done].
Qed.

Lemma days_window_is_no_keyword (ds : pystr) :
  ds <> [] -> forallb is_digit ds = true ->
  str_in (ds ++ u "d") [[]; u "all"; u "all-time"] = false.
Proof.
  intros Hne Hds. unfold str_in. apply bool_decide_eq_false.
  destruct ds as [|c ds']; [done|].
  cbn [forallb] in Hds. apply andb_true_iff in Hds as [Hc _].
  unfold is_digit in Hc. apply andb_true_iff in Hc as [H1%N.leb_le H2%N.leb_le].
  intros H.
  repeat (apply elem_of_cons in H as [H|H];
          [apply (f_equal head) in H; vm_compute in H;
           first [discriminate H|injection H as ->; lia]|]).
  by apply elem_of_nil in H.
Qed.



Section Command.
Context (json_dumps : json -> pystr).
Context (sync_reports_from_incremental : dict -> bool -> Z).


End Command.


End CommandFacts.

(** ** The envelope of the incremental payload *)

Module EnvelopeFacts.
Import Py Json Dimensions Validator Backfill Store Incremental PyFacts JsonFacts.

Lemma setdefault_keeps (d : dict) (k k' : pystr) (v x : json) :
  dict_get d k = Some x -> dict_get (setdefault d k' v) k = Some x.
Proof.
  intros H. destruct (decide (k' = k)) as [->|Hne].
  - by rewrite (setdefault_present d k v x H).
  - by rewrite dict_get_setdefault_ne.
Qed.

(** The envelope fields are defaults: a field the payload came with keeps
    its value, whatever the command computed for it. Only [period],
    [coverage] and [reports] are rebuilt. *)
Theorem envelope_keeps_supplied_fields (period_id run_id now : pystr) (since until : option pystr)
    (sessions_total with_mechanism : nat) (payload : dict) (k : pystr) (v : json) :
  k ∉ [u "period"; u "coverage"; u "reports"] ->
  dict_get payload k = Some v ->
  dict_get (fill_envelope period_id run_id now since until sessions_total with_mechanism
                          payload) k = Some v.
Proof.
  intros Hk Hv. unfold fill_envelope.
  assert (u "period" <> k /\ u "coverage" <> k /\ u "reports" <> k) as (H1 & H2 & H3).
  { repeat split; intros <-; apply Hk; set_solver. }
  cbv zeta.
  assert (forall d, dict_get d k = Some v ->
            dict_get match get d (u "reports") with
                     | JList reports =>
                         dict_set d (u "reports")
                           (JList (map JObj (sort_reports
                              (omap (fun item => match item with JObj d => Some d | _ => None end)
                                    reports))))
                     | _ => d
                     end k = Some v) as Hreports.
  { intros d Hd. destruct (get d (u "reports")); try done. by rewrite dict_get_set_ne. }
  apply Hreports. rewrite !dict_get_set_ne by done.
  by do 5 apply setdefault_keeps.
Qed.

(** The witness of [envelope_keeps_supplied_fields]: the valid incremental
    fixture says [rolling_30d], and keeps saying so in the sidecar of the
    period 2026-01-08_to_2026-02-07. *)
Lemma envelope_keeps_supplied_fields_witness :
  let period_id := u "2026-01-08_to_2026-02-07" in
  dict_get (fill_envelope period_id (u "incremental-" ++ period_id) Examples.clock_2026_02_07
              (Some (u "2026-01-08")) (Some (u "2026-02-07")) 1 1 Examples.valid_incremental)
           (u "period_id")
  = Some (JStr (u "rolling_30d")).
Proof.
  intros period_id. apply envelope_keeps_supplied_fields.
  - vm_compute. intros H. repeat (apply elem_of_cons in H as [H|H]; [discriminate H|]).
    by apply elem_of_nil in H.
  - reflexivity.
Defined.

End EnvelopeFacts.

(** ** Applying the session results: what is stored *)

Module StoreFacts.
Import Py Json Validator Backfill Store Apply Records PyFacts JsonFacts BackfillFacts.

Section Stored.
Context (isocalendar_of : pystr -> result (Z * nat)).
Context (json_dumps : json -> pystr).

(** One pass of the write loop leaves the record in the file map, whether
    the file was written or found as it is. *)
Lemma write_records_cons (record : dict) (rest : list dict) (st : fs_state) :
  exists st1,
    write_records json_dumps (record :: rest) st = write_records json_dumps rest st1
    /\ files st1 = <[record_path record := json_dumps (JObj record)]> (files st)
    /\ (files st !! record_path record = Some (json_dumps (JObj record)) -> st1 = st).
Proof.
  cbn [write_records]. fold (record_path record). case_bool_decide as E.
  - exists st. split; [done|]. split; [by rewrite insert_id|done].
  - eexists. split; [done|]. split; [done|]. by intros.
Qed.

Lemma write_records_other (records : list dict) (p : path) :
  forall st, p ∉ map record_path records ->
  files (write_records json_dumps records st) !! p = files st !! p.
Proof.
  induction records as [|r rest IH]; intros st Hp; [done|].
  destruct (write_records_cons r rest st) as (st1 & -> & Hfiles & _).
  cbn [map] in Hp. apply not_elem_of_cons in Hp as [Hne Hp].
  rewrite IH, Hfiles by done. by apply lookup_insert_ne.
Qed.

(** A path whose file the loop changed holds the rendering of one of the
    records. *)
Lemma write_records_changed (records : list dict) (p : path) :
  forall st,
  files (write_records json_dumps records st) !! p <> files st !! p ->
  exists record, record ∈ records /\ p = record_path record
    /\ files (write_records json_dumps records st) !! p = Some (json_dumps (JObj record)).
Proof.
  induction records as [|r rest IH]; intros st Hp; [done|].
  destruct (write_records_cons r rest st) as (st1 & E & Hfiles & _). rewrite E in Hp |- *.
  destruct (decide (files (write_records json_dumps rest st1) !! p = files st1 !! p))
    as [Hsame|Hdiff].
  - rewrite Hsame in Hp |- *. rewrite Hfiles in Hp |- *.
    destruct (decide (record_path r = p)) as [<-|Hne].
    + exists r. split; [apply list_elem_of_here|]. split; [done|apply lookup_insert_eq].
    + by rewrite lookup_insert_ne in Hp.
  - destruct (IH st1 Hdiff) as (record & Hin & -> & Hfile).
    exists record. split; [by apply list_elem_of_further|done].
Qed.

(** With one record per sidecar, every record is in its file afterwards. *)
Lemma write_records_stored (records : list dict) :
  forall st, NoDup (map record_path records) ->
  forall record, record ∈ records ->
  files (write_records json_dumps records st) !! record_path record
  = Some (json_dumps (JObj record)).
Proof.
  induction records as [|r rest IH]; intros st Hnd record Hin; [by apply elem_of_nil in Hin|].
  cbn [map] in Hnd. apply NoDup_cons in Hnd as [Hr Hnd].
  destruct (write_records_cons r rest st) as (st1 & -> & Hfiles & _).
  apply elem_of_cons in Hin as [->|Hin].
  - rewrite write_records_other, Hfiles by done. apply lookup_insert_eq.
  - by apply IH.
Qed.

(** Records that are in their files already cause no write. *)
Lemma write_records_fixed (records : list dict) (st : fs_state) :
  (forall record, record ∈ records ->
     files st !! record_path record = Some (json_dumps (JObj record))) ->
  write_records json_dumps records st = st.
Proof.
  induction records as [|r rest IH]; intros H; [done|].
  destruct (write_records_cons r rest st) as (st1 & -> & _ & Hst1).
  rewrite Hst1 by (apply H, list_elem_of_here).
  apply IH. intros record Hin. by apply H, list_elem_of_further.
Qed.

(** The valid records of the validation loop pass the validator. *)
Lemma validate_items_valid (run_id : pystr) (now : nat -> pystr) (items : list dict) :
  forall index valid invalid,
  validate_items isocalendar_of run_id now index items = Ok (valid, invalid) ->
  Forall (fun record => validate_session_mechanism (JObj record) = Ok []) valid.
Proof.
  induction items as [|item rest IH]; intros index valid invalid H.
  - apply ok_inj in H. injection H as <- <-. constructor.
  - cbn [validate_items] in H.
    apply bind_ok in H as (record & Hrecord & H).
    apply bind_ok in H as (errors & Herrors & H).
    apply bind_ok in H as ([valid' invalid'] & Hrest & H).
    apply ok_inj in H. specialize (IH _ _ _ Hrest).
    destruct (bool_decide_reflect (errors = [])) as [->|Hne]; injection H as <- <-; [|done].
    by constructor.
Qed.



End Stored.



End StoreFacts.

(** ** The digest: the selection and the snippets *)

Module SnippetFacts.
Import Py Json Digest Snippets PyFacts DigestFacts.

Lemma dedupe_turns_sublist (l : list turn) :
  forall seen, dedupe_turns l seen `sublist_of` l.
Proof.
  induction l as [|t l IH]; intros seen; [done|].
  cbn [dedupe_turns]. destruct (_ && _).
  - by apply sublist_cons.
  - by apply sublist_skip.
Qed.

(** The turns kept by the loop have different positive ids, none of them
    seen before. *)
Lemma dedupe_turns_distinct (l : list turn) :
  forall seen,
  NoDup (positive_ids (dedupe_turns l seen))
  /\ forall z, z ∈ positive_ids (dedupe_turns l seen) -> z ∉ seen.
Proof.
  unfold positive_ids.
  induction l as [|t l IH]; intros seen; [split; [constructor|by intros z ?%elem_of_nil]|].
  cbn [dedupe_turns].
  destruct (Z.ltb_spec 0 (turn_id_or_0 t)) as [Hpos|Hneg]; cbn [andb].
  - case_bool_decide as Hseen; [apply IH|].
    destruct (IH ({[turn_id_or_0 t]} ∪ seen)) as [Hnd Hout].
    rewrite fmap_cons, filter_cons_True by done. split.
    + constructor; [|done]. intros Hin. apply Hout in Hin. set_solver.
    + intros z [->|Hin]%elem_of_cons; [done|]. apply Hout in Hin. set_solver.
  - rewrite fmap_cons, filter_cons_False by lia. apply IH.
Qed.

(** [_select_timeline_turns], for every limit: the selection is a
    sub-list of the turns, so it neither reorders nor invents turns; with
    a limit of at least 1 it has at most that many turns; and when turns
    were left out, no positive [turn_id] occurs twice in it. *)
Theorem timeline_selection_is_sublist (turns : list turn) (max_turns : nat) :
  let selected := _select_timeline_turns turns max_turns in
  selected `sublist_of` turns
  /\ ((1 <= max_turns)%nat -> (length selected <= max_turns)%nat)
  /\ ((max_turns < length turns)%nat -> NoDup (positive_ids selected)).
Proof.
  intros selected. unfold selected, _select_timeline_turns.
  destruct (Nat.leb_spec (length turns) max_turns) as [Hle|Hgt].
  { split; [done|]. split; [done|lia]. }
  set (head := (max_turns / 2)%nat). set (tail := (max_turns - head)%nat).
  assert (head <= max_turns)%nat as Hhead.
  { unfold head. apply Nat.Div0.div_le_upper_bound. lia. }
  assert ((1 <= max_turns)%nat -> (1 <= tail)%nat) as Htail.
  { intros H. unfold tail, head.
    assert (max_turns / 2 < max_turns)%nat by (apply Nat.div_lt; lia). lia. }
  split; [|split].
  - etransitivity; [apply dedupe_turns_sublist|].
    rewrite <- (take_drop head turns) at 3.
    apply sublist_app; [done|]. unfold last_slice. case_bool_decide as E.
    + assert (head = 0%nat) as -> by lia. done.
    + replace (length turns - tail)%nat with (head + (length turns - tail - head))%nat by lia.
      rewrite <- drop_drop. apply sublist_drop.
  - intros Hmax. etransitivity; [apply dedupe_turns_length|].
    rewrite length_app, length_take. unfold last_slice.
    rewrite bool_decide_eq_false_2 by (specialize (Htail Hmax); lia).
    rewrite length_drop. lia.
  - intros _. apply dedupe_turns_distinct.
Qed.

Lemma split_ws_words (s : pystr) :
  forall cur,
  Forall (fun c => is_space c = false) cur ->
  Forall (fun w => w <> [] /\ Forall (fun c => is_space c = false) w) (split_ws s cur).
Proof.
  induction s as [|c s IH]; intros cur Hcur; cbn [split_ws].
  - case_bool_decide; [constructor|]. by repeat constructor.
  - destruct (is_space c) eqn:Hc.
    + case_bool_decide; [by apply IH|]. constructor; [done|]. by apply IH.
    + apply IH. apply Forall_app. split; [done|]. by repeat constructor.
Qed.

Lemma collapsed_from_word (w rest : pystr) (b : bool) :
  w <> [] -> Forall (fun c => is_space c = false) w ->
  collapsed_from b (w ++ rest) = collapsed_from false rest.
Proof.
  intros Hne Hw. revert b. induction Hw as [|c w Hc Hw IH]; intros b; [done|].
  cbn [app collapsed_from]. rewrite Hc.
  destruct w as [|c' w']; [done|]. by apply IH.
Qed.

Lemma collapsed_join (words : list pystr) (b : bool) :
  Forall (fun w => w <> [] /\ Forall (fun c => is_space c = false) w) words ->
  collapsed_from b (join (u " ") words) = true.
Proof.
  intros Hwords. revert b. induction Hwords as [|w words [Hne Hw] Hwords IH]; intros b; [done|].
  cbn [join]. destruct words as [|w' words'].
  - rewrite <- (app_nil_r w), collapsed_from_word by done. done.
  - rewrite collapsed_from_word by done. change (u " ") with [32%N].
    cbn [app collapsed_from]. change (is_space 32) with true. cbn [negb andb N.eqb Pos.eqb].
    apply IH.
Qed.

Lemma collapsed_take (s : pystr) (n : nat) :
  forall b, collapsed_from b s = true -> collapsed_from b (take n s) = true.
Proof.
  revert n. induction s as [|c s IH]; intros [|n] b; try done.
  cbn [take collapsed_from]. destruct (is_space c).
  - intros [[-> ->]%andb_true_iff H]%andb_true_iff. cbn [andb]. by apply IH.
  - apply IH.
Qed.

(** [_turn_snippet]: the snippet is at most [limit] characters long and
    its white space is collapsed: no line break or tab, no space at the
    beginning, no two spaces in a row. So it is on every item of the
    digest timeline, whose user snippets have at most 140 and assistant
    snippets at most 120 characters; the [turn_id] of an item is never 0
    and none of its tool names is empty. *)
Theorem snippets_are_collapsed (text : pystr) (limit : nat) (turns : list turn) :
  (length (_turn_snippet text limit) <= limit)%nat
  /\ collapsed (_turn_snippet text limit) = true
  /\ Forall (fun item =>
               (length (user_snippet item) <= 140)%nat
               /\ (length (assistant_snippet item) <= 120)%nat
               /\ collapsed (user_snippet item) = true
               /\ collapsed (assistant_snippet item) = true
               /\ item_turn_id item <> 0
               /\ [] ∉ tools item)
            (digest_timeline turns).
Proof.
  assert (forall t n, (length (_turn_snippet t n) <= n)%nat
                      /\ collapsed (_turn_snippet t n) = true) as Hsnippet.
  { intros t n. unfold _turn_snippet. split; [rewrite length_take; lia|].
    apply collapsed_take, collapsed_join, split_ws_words. constructor. }
  split; [apply Hsnippet|]. split; [apply Hsnippet|].
  unfold digest_timeline. apply Forall_lookup. intros i item Hi.
  apply list_lookup_imap_Some in Hi as (t & _ & ->).
  unfold timeline_item_of.
  cbn [user_snippet assistant_snippet item_turn_id tools].
  split; [apply Hsnippet|]. split; [apply Hsnippet|].
  split; [apply Hsnippet|]. split; [apply Hsnippet|]. split.
  - destruct (turn_id t) as [z|]; [|lia]. destruct (Z.eqb_spec z 0); lia.
  - intros Hin. apply list_elem_of_filter in Hin as [Hne _]. done.
Qed.

End SnippetFacts.

(** ** Retries: how an inference ends *)

Module AttemptFacts.
Import Py Json Runtime PyFacts RetryFacts.

Section Attempts.
Context {W A : Type}.
Context (call : provider -> W -> result A * W).

(** An error the loop could retry ends it only when no retry is left. *)
Lemma retry_loop_exhausted (p : provider) (retryable : exn -> bool) (remaining : nat) :
  forall (attempt : nat) (w : W) (exc : exn),
  outcome (retry_loop call p retryable remaining attempt w) = Raise exc ->
  retryable exc = true ->
  calls (retry_loop call p retryable remaining attempt w) = (remaining + 1)%nat.
Proof.
  induction remaining as [|remaining IH]; intros attempt w exc; cbn [retry_loop].
  - by destruct (call p w) as [[a|exc'] w'].
  - destruct (call p w) as [[a|exc'] w']; [done|].
    destruct (retryable exc') eqn:E; cbn [negb outcome calls].
    + intros H Hexc. by rewrite (IH _ _ _ H Hexc).
    + intros [= <-]. congruence.
Qed.

(** A retryable failure followed by a success: two calls, one pause. *)
Lemma retry_loop_recovers (p : provider) (retryable : exn -> bool) (remaining attempt : nat)
    (w w1 w2 : W) (exc : exn) (a : A) :
  call p w = (Raise exc, w1) -> retryable exc = true -> call p w1 = (Ok a, w2) ->
  retry_loop call p retryable (S remaining) attempt w
  = AttemptLog (Ok a) 2 [backoff attempt] w2.
Proof.
  intros H1 Hexc H2. cbn [retry_loop]. rewrite H1, Hexc. cbn [negb].
  destruct remaining; cbn [retry_loop]; by rewrite H2.
Qed.

(** How an inference ends for a provider. An error that the provider's
    loop would retry is raised only after all three attempts, with the
    pauses of 1 and 2 seconds; and a retryable failure of the first call
    followed by a success gives the result of the second call, after one
    pause of 1 second. *)
Theorem retryable_errors_use_all_attempts (p : provider) (w : W) :
  let log := infer call p w in
  (forall exc, outcome log = Raise exc -> retryable_for p exc = true ->
     calls log = 3%nat /\ sleeps log = [1; 2])
  /\ (forall exc w1 a w2,
        call p w = (Raise exc, w1) -> retryable_for p exc = true -> call p w1 = (Ok a, w2) ->
        outcome log = Ok a /\ calls log = 2%nat /\ sleeps log = [1] /\ world_after log = w2).
Proof.
  intros log. split.
  - intros exc Hout Hexc.
    unfold log, infer, _infer_claude_with_retries, _infer_codex_with_retries in *.
    destruct p; cbn [retryable_for] in Hexc; try done.
    + pose proof (retry_loop_exhausted _ _ _ _ _ _ Hout Hexc) as Hcalls.
      destruct (retry_loop_bounds call claude_cli _is_retryable_claude_error 2 0 w)
        as [_ Hsleeps].
      split; [done|]. by rewrite Hsleeps, Hcalls.
    + pose proof (retry_loop_exhausted _ _ _ _ _ _ Hout Hexc) as Hcalls.
      destruct (retry_loop_bounds call codex_cli _is_retryable_codex_error 2 0 w)
        as [_ Hsleeps].
      split; [done|]. by rewrite Hsleeps, Hcalls.
  - intros exc w1 a w2 H1 Hexc H2.
    unfold log, infer, _infer_claude_with_retries, _infer_codex_with_retries.
    destruct p; cbn [retryable_for] in Hexc; try done;
      by rewrite (retry_loop_recovers _ _ _ _ _ _ _ _ _ H1 Hexc H2).
Qed.

End Attempts.

End AttemptFacts.

(** ** Chunking: what a chunk input holds *)

Module ChunkInputFacts.
Import Py Json Store Runtime Chunks PyFacts JsonFacts ChunkFacts.

Lemma length_concat_sum {A} (l : list (list A)) :
  length (concat l) = sum_list (length <$> l).
Proof. induction l as [|x l IH]; [done|]. cbn. by rewrite length_app, IH. Qed.


End ChunkInputFacts.

(** ** The evidence of a hypothesis *)

Module EvidenceFacts.
Import Py Json Validator Digest Snippets Evidence PyFacts TextFacts JsonFacts BackfillFacts
       ContractFacts SnippetFacts.

Lemma collapsed_head (c : N) (r : pystr) : collapsed (c :: r) = true -> is_space c = false.
Proof.
  unfold collapsed. cbn [collapsed_from]. destruct (is_space c); [|done].
  by rewrite andb_false_r.
Qed.

Lemma collapsed_nonblank (s : pystr) : collapsed s = true -> s <> [] -> strip s <> [].
Proof.
  destruct s as [|c r]; [done|]. intros Hc%collapsed_head _.
  by apply (strip_nonempty [] r c).
Qed.

Lemma normalize_evidence_text_spec (text : json) (limit : nat) :
  (length (_normalize_evidence_text text limit) <= limit)%nat
  /\ collapsed (_normalize_evidence_text text limit) = true.
Proof.
  unfold _normalize_evidence_text. split; [rewrite length_take; lia|].
  apply collapsed_take, collapsed_join, split_ws_words. constructor.
Qed.

Lemma nonblank_text_of (j : json) : text_of j <> [] -> nonblank_str (JStr (text_of j)) = true.
Proof.
  intros H. cbn [nonblank_str]. unfold text_of in *. rewrite strip_idemp.
  by rewrite bool_decide_eq_false_2.
Qed.

Lemma nonblank_collapsed (s : pystr) :
  collapsed s = true -> s <> [] -> nonblank_str (JStr s) = true.
Proof.
  intros Hc Hne. cbn [nonblank_str]. rewrite bool_decide_eq_false_2; [done|].
  by apply collapsed_nonblank.
Qed.

Section Lower.
Context (str_lower : pystr -> pystr).

(** An entry with an identity gives a record the validator accepts. *)
Lemma evidence_record_valid (entry : dict) (key : pystr * Z * pystr) (index : nat) :
  _evidence_identity str_lower entry = Some key ->
  _validate_evidence (evidence_record entry) index = Ok []
  /\ key = (text_of (get entry (u "session_id")), int_of (get entry (u "turn_id")),
            str_lower (_normalize_evidence_text (get entry (u "snippet")) 240)).
Proof.
  unfold _evidence_identity.
  case_bool_decide as Hsid; [done|].
  destruct (as_int (get entry (u "turn_id"))) as [z|] eqn:Hz; [|done].
  destruct (Z.leb_spec z 0) as [|Hpos]; [done|].
  case_bool_decide as Hsnip; [done|]. intros [= <-].
  split; [|unfold int_of; by rewrite Hz].
  unfold _validate_evidence.
  change (get (evidence_record entry) (u "session_id"))
    with (JStr (text_of (get entry (u "session_id")))).
  change (get (evidence_record entry) (u "turn_id")) with (get entry (u "turn_id")).
  change (get (evidence_record entry) (u "snippet"))
    with (JStr (_normalize_evidence_text (get entry (u "snippet")) 240)).
  change (get (evidence_record entry) (u "tier")) with JNull.
  rewrite nonblank_text_of by done.
  destruct (normalize_evidence_text_spec (get entry (u "snippet")) 240) as [_ Hc].
  rewrite (nonblank_collapsed _ Hc Hsnip).
  unfold positive_int. rewrite Hz.
  destruct (Z.ltb_spec 0 z); [done|lia].
Qed.

Lemma identity_of_evidence_record (entry : dict) (key : pystr * Z * pystr) :
  _evidence_identity str_lower entry = Some key ->
  identity_of_record str_lower (evidence_record entry) = key.
Proof.
  intros H. destruct (evidence_record_valid entry key 0 H) as [_ ->]. reflexivity.
Qed.

(** What the loop of [_dedupe_evidence] returns: records of entries that
    have an identity, no identity twice, none that was seen. *)
Lemma dedupe_loop_spec (entries : list json) :
  forall seen,
  let out := dedupe_loop str_lower entries seen in
  Forall (fun record => exists entry key,
            record = evidence_record entry /\ _evidence_identity str_lower entry = Some key) out
  /\ NoDup (identity_of_record str_lower <$> out)
  /\ (forall key, key ∈ (identity_of_record str_lower <$> out) -> key ∉ seen)
  /\ (length out <= length entries)%nat.
Proof.
  induction entries as [|entry rest IH]; intros seen.
  { cbn. split; [constructor|]. split; [constructor|]. split; [by intros k ?%elem_of_nil|lia]. }
  assert (forall seen',
            let out := dedupe_loop str_lower rest seen' in
            seen ⊆ seen' ->
            Forall (fun record => exists entry key,
                      record = evidence_record entry
                      /\ _evidence_identity str_lower entry = Some key) out
            /\ NoDup (identity_of_record str_lower <$> out)
            /\ (forall key, key ∈ (identity_of_record str_lower <$> out) -> key ∉ seen)
            /\ (length out <= length (entry :: rest))%nat) as Hskip.
  { intros seen' out Hsub. destruct (IH seen') as (H1 & H2 & H3 & H4).
    split; [done|]. split; [done|]. split; [|subst out; cbn [length]; lia].
    intros key Hkey Hseen. apply (H3 key Hkey). set_solver. }
  destruct entry as [| | | | | |e]; try (apply Hskip; set_solver).
  cbn [dedupe_loop]. destruct (_evidence_identity str_lower e) as [key|] eqn:Hid;
    [|apply Hskip; set_solver].
  case_bool_decide as Hseen; [apply Hskip; set_solver|].
  destruct (IH ({[key]} ∪ seen)) as (H1 & H2 & H3 & H4).
  cbn zeta. rewrite fmap_cons, (identity_of_evidence_record e key Hid).
  split; [constructor; [by exists e, key|done]|].
  split; [constructor; [|done]; intros Hin; apply H3 in Hin; set_solver|].
  split; [|cbn [length]; lia].
  intros k [->|Hin]%elem_of_cons; [done|]. apply H3 in Hin. set_solver.
Qed.

(** [_dedupe_evidence]: every record it returns passes [_validate_evidence]
    at whatever index, its snippet has at most 240 characters, no two
    records have the same session, turn and snippet (letter case apart),
    and there are no more records than entries. *)
Theorem dedupe_evidence_spec (entries : list json) :
  let out := _dedupe_evidence str_lower entries in
  Forall (fun record =>
            (forall index, _validate_evidence record index = Ok [])
            /\ exists snippet, get record (u "snippet") = JStr snippet
                               /\ (length snippet <= 240)%nat /\ collapsed snippet = true) out
  /\ NoDup (identity_of_record str_lower <$> out)
  /\ (length out <= length entries)%nat.
Proof.
  intros out. destruct (dedupe_loop_spec entries ∅) as (H1 & H2 & _ & H4).
  split; [|by split].
  eapply Forall_impl; [exact H1|]. intros record (entry & key & -> & Hid). split.
  - intros index. by destruct (evidence_record_valid entry key index Hid).
  - eexists. split; [reflexivity|]. apply normalize_evidence_text_spec.
Qed.

(** A record of [_dedupe_evidence] with a tier passes the validator. *)
Lemma tagged_record_valid (entry : dict) (key : pystr * Z * pystr) (tier : string)
    (index : nat) :
  _evidence_identity str_lower entry = Some key ->
  tier = "primary"%string \/ tier = "supporting"%string ->
  _validate_evidence (dict_set (evidence_record entry) (u "tier") (JStr (u tier))) index = Ok [].
Proof.
  unfold _evidence_identity.
  case_bool_decide as Hsid; [done|].
  destruct (as_int (get entry (u "turn_id"))) as [z|] eqn:Hz; [|done].
  destruct (Z.leb_spec z 0) as [|Hpos]; [done|].
  case_bool_decide as Hsnip; [done|]. intros _ Htier.
  unfold _validate_evidence.
  change (get (dict_set (evidence_record entry) (u "tier") (JStr (u tier))) (u "session_id"))
    with (JStr (text_of (get entry (u "session_id")))).
  change (get (dict_set (evidence_record entry) (u "tier") (JStr (u tier))) (u "turn_id"))
    with (get entry (u "turn_id")).
  change (get (dict_set (evidence_record entry) (u "tier") (JStr (u tier))) (u "snippet"))
    with (JStr (_normalize_evidence_text (get entry (u "snippet")) 240)).
  rewrite get_set_eq.
  rewrite nonblank_text_of by done.
  destruct (normalize_evidence_text_spec (get entry (u "snippet")) 240) as [_ Hc].
  rewrite (nonblank_collapsed _ Hc Hsnip).
  unfold positive_int. rewrite Hz.
  destruct (Z.ltb_spec 0 z); [|lia].
  by destruct Htier as [-> | ->].
Qed.

Lemma session_of_evidence_record (entry : dict) (key : pystr * Z * pystr) :
  _evidence_identity str_lower entry = Some key ->
  session_of (evidence_record entry) <> [].
Proof.
  unfold _evidence_identity. case_bool_decide as Hsid; [done|]. intros _.
  unfold session_of.
  change (get (evidence_record entry) (u "session_id"))
    with (JStr (text_of (get entry (u "session_id")))).
  unfold py_or. cbn [truthy]. by rewrite bool_decide_eq_false_2.
Qed.

End Lower.

Lemma tier_is_no_key_field (k : pystr) :
  k ∈ [u "session_id"; u "turn_id"; u "snippet"] -> u "tier" <> k.
Proof.
  intros Hk Heq. subst k. revert Hk. rewrite !elem_of_cons, elem_of_nil.
  intros [H|[H|[H|[]]]]; vm_compute in H; discriminate H.
Qed.

Lemma evidence_key_tier (entry : dict) (v : json) :
  evidence_key (dict_set entry (u "tier") v) = evidence_key entry.
Proof.
  unfold evidence_key, get, get_or.
  rewrite !dict_get_set_ne; [done|apply tier_is_no_key_field; set_solver..].
Qed.

Lemma session_of_tier (entry : dict) (v : json) :
  session_of (dict_set entry (u "tier") v) = session_of entry.
Proof.
  unfold session_of, get.
  rewrite !dict_get_set_ne; [done|apply tier_is_no_key_field; set_solver].
Qed.

Lemma same_evidence_spec (entry existing : dict) :
  same_evidence entry existing = bool_decide (evidence_key existing = evidence_key entry).
Proof.
  unfold same_evidence, evidence_key.
  repeat case_bool_decide; cbn [andb]; try reflexivity; congruence.
Qed.

Lemma existsb_same_evidence (entry : dict) (selected : list dict) :
  existsb (same_evidence entry) selected
  = bool_decide (evidence_key entry ∈ evidence_key <$> selected).
Proof.
  induction selected as [|r selected IH].
  - cbn. by rewrite bool_decide_eq_false_2 by apply not_elem_of_nil.
  - cbn [existsb]. rewrite IH, same_evidence_spec, fmap_cons.
    repeat case_bool_decide; cbn [orb]; try reflexivity; exfalso;
      rewrite elem_of_cons in *; intuition congruence.
Qed.

(** The first loop appends primary records of entries of different
    sessions, none of a session seen, and stops at the cap. *)
Lemma primary_loop_spec (deduped : list dict) (primary_cap : Z) :
  forall selected seen_sessions,
  exists added,
    primary_loop deduped selected seen_sessions primary_cap = selected ++ added
    /\ Forall (fun record => exists entry,
                 entry ∈ deduped
                 /\ record = dict_set entry (u "tier") (JStr (u "primary"))) added
    /\ NoDup (session_of <$> added)
    /\ (forall sid, sid ∈ (session_of <$> added) -> sid ∉ seen_sessions)
    /\ (Z.of_nat (length selected) < primary_cap ->
        Z.of_nat (length (selected ++ added)) <= primary_cap).
Proof.
  induction deduped as [|entry rest IH]; intros selected seen.
  { exists []. rewrite app_nil_r. split; [done|]. split; [constructor|].
    split; [constructor|]. split; [by intros sid ?%elem_of_nil|lia]. }
  assert (forall added, Forall (fun record => exists entry,
                 entry ∈ rest
                 /\ record = dict_set entry (u "tier") (JStr (u "primary"))) added ->
            Forall (fun record => exists entry0,
                 entry0 ∈ entry :: rest
                 /\ record = dict_set entry0 (u "tier") (JStr (u "primary"))) added) as Hweak.
  { intros added H. eapply Forall_impl; [exact H|]. intros r (e & He & ->). exists e.
    split; [by apply list_elem_of_further|done]. }
  cbn [primary_loop]. fold (session_of entry).
  destruct (bool_decide (session_of entry = []) || bool_decide (session_of entry ∈ seen))
    eqn:Hskip.
  { destruct (IH selected seen) as (added & -> & H1 & H2 & H3 & H4).
    exists added. split; [done|]. split; [by apply Hweak|done]. }
  apply orb_false_iff in Hskip as [_ Hseen%bool_decide_eq_false].
  cbv zeta.
  set (record := dict_set entry (u "tier") (JStr (u "primary"))).
  destruct (Z.leb_spec primary_cap (Z.of_nat (length (selected ++ [record])))) as [Hcap|Hcap].
  { exists [record]. split; [done|].
    split; [constructor; [|constructor]; exists entry; split; [apply list_elem_of_here|done]|].
    split; [apply NoDup_singleton|].
    split; [|rewrite length_app in *; cbn [length] in *; lia].
    intros sid Hsid. apply list_elem_of_singleton in Hsid as ->.
    unfold record. by rewrite session_of_tier. }
  destruct (IH (selected ++ [record]) ({[session_of entry]} ∪ seen))
    as (added & -> & H1 & H2 & H3 & H4).
  exists (record :: added). split; [by rewrite <- app_assoc|].
  assert (session_of record = session_of entry) as Hrec
    by (unfold record; apply session_of_tier).
  split; [constructor; [exists entry; split; [apply list_elem_of_here|done]|by apply Hweak]|].
  rewrite fmap_cons, Hrec.
  split; [constructor; [|done]; intros Hin; apply H3 in Hin; set_solver|].
  split.
  - intros sid [->|Hin]%elem_of_cons; [done|]. apply H3 in Hin. set_solver.
  - intros _. specialize (H4 Hcap). by rewrite <- app_assoc in H4.
Qed.

(** The second loop appends supporting records whose key is not among
    the selected ones, up to [max_items]; short of [max_items], every
    entry has its key among the selected records. *)
Lemma supporting_loop_spec (deduped : list dict) (max_items : Z) :
  forall selected,
  exists added,
    supporting_loop deduped selected max_items = selected ++ added
    /\ Forall (fun record => exists entry,
                 entry ∈ deduped
                 /\ record = dict_set entry (u "tier") (JStr (u "supporting"))) added
    /\ (NoDup (evidence_key <$> selected) -> NoDup (evidence_key <$> (selected ++ added)))
    /\ (Z.of_nat (length selected) <= max_items ->
        Z.of_nat (length (selected ++ added)) <= max_items)
    /\ (Z.of_nat (length (selected ++ added)) < max_items ->
        forall entry, entry ∈ deduped ->
        evidence_key entry ∈ evidence_key <$> (selected ++ added)).
Proof.
  induction deduped as [|entry rest IH]; intros selected.
  { exists []. rewrite app_nil_r. split; [done|]. split; [constructor|].
    split; [done|]. split; [done|]. by intros _ e ?%elem_of_nil. }
  assert (forall added, Forall (fun record => exists entry,
                 entry ∈ rest
                 /\ record = dict_set entry (u "tier") (JStr (u "supporting"))) added ->
            Forall (fun record => exists entry0,
                 entry0 ∈ entry :: rest
                 /\ record = dict_set entry0 (u "tier") (JStr (u "supporting"))) added)
    as Hweak.
  { intros added H. eapply Forall_impl; [exact H|]. intros r (e & He & ->). exists e.
    split; [by apply list_elem_of_further|done]. }
  cbn [supporting_loop].
  destruct (Z.leb_spec max_items (Z.of_nat (length selected))) as [Hfull|Hroom].
  { exists []. rewrite app_nil_r. split; [done|]. split; [constructor|].
    split; [done|]. split; [done|]. intros H. lia. }
  rewrite existsb_same_evidence. case_bool_decide as Hsame.
  { destruct (IH selected) as (added & -> & H1 & H2 & H3 & H4).
    exists added. split; [done|]. split; [by apply Hweak|]. split; [done|]. split; [done|].
    intros Hlen e [->|He]%elem_of_cons; [|by apply H4].
    rewrite fmap_app. apply elem_of_app. by left. }
  cbv zeta.
  set (record := dict_set entry (u "tier") (JStr (u "supporting"))).
  assert (evidence_key record = evidence_key entry) as Hrec
    by (unfold record; apply evidence_key_tier).
  assert (NoDup (evidence_key <$> selected) -> NoDup (evidence_key <$> (selected ++ [record])))
    as Hnd.
  { intros H. rewrite fmap_app. apply NoDup_app. split; [done|].
    split; [|apply NoDup_singleton].
    intros k Hk Hk'. cbn in Hk'. apply list_elem_of_singleton in Hk'. subst k.
    by rewrite Hrec in Hk. }
  destruct (Z.leb_spec max_items (Z.of_nat (length (selected ++ [record])))) as [Hcap|Hcap].
  { exists [record]. split; [done|].
    split; [constructor; [|constructor]; exists entry; split; [apply list_elem_of_here|done]|].
    split; [done|].
    split; [rewrite length_app in *; cbn [length] in *; lia|]. intros H. lia. }
  destruct (IH (selected ++ [record])) as (added & -> & H1 & H2 & H3 & H4).
  exists (record :: added).
  replace (selected ++ record :: added) with ((selected ++ [record]) ++ added)
    by (by rewrite <- app_assoc).
  split; [done|].
  split; [constructor; [exists entry; split; [apply list_elem_of_here|done]|by apply Hweak]|].
  split; [by intros H; apply H2, Hnd|].
  split; [intros _; apply H3; lia|].
  intros Hlen e [->|He]%elem_of_cons; [|by apply H4].
  rewrite <- Hrec. rewrite !fmap_app. apply elem_of_app. left. apply elem_of_app. right.
  cbn. apply list_elem_of_here.
Qed.

Section Lower.
Context (str_lower : pystr -> pystr).

(** [_select_diverse_evidence]. The selection has at most [max_items]
    records and is empty exactly when [max_items] is not positive or no
    entry has an identity. Every record passes [_validate_evidence] with
    the tier [primary] or [supporting], no two records have the same
    session, turn and snippet, and every record has the key of a
    deduplicated entry. The primary records come first, are of different
    sessions and are at most [max(1, min(primary_limit, max_items))]. A
    selection shorter than [max_items] holds the key of every
    deduplicated entry. *)
Theorem select_diverse_evidence_spec (entries : list json) (max_items primary_limit : Z) :
  let out := _select_diverse_evidence str_lower entries max_items primary_limit in
  let deduped := _dedupe_evidence str_lower entries in
  Z.of_nat (length out) <= Z.max 0 max_items
  /\ (out = [] <-> max_items <= 0 \/ deduped = [])
  /\ Forall (fun record =>
               (forall index, _validate_evidence record index = Ok [])
               /\ evidence_key record ∈ evidence_key <$> deduped) out
  /\ NoDup (evidence_key <$> out)
  /\ (exists primaries supporting,
        out = primaries ++ supporting
        /\ Forall (with_tier "primary") primaries
        /\ Forall (with_tier "supporting") supporting
        /\ NoDup (session_of <$> primaries)
        /\ Z.of_nat (length primaries) <= Z.max 1 (Z.min primary_limit max_items))
  /\ (Z.of_nat (length out) < max_items ->
      forall entry, entry ∈ deduped -> evidence_key entry ∈ evidence_key <$> out).
Proof.
  intros out deduped. unfold out, _select_diverse_evidence. fold deduped. clear out.
  destruct (dedupe_loop_spec str_lower entries ∅) as (Hrecords & _).
  change (dedupe_loop str_lower entries ∅) with deduped in Hrecords.
  rewrite Forall_forall in Hrecords. clearbody deduped.
  destruct (Z.leb_spec max_items 0) as [Hmax|Hmax].
  { split; [cbn; lia|]. split; [split; [by left|done]|]. split; [constructor|].
    split; [constructor|]. split; [|cbn; lia].
    exists [], []. split; [done|]. split; [constructor|]. split; [constructor|].
    split; [constructor|cbn; lia]. }
  case_bool_decide as Hempty.
  { split; [cbn; lia|]. split; [split; [by right|done]|]. split; [constructor|].
    split; [constructor|]. split; [|by rewrite Hempty; intros _ e ?%elem_of_nil].
    exists [], []. split; [done|]. split; [constructor|]. split; [constructor|].
    split; [constructor|cbn; lia]. }
  cbv zeta. set (primary_cap := Z.max 1 (Z.min primary_limit max_items)).
  assert (primary_loop deduped [] ∅ primary_cap <> []) as Hfirst.
  { destruct deduped as [|first rest]; [done|].
    destruct (Hrecords first (list_elem_of_here _ _)) as (e0 & key & -> & Hid).
    cbn [primary_loop]. fold (session_of (evidence_record e0)).
    rewrite (bool_decide_eq_false_2 _ (session_of_evidence_record str_lower e0 key Hid)).
    rewrite bool_decide_eq_false_2 by set_solver. cbn [orb]. cbv zeta.
    destruct (_ <=? _); [done|].
    match goal with
    | |- primary_loop ?d ?sel ?seen ?cap <> [] =>
        destruct (primary_loop_spec d cap sel seen) as (added & -> & _)
    end.
    done. }
  destruct (primary_loop_spec deduped primary_cap [] ∅) as (primaries & E1 & P1 & P2 & _ & P4).
  rewrite app_nil_l in E1, P4. rewrite E1 in Hfirst |- *.
  destruct (supporting_loop_spec deduped max_items primaries)
    as (supporting & -> & S1 & S2 & S3 & S4).
  assert (Z.of_nat (length primaries) <= primary_cap) as Hcap by (apply P4; cbn; lia).
  assert (forall tier record,
            tier = "primary"%string \/ tier = "supporting"%string ->
            (exists entry, entry ∈ deduped
                           /\ record = dict_set entry (u "tier") (JStr (u tier))) ->
            (forall index, _validate_evidence record index = Ok [])
            /\ evidence_key record ∈ evidence_key <$> deduped
            /\ with_tier tier record
            /\ session_of record = (evidence_key record).1.1) as Hrecord.
  { intros tier record Htier (entry & Hin & ->).
    destruct (Hrecords entry Hin) as (e0 & key & -> & Hid).
    split; [intros index; by apply (tagged_record_valid str_lower e0 key)|].
    rewrite evidence_key_tier, session_of_tier.
    split; [by apply list_elem_of_fmap_2|].
    split; [apply get_set_eq|].
    unfold session_of, evidence_key.
    change (get (evidence_record e0) (u "session_id"))
      with (JStr (text_of (get e0 (u "session_id")))).
    unfold py_or. cbn [truthy fst py_str]. by case_bool_decide. }
  assert (Forall (fun record =>
                    (forall index, _validate_evidence record index = Ok [])
                    /\ evidence_key record ∈ evidence_key <$> deduped
                    /\ with_tier "primary" record
                    /\ session_of record = (evidence_key record).1.1) primaries) as Hp.
  { eapply Forall_impl; [exact P1|]. intros record. apply Hrecord. by left. }
  assert (Forall (fun record =>
                    (forall index, _validate_evidence record index = Ok [])
                    /\ evidence_key record ∈ evidence_key <$> deduped
                    /\ with_tier "supporting" record
                    /\ session_of record = (evidence_key record).1.1) supporting) as Hs.
  { eapply Forall_impl; [exact S1|]. intros record. apply Hrecord. by right. }
  assert (NoDup (evidence_key <$> primaries)) as Hkeys.
  { apply (NoDup_fmap_1 (fun key : pystr * Z * pystr => key.1.1)).
    rewrite <- list_fmap_compose.
    erewrite (Forall_fmap_ext_1 _ session_of); [exact P2|].
    eapply Forall_impl; [exact Hp|]. by intros record (_ & _ & _ & ->). }
  split; [apply Z.max_le_iff; right; apply S3; unfold primary_cap in Hcap; lia|].
  split.
  { split; [|lia || (intros [?|?]; [lia|done])].
    intros [Hnil _]%app_eq_nil. done. }
  split.
  { apply Forall_app. split; (eapply Forall_impl; [eassumption|]); by intros r (? & ? & _). }
  split; [by apply S2|].
  split; [|exact S4].
  exists primaries, supporting. split; [done|].
  split; [eapply Forall_impl; [exact Hp|]; by intros r (_ & _ & ? & _)|].
  split; [eapply Forall_impl; [exact Hs|]; by intros r (_ & _ & ? & _)|].
  split; [done|exact Hcap].
Qed.

End Lower.

End EvidenceFacts.

(** ** The sanitizer of the model output *)

Module SanitizeFacts.
Import Py Json Validator Digest Snippets Contract Evidence Sanitize.
Import PyFacts TextFacts JsonFacts BackfillFacts ContractFacts SnippetFacts EvidenceFacts.

Lemma as_non_empty_text_collapsed (value : json) : collapsed (_as_non_empty_text value) = true.
Proof. apply collapsed_join, split_ws_words. constructor. Qed.

Lemma nonblank_of_collapsed (t : pystr) :
  collapsed t = true -> nonblank_str (JStr t) = negb (bool_decide (t = [])).
Proof.
  intros Hc. case_bool_decide as E.
  - by subst t.
  - by apply nonblank_collapsed.
Qed.

Lemma split_ws_nonempty (s : pystr) : forall cur, cur <> [] -> split_ws s cur <> [].
Proof.
  induction s as [|c s IH]; intros cur Hcur; cbn [split_ws].
  - by rewrite bool_decide_eq_false_2.
  - destruct (is_space c); [by rewrite bool_decide_eq_false_2|].
    apply IH. by destruct cur.
Qed.

Lemma join_nonempty (sep : pystr) (words : list pystr) :
  words <> [] -> Forall (fun w => w <> []) words -> join sep words <> [].
Proof.
  destruct words as [|w rest]; [done|]. intros _ [Hw _]%Forall_cons.
  cbn [join]. destruct rest; [done|]. by destruct w.
Qed.

(** Collapsing a text again leaves something of a text that is not
    empty. *)
Lemma normalize_collapsed_nonempty (t : pystr) :
  collapsed t = true -> t <> [] -> _normalize_evidence_text (JStr t) 240 <> [].
Proof.
  intros Hc Hne. unfold _normalize_evidence_text, py_or. cbn [truthy].
  rewrite bool_decide_eq_false_2 by done. cbn [negb py_str].
  pose proof (collapsed_nonblank t Hc Hne) as Hs.
  destruct (strip t) as [|c r] eqn:E; [done|].
  pose proof (strip_head _ _ _ E) as Hsp.
  cbn [split_ws]. rewrite Hsp. cbn [app].
  assert (join (u " ") (split_ws r [c]) <> []) as Hj.
  { apply join_nonempty; [by apply split_ws_nonempty|].
    eapply Forall_impl; [apply split_ws_words; by repeat constructor|]. by intros w [? _]. }
  destruct (join (u " ") (split_ws r [c])); done.
Qed.

Section Digits.
Context (isdigit : pystr -> bool).
Context (int_of_str : pystr -> result Z).

Lemma coerce_turn_id_positive (value tid : json) :
  _coerce_turn_id isdigit int_of_str value = Ok (Some tid) ->
  exists z, as_int tid = Some z /\ 0 < z.
Proof.
  unfold _coerce_turn_id. destruct (as_int value) as [z|] eqn:Hz.
  - destruct (Z.ltb_spec 0 z); [|done]. intros [= <-]. by exists z.
  - destruct value; try done. destruct (isdigit _); [|done].
    intros (parsed & _ & H)%bind_ok.
    destruct (Z.ltb_spec 0 parsed); [|done]. injection H as <-. by exists parsed.
Qed.

(** The loop raises only what [int] raises on a digit string. *)
Lemma coerce_turn_id_raises (value : json) (exc : exn) :
  _coerce_turn_id isdigit int_of_str value = Raise exc ->
  exists s, value = JStr s /\ isdigit (strip s) = true /\ int_of_str (strip s) = Raise exc.
Proof.
  unfold _coerce_turn_id. destruct (as_int value); [done|].
  destruct value as [| | | |s| |]; try done.
  destruct (isdigit (strip s)) eqn:Hd; [|done].
  destruct (int_of_str (strip s)) as [z|exc'] eqn:Hi; [done|].
  intros [= <-]. by exists s.
Qed.

Lemma coerce_turn_id_returns (value : json) :
  is_str value = false -> exists r, _coerce_turn_id isdigit int_of_str value = Ok r.
Proof.
  unfold _coerce_turn_id. destruct (as_int value); [by eexists|].
  destruct value; try done; by eexists.
Qed.

(** An item the loop appends passes the evidence validator and has an
    identity for [_dedupe_evidence]. *)
Lemma normalize_entry_valid (entry item : dict) :
  normalize_entry isdigit int_of_str entry = Ok (Some item) ->
  (forall index, _validate_evidence item index = Ok [])
  /\ (forall str_lower, is_Some (_evidence_identity str_lower item)).
Proof.
  unfold normalize_entry. intros (turn & Hturn & H)%bind_ok.
  destruct turn as [tid|]; [|done].
  apply coerce_turn_id_positive in Hturn as (z & Hz & Hpos).
  set (sid := _as_non_empty_text (get entry (u "session_id"))) in *.
  set (snippet := _as_non_empty_text (get entry (u "snippet"))) in *.
  set (tier := _as_non_empty_text (get entry (u "tier"))) in *.
  pose proof (as_non_empty_text_collapsed (get entry (u "session_id"))) as Hsid.
  pose proof (as_non_empty_text_collapsed (get entry (u "snippet"))) as Hsnip.
  fold sid in Hsid. fold snippet in Hsnip. clearbody sid snippet tier.
  case_bool_decide as E1; [done|]. case_bool_decide as E2; [done|].
  cbn [orb] in H. cbv zeta in H. apply ok_inj in H. injection H as <-.
  assert (positive_int tid = true) as Hp.
  { unfold positive_int. rewrite Hz. by apply Z.ltb_lt. }
  assert (text_of (JStr sid) <> []) as Htext.
  { unfold text_of, py_or. cbn [truthy]. rewrite bool_decide_eq_false_2 by done.
    by apply collapsed_nonblank. }
  pose proof (normalize_collapsed_nonempty snippet Hsnip E2) as Hnorm.
  split.
  - intros index. unfold _validate_evidence.
    destruct (str_in tier _) eqn:Ht;
      change (get _ (u "session_id")) with (JStr sid);
      change (get _ (u "turn_id")) with tid;
      change (get _ (u "snippet")) with (JStr snippet);
      rewrite !nonblank_of_collapsed by done;
      rewrite !bool_decide_eq_false_2 by done; rewrite Hp.
    + change (get _ (u "tier")) with (JStr tier). cbn [is_none not_in_str_set].
      by rewrite Ht.
    + reflexivity.
  - intros str_lower. unfold _evidence_identity.
    destruct (str_in tier _);
      change (get _ (u "session_id")) with (JStr sid);
      change (get _ (u "turn_id")) with tid;
      change (get _ (u "snippet")) with (JStr snippet);
      rewrite (bool_decide_eq_false_2 _ Htext), Hz;
      (destruct (Z.leb_spec z 0); [lia|]);
      by rewrite (bool_decide_eq_false_2 _ Hnorm).
Qed.

Lemma normalize_entry_raises (entry : dict) (exc : exn) :
  normalize_entry isdigit int_of_str entry = Raise exc ->
  exists s, get entry (u "turn_id") = JStr s
            /\ isdigit (strip s) = true /\ int_of_str (strip s) = Raise exc.
Proof.
  unfold normalize_entry.
  destruct (_coerce_turn_id isdigit int_of_str (get entry (u "turn_id"))) as [turn|exc'] eqn:E.
  - cbn. destruct turn; [|done]. by destruct (_ || _).
  - intros [= <-]. by apply coerce_turn_id_raises.
Qed.

(** [_normalize_evidence_list]: every item it returns passes
    [_validate_evidence] and has an identity for [_dedupe_evidence], and
    there are no more items than entries; it raises only what [int]
    raises on the digits of a [turn_id] given as a text; so it returns
    when no [turn_id] is a text. *)
Theorem normalized_evidence_is_accepted (value : json) :
  (forall items,
     _normalize_evidence_list isdigit int_of_str value = Ok items ->
     Forall (fun item =>
               (forall index, _validate_evidence item index = Ok [])
               /\ (forall str_lower, is_Some (_evidence_identity str_lower item))) items
     /\ (length items <= length (dict_entries value))%nat)
  /\ (forall exc,
        _normalize_evidence_list isdigit int_of_str value = Raise exc ->
        exists entry s,
          entry ∈ dict_entries value
          /\ get entry (u "turn_id") = JStr s
          /\ isdigit (strip s) = true /\ int_of_str (strip s) = Raise exc)
  /\ (Forall (fun entry => is_str (get entry (u "turn_id")) = false) (dict_entries value) ->
      exists items, _normalize_evidence_list isdigit int_of_str value = Ok items).
Proof.
  unfold _normalize_evidence_list. generalize (dict_entries value). intros entries.
  split; [|split].
  - induction entries as [|entry rest IH]; intros items H.
    { apply ok_inj in H. subst items. split; [constructor|done]. }
    cbn [normalize_entries] in H.
    apply bind_ok in H as (item & Hitem & H). apply bind_ok in H as (items' & Hrest & H).
    apply ok_inj in H. destruct (IH items' Hrest) as [Hall Hlen].
    destruct item as [item|]; subst items; cbn [length].
    + split; [|lia]. constructor; [|done]. exact (normalize_entry_valid entry item Hitem).
    + split; [done|lia].
  - induction entries as [|entry rest IH]; intros exc H; [done|].
    cbn [normalize_entries] in H.
    destruct (normalize_entry isdigit int_of_str entry) as [item|exc'] eqn:E.
    + destruct (normalize_entries isdigit int_of_str rest) as [items|exc''] eqn:E'; [done|].
      injection H as <-. destruct (IH exc'' eq_refl) as (e & s & He & Hs).
      exists e, s. split; [by apply list_elem_of_further|done].
    + injection H as <-. destruct (normalize_entry_raises entry exc' E) as (s & Hs).
      exists entry, s. split; [apply list_elem_of_here|done].
  - induction 1 as [|entry rest Hentry _ [items IH]]; [by eexists|].
    cbn [normalize_entries]. rewrite IH.
    unfold normalize_entry.
    destruct (coerce_turn_id_returns (get entry (u "turn_id")) Hentry) as [turn ->].
    cbn. destruct turn; [|by eexists]. destruct (_ || _); by eexists.
Qed.

End Digits.

Lemma first_non_empty_text_collapsed (payload : dict) (keys : list pystr) :
  collapsed (_first_non_empty_text payload keys) = true.
Proof.
  induction keys as [|key rest IH]; [done|]. cbn [_first_non_empty_text].
  case_bool_decide; [done|apply as_non_empty_text_collapsed].
Qed.

(** [_normalize_actions]: one action for each dict given; an action has
    the four keys of the contract, each with a text whose white space is
    collapsed; and the session validator has no error for it exactly when
    none of the four texts is empty. *)
Theorem normalized_actions_have_four_fields (value : json) :
  let actions := _normalize_actions value in
  length actions = length (dict_entries value)
  /\ Forall (fun action =>
               map fst action
               = [u "trigger"; u "action"; u "expected_gain"; u "validation_window"]
               /\ Forall (fun field => exists text,
                            snd field = JStr text /\ collapsed text = true) action
               /\ forall idx,
                    action_item_errors idx (JObj action) = Ok []
                    <-> Forall (fun field => snd field <> JStr []) action) actions.
Proof.
  intros actions. unfold actions, _normalize_actions. split; [by rewrite length_map|].
  apply Forall_forall. intros action (item & -> & _)%list_elem_of_fmap.
  split; [reflexivity|].
  assert (forall keys, exists text,
            JStr (_first_non_empty_text item keys) = JStr text /\ collapsed text = true) as Hc.
  { intros keys. eexists. split; [reflexivity|apply first_non_empty_text_collapsed]. }
  split; [repeat constructor; apply Hc|].
  intros idx. unfold action_item_errors, action_fields. cbn [map concat fst snd].
  set (t1 := _first_non_empty_text item _).
  set (t2 := _first_non_empty_text item _).
  set (t3 := _first_non_empty_text item _).
  set (t4 := _first_non_empty_text item _).
  change (get _ (u "trigger")) with (JStr t1).
  change (get _ (u "action")) with (JStr t2).
  change (get _ (u "expected_gain")) with (JStr t3).
  change (get _ (u "validation_window")) with (JStr t4).
  rewrite !nonblank_of_collapsed by apply first_non_empty_text_collapsed.
  rewrite !negb_involutive. rewrite !Forall_cons, Forall_nil. cbn [snd].
  unfold err_if.
  repeat case_bool_decide; cbn [app]; split; try done; try (intros; intuition congruence).
Qed.

End SanitizeFacts.

(** ** The shapes of a session result file *)

Module ShapeFacts.
Import Py Json Validator Backfill Store Apply PyFacts JsonFacts BackfillFacts.

Lemma dicts_of_dicts (sessions : list dict) :
  omap (fun item => match item with JObj d => Some d | _ => None end) (JObj <$> sessions)
  = sessions.
Proof. induction sessions as [|s rest IH]; [done|]. cbn. by rewrite IH. Qed.

Lemma omap_length_le {A B} (f : A -> option B) (l : list A) :
  (length (omap f l) <= length l)%nat.
Proof.
  induction l as [|x l IH]; [done|]. cbn [omap list_omap].
  destruct (f x); cbn [length]; lia.
Qed.

(** [_normalize_session_payload] reads three shapes. A list of sessions
    and a dict with the list under [sessions] give the sessions as they
    are. A dict that maps session ids to sessions gives every session in
    the order of the dict, with the id as [session_id] unless the session
    has one; entries that are no dict are left out, and so is everything
    that is neither a list nor a dict. The records are as many as the
    entries at most. *)
Theorem session_payload_shapes (sessions : list dict) :
  _normalize_session_payload (JList (JObj <$> sessions)) = sessions
  /\ (forall wrapper,
        get wrapper (u "sessions") = JList (JObj <$> sessions) ->
        _normalize_session_payload (JObj wrapper) = sessions)
  /\ (forall by_id,
        is_list (get by_id (u "sessions")) = false ->
        let records := _normalize_session_payload (JObj by_id) in
        (length records <= length by_id)%nat
        /\ forall sid session,
             (sid, JObj session) ∈ by_id ->
             exists record,
               record ∈ records
               /\ (has_key session (u "session_id") = true -> record = session)
               /\ (has_key session (u "session_id") = false ->
                   get record (u "session_id") = JStr sid
                   /\ forall key, key <> u "session_id" ->
                        dict_get record key = dict_get session key))
  /\ (forall raw, is_list raw = false -> is_dict raw = false ->
        _normalize_session_payload raw = []).
Proof.
  split; [apply dicts_of_dicts|]. split; [|split].
  - intros wrapper H. unfold _normalize_session_payload. rewrite H. apply dicts_of_dicts.
  - intros by_id Hlist records. unfold records, _normalize_session_payload.
    destruct (get by_id (u "sessions")) eqn:E; try done; clear E Hlist;
      (split; [apply omap_length_le|]);
      intros sid session Hin;
      (exists (setdefault session (u "session_id") (JStr sid)));
      (split; [apply list_elem_of_omap; by exists (sid, JObj session)|]);
      (split; [by intros H; unfold setdefault; rewrite H|]);
      intros H; unfold setdefault; rewrite H;
      (split; [apply get_set_eq|]); intros key Hkey; by apply dict_get_set_ne.
  - intros raw Hl Hd. by destruct raw.
Qed.

End ShapeFacts.

(** ** The detail lines of a report *)

Module LinesFacts.
Import Py Json Runtime Lines PyFacts TextFacts JsonFacts.

Lemma text_of_normalized (text : pystr) : normalized_line text -> text_of (JStr text) = text.
Proof.
  intros [Hne Hs]. unfold text_of, py_or. cbn [truthy].
  by rewrite bool_decide_eq_false_2.
Qed.

Lemma stripped_texts_normalized (items : list json) :
  Forall normalized_line (stripped_texts items).
Proof.
  apply Forall_forall. intros text [Hne Hin]%list_elem_of_filter.
  apply list_elem_of_fmap in Hin as (item & -> & _).
  split; [done|]. unfold text_of. apply strip_idemp.
Qed.

Lemma stripped_texts_fixed (lines : list pystr) :
  Forall normalized_line lines -> stripped_texts (JStr <$> lines) = lines.
Proof.
  unfold stripped_texts. induction 1 as [|text lines Htext _ IH]; [done|].
  rewrite !fmap_cons, text_of_normalized by done.
  rewrite filter_cons_True by apply Htext. f_equal. exact IH.
Qed.

Lemma slice_to_bound {A} (m : Z) (l : list A) :
  0 <= m -> Z.of_nat (length (slice_to m l)) <= m.
Proof.
  intros Hm. unfold slice_to. destruct (Z.ltb_spec m 0); [lia|].
  rewrite length_take. lia.
Qed.

Lemma slice_to_prefix {A} (m : Z) (l : list A) : slice_to m l `prefix_of` l.
Proof. unfold slice_to. destruct (m <? 0); apply prefix_take. Qed.

(** A text without a line break is read as a part of the current line. *)
Lemma splitlines_from_one_line (text rest cur : pystr) :
  one_line text -> splitlines_from (text ++ rest) cur = splitlines_from rest (cur ++ text).
Proof.
  intros Htext. revert cur. induction Htext as [|c text Hc _ IH]; intros cur.
  - by rewrite app_nil_r.
  - cbn [app splitlines_from]. rewrite Hc, IH. by rewrite <- app_assoc.
Qed.

(** The lines of a text hold no line break. *)
Lemma splitlines_from_one_lines (s : pystr) :
  forall cur, one_line cur -> Forall one_line (splitlines_from s cur).
Proof.
  assert (forall n s, (length s <= n)%nat ->
            forall cur, one_line cur -> Forall one_line (splitlines_from s cur)) as H.
  { clear s. induction n as [|n IH]; intros s Hn cur Hcur.
    - destruct s; [|cbn [length] in Hn; lia]. cbn [splitlines_from].
      case_bool_decide; by repeat constructor.
    - destruct s as [|c s]; cbn [splitlines_from].
      { case_bool_decide; by repeat constructor. }
      cbn [length] in Hn. destruct (is_line_break c) eqn:Hc.
      + destruct s as [|c' s']; [by repeat constructor|]. cbn [length] in Hn.
        destruct ((c =? 13) && (c' =? 10))%N;
          (constructor; [done|]); apply IH; try constructor; cbn [length]; lia.
      + apply IH; [lia|]. apply Forall_app. split; [done|by repeat constructor]. }
  by apply (H (length s)).
Qed.

(** Lines joined by line feeds are split into the same lines. *)
Lemma splitlines_join (lines : list pystr) :
  Forall (fun line => line <> [] /\ one_line line) lines ->
  splitlines (join nl lines) = lines.
Proof.
  unfold splitlines. induction 1 as [|line lines [Hne Hline] Hlines IH]; [done|].
  destruct lines as [|next lines'].
  - cbn [join]. rewrite <- (app_nil_r line) at 1. rewrite splitlines_from_one_line by done.
    cbn [splitlines_from app]. by rewrite bool_decide_eq_false_2.
  - change (join ?sep (line :: next :: lines'))
      with (line ++ sep ++ join sep (next :: lines')).
    rewrite splitlines_from_one_line by done. cbn [app].
    unfold nl. cbn [app splitlines_from].
    change (is_line_break 10) with true. cbv iota.
    destruct (join [10%N] (next :: lines')) as [|c rest] eqn:E.
    + exfalso. apply Forall_cons in Hlines as [[Hnext _] _].
      destruct next as [|c next]; [done|]. cbn [join] in E. by destruct lines'.
    + change ((10 =? 13) && (c =? 10))%N with false. cbv iota. rewrite <- E. f_equal. exact IH.
Qed.

Lemma strip_one_line (text : pystr) : one_line text -> one_line (strip text).
Proof.
  intros H. destruct (strip_infix text) as (p & q & E). unfold one_line in *.
  rewrite E in H. apply Forall_app in H as [_ H]. by apply Forall_app in H as [H _].
Qed.

Lemma normalize_lines_normalized (value : json) (max_items : Z) :
  Forall normalized_line (_normalize_lines value max_items).
Proof.
  unfold _normalize_lines. cbv zeta.
  match goal with
  | |- Forall _ (if _ then slice_to _ ?l else ?l) =>
      assert (Forall normalized_line l) as H
        by (destruct value; try constructor; apply stripped_texts_normalized);
      destruct (_ <? _); [|done];
      destruct (slice_to_prefix max_items l) as [k Hk]
  end.
  rewrite Hk in H. by apply Forall_app in H as [H _].
Qed.

(** [_normalize_lines]: the lines are not empty and have no space at
    either end; with a limit that is not negative there are at most that
    many; the lines of a text hold no line break; a value that is neither
    a list nor a text has no lines; and lines that are normalized already,
    joined by line feeds as [_normalize_report_item] joins them, are read
    back as they are. *)
Theorem normalize_lines_spec (value : json) (max_items : Z) :
  let lines := _normalize_lines value max_items in
  Forall normalized_line lines
  /\ (0 <= max_items -> Z.of_nat (length lines) <= max_items)
  /\ (forall s, value = JStr s -> Forall one_line lines)
  /\ (is_list value = false -> is_str value = false -> lines = [])
  /\ (forall texts,
        Forall (fun text => normalized_line text /\ one_line text) texts ->
        Z.of_nat (length texts) <= max_items ->
        _normalize_lines (JStr (join nl texts))
          max_items = texts
        /\ _normalize_lines (JList (JStr <$> texts)) max_items = texts).
Proof.
  intros lines.
  assert (forall l : list pystr,
            (if max_items <? Z.of_nat (length l) then slice_to max_items l else l)
            `prefix_of` l) as Hprefix.
  { intros l. destruct (_ <? _); [apply slice_to_prefix|done]. }
  assert (forall (P : pystr -> Prop) (l l' : list pystr),
            l' `prefix_of` l -> Forall P l -> Forall P l') as Hforall.
  { intros P l l' [k ->] H. by apply Forall_app in H as [H _]. }
  split; [|split; [|split; [|split]]].
  - apply normalize_lines_normalized.
  - intros Hmax. unfold lines, _normalize_lines. cbv zeta.
    destruct (Z.ltb_spec max_items (Z.of_nat (length
      match value with
      | JStr s => stripped_texts (JStr <$> splitlines s)
      | JList items => stripped_texts items
      | _ => []
      end))); [by apply slice_to_bound|done].
  - intros s ->. unfold lines, _normalize_lines. eapply Hforall; [apply Hprefix|].
    apply Forall_forall. intros text [_ Hin]%list_elem_of_filter.
    apply list_elem_of_fmap in Hin as (item & -> & Hitem).
    apply list_elem_of_fmap in Hitem as (line & -> & Hline).
    assert (one_line line) as Hone.
    { pose proof (splitlines_from_one_lines s [] (Forall_nil_2 _)) as H.
      rewrite Forall_forall in H. by apply H. }
    unfold text_of, py_or. cbn [truthy]. case_bool_decide; cbn [negb py_str].
    + constructor.
    + by apply strip_one_line.
  - intros Hl Hs. unfold lines, _normalize_lines.
    destruct value; try done; cbv zeta; (destruct (max_items <? _); [|done]);
      unfold slice_to; destruct (max_items <? 0); apply take_nil.
  - intros texts Htexts Hlen.
    assert (Forall normalized_line texts) as Hnorm
      by (eapply Forall_impl; [exact Htexts|]; by intros t [? _]).
    unfold _normalize_lines. rewrite splitlines_join.
    + rewrite stripped_texts_fixed by done.
      destruct (Z.ltb_spec max_items (Z.of_nat (length texts))); [lia|done].
    + eapply Forall_impl; [exact Htexts|]. by intros t [[? _] ?].
Qed.

Section Lower.
Context (str_lower : pystr -> pystr).

Lemma stripped_texts_cons (line : json) (rest : list json) :
  stripped_texts (line :: rest)
  = if bool_decide (text_of line = []) then stripped_texts rest
    else text_of line :: stripped_texts rest.
Proof.
  unfold stripped_texts. rewrite fmap_cons. case_bool_decide as E.
  - by rewrite filter_cons_False by (by intros ?).
  - by rewrite filter_cons_True.
Qed.

(** The loop of [_dedupe_lines] appends lines in their order, none with
    a key it has seen, and stops when [max_items] lines are reached. *)
Lemma dedupe_lines_loop_spec (lines : list json) (max_items : Z) :
  forall deduped seen,
  exists added,
    dedupe_lines_loop str_lower lines deduped seen max_items = deduped ++ added
    /\ added `sublist_of` stripped_texts lines
    /\ NoDup (str_lower <$> added)
    /\ (forall key, key ∈ (str_lower <$> added) -> key ∉ seen)
    /\ Z.of_nat (length (deduped ++ added)) <= Z.max max_items (Z.of_nat (length deduped) + 1)
    /\ (Z.of_nat (length (deduped ++ added)) < max_items ->
        forall text, text ∈ stripped_texts lines ->
        str_lower text ∈ seen \/ str_lower text ∈ (str_lower <$> added))
    /\ (seen = ∅ -> stripped_texts lines <> [] -> added <> []).
Proof.
  induction lines as [|line rest IH]; intros deduped seen.
  { exists []. rewrite app_nil_r. split; [done|]. split; [done|]. split; [constructor|].
    split; [by intros key ?%elem_of_nil|]. split; [lia|].
    split; [by intros _ text ?%elem_of_nil|done]. }
  cbn [dedupe_lines_loop]. rewrite stripped_texts_cons. cbv zeta.
  case_bool_decide as Htext; [apply IH|].
  case_bool_decide as Hseen.
  { destruct (IH deduped seen) as (added & -> & H1 & H2 & H3 & H4 & H5 & H6).
    exists added. split; [done|]. split; [by apply sublist_cons|]. split; [done|].
    split; [done|]. split; [done|]. split; [|intros ->; set_solver].
    intros Hlen text [->|Hin]%elem_of_cons; [by left|by apply H5]. }
  set (text := text_of line) in *.
  destruct (Z.leb_spec max_items (Z.of_nat (length (deduped ++ [text])))) as [Hfull|Hroom].
  { exists [text]. split; [done|]. split; [apply sublist_skip, sublist_nil_l|].
    split; [apply NoDup_singleton|].
    split; [by intros key ->%list_elem_of_singleton|].
    rewrite length_app in *. cbn [length] in *. split; [lia|]. split; [lia|done]. }
  destruct (IH (deduped ++ [text]) ({[str_lower text]} ∪ seen))
    as (added & -> & H1 & H2 & H3 & H4 & H5 & _).
  exists (text :: added).
  replace (deduped ++ text :: added) with ((deduped ++ [text]) ++ added)
    by (by rewrite <- app_assoc).
  split; [done|]. split; [by apply sublist_skip|].
  rewrite fmap_cons.
  split; [constructor; [|done]; intros Hin; apply H3 in Hin; set_solver|].
  split; [intros key [->|Hin]%elem_of_cons; [done|]; apply H3 in Hin; set_solver|].
  rewrite !length_app in *. cbn [length] in *. split; [lia|]. split; [|done].
  intros Hlen other [->|Hin]%elem_of_cons; [right; apply list_elem_of_here|].
  destruct (H5 Hlen other Hin) as [[Hk|Hk]%elem_of_union|Hk].
  - right. apply elem_of_singleton in Hk. rewrite Hk. apply list_elem_of_here.
  - by left.
  - right. by apply list_elem_of_further.
Qed.

(** [_dedupe_lines]: the lines kept are lines of the input, stripped and
    in their order; no two are equal up to letter case; there are at most
    [max_items], and one for a limit below 1; no line is kept exactly
    when the input has no line; short of the limit, every line of the
    input is kept or equal up to case to a line kept. Applied to the
    result of [_normalize_lines] it selects among those lines. *)
Theorem dedupe_lines_spec (lines : list json) (max_items : Z) :
  let out := _dedupe_lines str_lower lines max_items in
  out `sublist_of` stripped_texts lines
  /\ Forall normalized_line out
  /\ NoDup (str_lower <$> out)
  /\ Z.of_nat (length out) <= Z.max 1 max_items
  /\ (out = [] <-> stripped_texts lines = [])
  /\ (Z.of_nat (length out) < max_items ->
      forall text, text ∈ stripped_texts lines -> str_lower text ∈ (str_lower <$> out))
  /\ (forall value limit,
        lines = JStr <$> _normalize_lines value limit ->
        out `sublist_of` _normalize_lines value limit).
Proof.
  intros out. unfold out, _dedupe_lines.
  destruct (dedupe_lines_loop_spec lines max_items [] ∅)
    as (added & -> & H1 & H2 & H3 & H4 & H5 & H6).
  rewrite app_nil_l in *. cbn [length] in H4.
  split; [done|].
  split.
  { apply Forall_forall. intros text Hin.
    pose proof (stripped_texts_normalized lines) as H. rewrite Forall_forall in H.
    apply H. eapply elem_of_submseteq; [exact Hin|]. by apply sublist_submseteq. }
  split; [done|]. split; [lia|]. split; [|split].
  - split.
    + intros ->. destruct (stripped_texts lines) eqn:E; [done|]. by destruct H6.
    + intros E. rewrite E in H1. by apply sublist_nil_r.
  - intros Hlen text Hin. destruct (H5 Hlen text Hin) as [Hk|Hk]; [set_solver|done].
  - intros value limit ->.
    rewrite stripped_texts_fixed in H1; [done|].
    apply normalize_lines_normalized.
Qed.

End Lower.

End LinesFacts.

(** ** The exit code of the report sync *)

Module CallFacts.
Import Py Json Sync Calls PyFacts JsonFacts BackfillFacts SyncFacts.

Section Client.
Context {W : Type}.
Context (archive_page : pystr -> W -> result unit * W).
Context (update_page : pystr -> dict -> W -> result unit * W).
Context (create_page : dict -> W -> result pystr * W).

(** [_write_report] makes one call, and succeeds when the call does. *)
Lemma write_report_call (report : dict) (index : list (report_key * pystr)) (w : W) :
  exists c,
    snd (fst (_write_report update_page create_page report index w)) = [c]
    /\ call_ok c = fst (fst (fst (_write_report update_page create_page report index w)))
    /\ is_write_call c.
Proof.
  unfold _write_report. destruct (index_get index (_report_key report)).
  - destruct (update_page _ _ w) as [r w0]. by eexists.
  - destruct (create_page _ w) as [[id|exc] w0]; by eexists.
Qed.

(** The write loop makes one call for each report and counts the calls
    that went through. *)
Lemma write_reports_calls (reports : list dict) :
  forall index w written log w',
  write_reports update_page create_page reports index w = (written, log, w') ->
  length log = length reports
  /\ written = length (filter (fun c => call_ok c = true) log)
  /\ Forall is_write_call log.
Proof.
  induction reports as [|report rest IH]; intros index w written log w' H;
    cbn [write_reports] in H.
  - by injection H as <- <- <-.
  - destruct (write_report_call report index w) as (c & Hlog & Hok & Hc).
    destruct (_write_report update_page create_page report index w)
      as [[[ok index'] l1] w1] eqn:Hw.
    cbn [fst snd] in Hlog, Hok. subst l1.
    destruct (write_reports update_page create_page rest index' w1) as [[n l2] w2] eqn:Hrec.
    injection H as <- <- <-. destruct (IH _ _ _ _ _ Hrec) as (Hlen & Hn & Hall).
    cbn [app length]. split; [by rewrite Hlen|]. split; [|by constructor].
    rewrite filter_cons. destruct ok; rewrite Hok.
    + rewrite decide_True by done. cbn [length]. by rewrite Hn.
    + by rewrite decide_False by done.
Qed.

Lemma filter_all_length {A} (P : A -> Prop) `{!forall x, Decision (P x)} (l : list A) :
  length (filter P l) = length l <-> Forall P l.
Proof.
  induction l as [|x l IH]; [done|]. rewrite filter_cons. destruct (decide (P x)) as [Hx|Hx].
  - cbn [length]. rewrite Forall_cons. split.
    + intros [= Hlen]. split; [done|]. by apply IH.
    + intros [_ Hall]. f_equal. by apply IH.
  - split.
    + intros Hlen. pose proof (length_filter P l) as Hle. cbn [length] in Hlen. lia.
    + by intros [? _]%Forall_cons.
Qed.


End Client.


End CallFacts.

(** ** The period label of the stats step *)

Module PipelineFacts.
Import Py Json Incremental Pipeline PyFacts JsonFacts BackfillFacts.

(** The label of the stats step is the period id the [incremental]
    command computes for the same [since] and window, with no [until] and
    no [period_id], when both read the same day; a window that is not
    valid raises in the stats step what the command reports. With a
    [since] the label is [<since>_to_today], whatever the window; with
    neither it is [rolling_30d]. *)
Theorem stats_label_is_incremental_period (today : Z) (since : option pystr) (window : pystr) :
  _derive_stats_period_label today today since window
  = (resolved ← resolve_window today since None (Some window);
     Ok (incremental_period_id (window_args since window) resolved.1 resolved.2))
  /\ (forall today_local s,
        since = Some s -> s <> [] ->
        _derive_stats_period_label today today_local since window
        = Ok (s ++ u "_to_today"))
  /\ (forall today_local,
        given since = false -> window = [] ->
        _derive_stats_period_label today today_local since window = Ok (u "rolling_30d")).
Proof.
  split; [|split].
  - unfold _derive_stats_period_label, resolve_window, incremental_period_id, window_args.
    cbn [arg_period_id arg_window given]. rewrite andb_true_r.
    destruct (negb (given since) && negb (bool_decide (window = []))); [|done].
    destruct (_parse_window_to_since today (Some window)) as [[s|]|exc]; done.
  - intros today_local s -> Hs. unfold _derive_stats_period_label, _build_period_id.
    cbn [given]. rewrite (bool_decide_eq_false_2 _ Hs). done.
  - intros today_local Hsince ->. unfold _derive_stats_period_label, _build_period_id.
    rewrite Hsince. done.
Qed.

End PipelineFacts.

(** ** The order of the reports *)

Module OrderFacts.
Import Sorted.
Import Py Json Dimensions Order PyFacts SyncFacts.

Lemma str_leb_antisym (s t : pystr) :
  str_leb s t = true -> str_leb t s = true -> s = t.
Proof.
  revert t. induction s as [|a s IH]; intros [|b t]; simpl; try done.
  destruct (N.ltb_spec a b), (N.ltb_spec b a); try done; try lia.
  intros Hst Hts. f_equal; [lia|by apply IH].
Qed.

(** A strict order with its three cases, and the order it makes of pairs
    compared first by it and then by [le2]. *)
Section Lexicographic.
Context {A B : Type} (lt1 : A -> A -> bool) (le2 : B -> B -> bool).

Context (lt1_asym : forall a b, lt1 a b = true -> lt1 b a = false).
Context (lt1_trans : forall a b c, lt1 a b = true -> lt1 b c = true -> lt1 a c = true).
Context (lt1_eq : forall a b, lt1 a b = false -> lt1 b a = false -> a = b).
Context (le2_total : forall a b, le2 a b = true \/ le2 b a = true).
Context (le2_trans : forall a b c, le2 a b = true -> le2 b c = true -> le2 a c = true).

Lemma lex_leb_total (x y : A * B) :
  lex_leb lt1 le2 x y = true \/ lex_leb lt1 le2 y x = true.
Proof using lt1_asym le2_total.
  unfold lex_leb. destruct (lt1 (fst x) (fst y)) eqn:E1; [by left|].
  destruct (lt1 (fst y) (fst x)) eqn:E2; [by right|]. apply le2_total.
Qed.

Lemma lex_leb_trans (x y z : A * B) :
  lex_leb lt1 le2 x y = true -> lex_leb lt1 le2 y z = true -> lex_leb lt1 le2 x z = true.
Proof using lt1_asym lt1_trans lt1_eq le2_trans.
  unfold lex_leb. destruct x as [a1 b1], y as [a2 b2], z as [a3 b3]. cbn [fst snd].
  destruct (lt1 a1 a2) eqn:E12.
  - intros _. destruct (lt1 a2 a3) eqn:E23.
    + intros _. by rewrite (lt1_trans _ _ _ E12 E23).
    + destruct (lt1 a3 a2) eqn:E32; [done|]. intros _.
      rewrite <- (lt1_eq _ _ E23 E32). by rewrite E12.
  - destruct (lt1 a2 a1) eqn:E21; [done|]. intros H12.
    rewrite (lt1_eq _ _ E12 E21).
    destruct (lt1 a2 a3) eqn:E23; [done|].
    destruct (lt1 a3 a2) eqn:E32; [done|]. intros H23.
    by apply (le2_trans _ _ _ H12 H23).
Qed.

End Lexicographic.

Lemma str_ltb_asym (s t : pystr) : str_ltb s t = true -> str_ltb t s = false.
Proof.
  unfold str_ltb. intros [Hst Hne]%andb_true_iff.
  apply negb_true_iff, bool_decide_eq_false in Hne.
  destruct (str_leb t s) eqn:Hts; [|done].
  by destruct Hne; apply str_leb_antisym.
Qed.

Lemma str_ltb_trans (s t r : pystr) :
  str_ltb s t = true -> str_ltb t r = true -> str_ltb s r = true.
Proof.
  unfold str_ltb. intros [Hst Hne]%andb_true_iff [Htr Hne']%andb_true_iff.
  apply negb_true_iff, bool_decide_eq_false in Hne, Hne'.
  apply andb_true_iff. split; [by eapply str_leb_trans|].
  apply negb_true_iff, bool_decide_eq_false. intros ->.
  by destruct Hne; apply str_leb_antisym.
Qed.

Lemma str_ltb_eq (s t : pystr) : str_ltb s t = false -> str_ltb t s = false -> s = t.
Proof.
  unfold str_ltb. intros Hst Hts.
  destruct (decide (s = t)) as [|Hne]; [done|].
  rewrite (bool_decide_eq_false_2 (s = t)) in Hst by done.
  rewrite (bool_decide_eq_false_2 (t = s)) in Hts by done.
  rewrite andb_true_r in Hst, Hts.
  destruct (str_leb_total s t); congruence.
Qed.

Lemma nat_ltb_asym (a b : nat) : (a <? b)%nat = true -> (b <? a)%nat = false.
Proof. intros H%Nat.ltb_lt. apply Nat.ltb_ge. lia. Qed.

Lemma nat_ltb_trans (a b c : nat) :
  (a <? b)%nat = true -> (b <? c)%nat = true -> (a <? c)%nat = true.
Proof. intros H1%Nat.ltb_lt H2%Nat.ltb_lt. apply Nat.ltb_lt. lia. Qed.

Lemma nat_ltb_eq (a b : nat) : (a <? b)%nat = false -> (b <? a)%nat = false -> a = b.
Proof. intros H1%Nat.ltb_ge H2%Nat.ltb_ge. lia. Qed.

(** The tuple order of the sort keys is the lexicographic order of its
    components. *)
Lemma sort_key_leb_lex (k1 k2 : nat * pystr * pystr * pystr) :
  sort_key_leb k1 k2
  = let nest (k : nat * pystr * pystr * pystr) :=
      let '(r, p, d, t) := k in (r, (p, (d, t))) in
    lex_leb Nat.ltb (lex_leb str_ltb (lex_leb str_ltb str_leb)) (nest k1) (nest k2).
Proof. by destruct k1 as [[[r1 p1] d1] t1], k2 as [[[r2 p2] d2] t2]. Qed.

Lemma sort_key_leb_total (k1 k2 : nat * pystr * pystr * pystr) :
  sort_key_leb k1 k2 = true \/ sort_key_leb k2 k1 = true.
Proof.
  rewrite !sort_key_leb_lex. cbv zeta.
  apply lex_leb_total; [apply nat_ltb_asym|].
  intros a b. apply lex_leb_total; [apply str_ltb_asym|].
  intros c d. apply lex_leb_total; [apply str_ltb_asym|apply str_leb_total].
Qed.

Lemma sort_key_leb_trans (k1 k2 k3 : nat * pystr * pystr * pystr) :
  sort_key_leb k1 k2 = true -> sort_key_leb k2 k3 = true -> sort_key_leb k1 k3 = true.
Proof.
  rewrite !sort_key_leb_lex. cbv zeta.
  apply lex_leb_trans; [apply nat_ltb_asym|apply nat_ltb_trans|apply nat_ltb_eq|].
  intros a b c. apply lex_leb_trans; [apply str_ltb_asym|apply str_ltb_trans|apply str_ltb_eq|].
  intros a' b' c'.
  apply lex_leb_trans; [apply str_ltb_asym|apply str_ltb_trans|apply str_ltb_eq|].
  apply str_leb_trans.
Qed.

(** [sorted] by insertion: a permutation of the list, in order. *)
Section SortedList.
Context {A K : Type} (key : A -> K) (leb : K -> K -> bool).

Lemma insert_sorted_perm (x : A) (l : list A) : insert_sorted key leb x l ≡ₚ x :: l.
Proof.
  induction l as [|y l IH]; simpl; [done|].
  destruct (leb (key x) (key y)); [done|].
  rewrite IH. apply Permutation_swap.
Qed.

Lemma py_sorted_perm (l : list A) : py_sorted key leb l ≡ₚ l.
Proof.
  induction l as [|x l IH]; [done|]. unfold py_sorted in *. cbn [foldr].
  by rewrite insert_sorted_perm, IH.
Qed.

Context (leb_total : forall k1 k2, leb k1 k2 = true \/ leb k2 k1 = true).
Context (leb_trans : forall k1 k2 k3, leb k1 k2 = true -> leb k2 k3 = true -> leb k1 k3 = true).

Lemma insert_sorted_in_order (x : A) (l : list A) :
  StronglySorted (fun a b => leb (key a) (key b) = true) l ->
  StronglySorted (fun a b => leb (key a) (key b) = true) (insert_sorted key leb x l).
Proof using leb_total leb_trans.
  induction 1 as [|y l Hl IH Hy]; simpl.
  - by repeat constructor.
  - destruct (leb (key x) (key y)) eqn:E.
    + constructor; [by constructor|]. constructor; [done|].
      eapply Forall_impl; [exact Hy|]. intros z Hz. by eapply leb_trans.
    + constructor; [done|].
      rewrite insert_sorted_perm. constructor; [|done].
      destruct (leb_total (key x) (key y)); [congruence|done].
Qed.

Lemma py_sorted_in_order (l : list A) :
  StronglySorted (fun a b => leb (key a) (key b) = true) (py_sorted key leb l).
Proof using leb_total leb_trans.
  induction l as [|x l IH]; [constructor|]. unfold py_sorted in *. cbn [foldr].
  by apply insert_sorted_in_order.
Qed.

End SortedList.

Lemma strongly_sorted_lookup {A} (R : A -> A -> Prop) (l : list A) :
  StronglySorted R l ->
  forall i j a b, (i < j)%nat -> l !! i = Some a -> l !! j = Some b -> R a b.
Proof.
  induction 1 as [|x l Hl IH Hx]; intros i j a b Hij Hi Hj; [done|].
  destruct j as [|j]; [lia|]. destruct i as [|i]; simpl in *.
  - injection Hi as ->. rewrite Forall_forall in Hx. apply Hx.
    by eapply list_elem_of_lookup_2.
  - apply (IH i j); [lia|done..].
Qed.

(** A key has an index exactly when it has a value, and the index is
    below the number of pairs. *)
Lemma assoc_index {V} (l : list (pystr * V)) (d : pystr) (k : nat) :
  match assoc l d with
  | Some _ => exists i, assoc (imap (fun i p => (fst p, (k + i)%nat)) l) d = Some (k + i)%nat
                        /\ (i < length l)%nat
  | None => assoc (imap (fun i p => (fst p, (k + i)%nat)) l) d = None
  end.
Proof.
  revert k. induction l as [|[k' v] l IH]; intros k; [done|].
  cbn [assoc imap fst]. case_bool_decide as E.
  - exists 0%nat. cbn [length]. split; [done|lia].
  - specialize (IH (S k)).
    assert (imap ((fun i p => (fst p, (k + i)%nat)) ∘ S) l
            = imap (fun i (p : pystr * V) => (fst p, (S k + i)%nat)) l) as ->.
    { apply imap_ext. intros i p _. cbn. f_equal. lia. }
    destruct (assoc l d).
    + destruct IH as (i & -> & Hi). exists (S i). cbn [length].
      split; [f_equal; lia|lia].
    + exact IH.
Qed.

(** The dimensions of the registry have the ranks 0 to 10. *)
Lemma rank_supported (report : dict) :
  is_supported_dimension (get report (u "dimension")) = bool_decide (rank_of report < 11)%nat.
Proof.
  unfold rank_of, report_sort_key, is_supported_dimension. cbn [fst].
  generalize (text_of (get report (u "dimension"))). intros d.
  unfold DIMENSION_LAYER_MAP_get, DIMENSION_ORDER_INDEX.
  pose proof (assoc_index _DIMENSION_LAYER_PAIRS d 0) as H. cbn [Nat.add] in H.
  change (length (imap (fun index p => (fst p, index)) _DIMENSION_LAYER_PAIRS)) with 11%nat.
  change (length _DIMENSION_LAYER_PAIRS) with 11%nat in H.
  destruct (assoc _DIMENSION_LAYER_PAIRS d).
  - destruct H as (i & -> & Hi). cbn [default].
    rewrite bool_decide_eq_true_2 by done. by rewrite bool_decide_eq_true_2.
  - rewrite H. cbn [default].
    rewrite bool_decide_eq_false_2 by (by intros [? ?]).
    by rewrite bool_decide_eq_false_2 by lia.
Qed.

(** [sort_reports] keeps every report, once, and puts the reports in the
    order of their sort keys; so the dimensions come in the order of the
    registry, and a report whose dimension the registry does not have
    comes after all the reports whose dimension it has. *)
Theorem sort_reports_in_order (reports : list dict) :
  sort_reports reports ≡ₚ reports
  /\ StronglySorted (fun a b => sort_key_leb (report_sort_key a) (report_sort_key b) = true)
                    (sort_reports reports)
  /\ (forall i j a b,
        (i < j)%nat ->
        sort_reports reports !! i = Some a -> sort_reports reports !! j = Some b ->
        (rank_of a <= rank_of b)%nat)
  /\ (forall i j a b,
        sort_reports reports !! i = Some a -> sort_reports reports !! j = Some b ->
        is_supported_dimension (get b (u "dimension")) = true ->
        is_supported_dimension (get a (u "dimension")) = false ->
        (j < i)%nat).
Proof.
  assert (StronglySorted
            (fun a b => sort_key_leb (report_sort_key a) (report_sort_key b) = true)
            (sort_reports reports)) as Hsorted.
  { apply py_sorted_in_order; [apply sort_key_leb_total|apply sort_key_leb_trans]. }
  assert (forall i j a b,
            (i < j)%nat ->
            sort_reports reports !! i = Some a -> sort_reports reports !! j = Some b ->
            (rank_of a <= rank_of b)%nat) as Hrank.
  { intros i j a b Hij Hi Hj.
    pose proof (strongly_sorted_lookup _ _ Hsorted i j a b Hij Hi Hj) as H.
    cbv beta in H. revert H. unfold rank_of.
    destruct (report_sort_key a) as [[[r1 p1] d1] t1].
    destruct (report_sort_key b) as [[[r2 p2] d2] t2]. cbn [fst sort_key_leb].
    destruct (Nat.ltb_spec r1 r2); [lia|].
    destruct (Nat.ltb_spec r2 r1); [done|lia]. }
  split; [apply py_sorted_perm|]. split; [done|]. split; [done|].
  intros i j a b Hi Hj Hb Ha. rewrite rank_supported in Ha, Hb.
  apply bool_decide_eq_true in Hb. apply bool_decide_eq_false in Ha.
  destruct (Nat.lt_trichotomy j i) as [|[->|Hlt]]; [done|..].
  - rewrite Hi in Hj. injection Hj as ->. lia.
  - specialize (Hrank i j a b Hlt Hi Hj). lia.
Qed.

End OrderFacts.
